(** * A record-management API over a document store, and its health views

    Shallow embedding of
      - [backend/models/User.js]        (module [UserModel]),
      - [backend/routes/users.js]       (module [Users]),
      - [backend/utils/healthCheck.js]  (module [HealthCheck]),
      - [backend/server.js]             (module [Server]),
      - the client's [services/api.js] and components (module [Client]),
      - the health check script of the container (module [Healthcheck]).

    The handlers are written against three libraries that are not part of
    the repository: the JavaScript runtime, Express and Mongoose.  Their
    documented behaviour is embedded in the modules [Js], [Regex],
    [Express] and [Mongoose]; the conventions are:

      - strings are ASCII strings; [toLowerCase] folds [A-Z], [trim]
        removes the ASCII white space characters;
      - numbers that the handlers only compare or count are integers;
      - time is explicit: every handler that reads the clock receives the
        reading [now] (milliseconds) as an argument;
      - Mongoose is taken at version 6: setters run on documents, on
        updates and on query filters, keys whose value is [undefined] are
        dropped from an update, and a string is cast to an ObjectId when
        it has 24 hexadecimal digits or 12 bytes;
      - a collection is the list of its documents in insertion order; the
        order in which a query scans them is the server's choice, made anew
        for each query and given to the query as an argument, and a sort
        leaves the documents that its key ties in the order of the scan;
      - the driver's ObjectId generator is a counter (only freshness is
        used);
      - the path of a request is given as it stands in the URL, without
        the query string; what the body parsers make of the body of a
        request is part of the request. *)

From Stdlib Require Import List String Ascii ZArith NArith Bool Arith Lia.
From Stdlib Require Import Sorting.Permutation Sorting.Sorted.
From Stdlib Require Import Decimal DecimalString DecimalN.
Import ListNotations.

Local Open Scope string_scope.

(* ================================================================== *)
(** ** The JavaScript runtime: strings, [parseInt], truthiness *)
(* ================================================================== *)

Module Js.

Definition code (c : ascii) : N := N_of_ascii c.

Definition in_range (lo hi : N) (c : ascii) : bool :=
  (N.leb lo (code c) && N.leb (code c) hi)%bool.

Definition isUpper (c : ascii) : bool := in_range 65 90 c.
Definition isLowerAlpha (c : ascii) : bool := in_range 97 122 c.
Definition isDigit (c : ascii) : bool := in_range 48 57 c.

(** White space removed by [String.prototype.trim] and skipped by
    [parseInt], and the class [\s]: TAB, LF, VT, FF, CR, SPACE. *)
Definition isSpace (c : ascii) : bool :=
  (in_range 9 13 c || N.eqb (code c) 32)%bool.

(** The class [\w]. *)
Definition isWord (c : ascii) : bool :=
  (isUpper c || isLowerAlpha c || isDigit c || N.eqb (code c) 95)%bool.

Definition lowerChar (c : ascii) : ascii :=
  if isUpper c then ascii_of_N (code c + 32) else c.

Fixpoint toLowerCase (s : string) : string :=
  match s with
  | EmptyString => EmptyString
  | String c s' => String (lowerChar c) (toLowerCase s')
  end.

Fixpoint trimStart (s : string) : string :=
  match s with
  | EmptyString => EmptyString
  | String c s' => if isSpace c then trimStart s' else s
  end.

Fixpoint trimEnd (s : string) : string :=
  match s with
  | EmptyString => EmptyString
  | String c s' =>
      match trimEnd s' with
      | EmptyString => if isSpace c then EmptyString else String c EmptyString
      | t => String c t
      end
  end.

Definition trim (s : string) : string := trimEnd (trimStart s).

(** Truthiness of a string: every string but the empty one. *)
Definition truthy (s : string) : bool :=
  match s with EmptyString => false | _ => true end.

(** Value of [c] as a digit in [radix], when it is one. *)
Definition digitVal (radix : N) (c : ascii) : option N :=
  let v :=
    if isDigit c then Some (code c - 48)%N
    else if isLowerAlpha c then Some (code c - 87)%N
    else if isUpper c then Some (code c - 55)%N
    else None in
  match v with
  | Some d => if N.ltb d radix then Some d else None
  | None => None
  end.

(** Longest prefix of digits, accumulated; [None] when there is none. *)
Fixpoint digits (radix : N) (s : string) (acc : option N) : option N :=
  match s with
  | EmptyString => acc
  | String c s' =>
      match digitVal radix c with
      | Some d =>
          digits radix s'
            (Some (match acc with Some a => a * radix + d | None => d end)%N)
      | None => acc
      end
  end.

(** [parseInt(s)] without a radix argument; [None] is [NaN].  The result
    is the exact integer (the runtime rounds beyond 2^53). *)
Definition parseInt (s : string) : option Z :=
  let s1 := trimStart s in
  let '(neg, s2) :=
    match s1 with
    | String "-" r => (true, r)
    | String "+" r => (false, r)
    | _ => (false, s1)
    end in
  let '(radix, s3) :=
    match s2 with
    | String "0" (String "x" r) => (16%N, r)
    | String "0" (String "X" r) => (16%N, r)
    | _ => (10%N, s2)
    end in
  match digits radix s3 None with
  | Some n => Some (if neg then (- Z.of_N n)%Z else Z.of_N n)
  | None => None
  end.

(** [parseInt(x)] for a query parameter that may be absent:
    [parseInt(undefined)] is [NaN]. *)
Definition parseIntParam (x : option string) : option Z :=
  match x with
  | Some s => parseInt s
  | None => None
  end.

(** [v || d] for a number [v]: [NaN] and [0] are falsy. *)
Definition orDefault (v : option Z) (d : Z) : Z :=
  match v with
  | None => d
  | Some 0%Z => d
  | Some n => n
  end.

(** [Math.ceil(a / b)] for integers [a] and [b <> 0]. *)
Definition ceilDiv (a b : Z) : Z := (- ((- a) / b))%Z.

(** *** Numbers as text

    [Number.MAX_SAFE_INTEGER], 2^53 - 1: up to it every integer is a
    number of the runtime, written with its decimal digits. *)
Definition MAX_SAFE_INTEGER : Z := 9007199254740991.

Definition isSafeInteger (n : Z) : bool := (Z.abs n <=? MAX_SAFE_INTEGER)%Z.

(** A finite number in the notation in which the runtime writes it
    ([Number.prototype.toString], a template literal): a sign, the digits
    before the point, the digits after the point (none for an integer)
    and, when the magnitude is 1e21 or more, or less than 1e-6, an
    exponent.  [30.5] is written with 30 before the point and 5 after
    it; 1e21 is written [1e+21], with the exponent 21. *)
Record Num : Type := mkNum {
  negative : bool;
  whole : N;
  fraction : string;
  exponent : option Z
}.

(** The notation of a safe integer. *)
Definition ofInteger (n : Z) : Num :=
  {| negative := (n <? 0)%Z; whole := Z.abs_N n; fraction := EmptyString;
     exponent := None |}.

(** Zero is the one finite number that is falsy. *)
Definition isZero (x : Num) : bool :=
  (N.eqb (whole x) 0 && negb (truthy (fraction x)))%bool.

(** The digits before the point, with the sign: the integer part of a
    number that is written without exponent. *)
Definition integerPart (x : Num) : Z :=
  if negative x then (- Z.of_N (whole x))%Z else Z.of_N (whole x).

Definition digitsOf (n : N) : string :=
  DecimalString.NilZero.string_of_uint (N.to_uint n).

Definition exponentText (e : option Z) : string :=
  match e with
  | None => EmptyString
  | Some z =>
      String "e" ((if (z <? 0)%Z then "-" else "+") ++ digitsOf (Z.abs_N z))
  end.

(** [x.toString()], and the text of [x] in a template literal. *)
Definition toString (x : Num) : string :=
  (if (negative x && negb (isZero x))%bool then "-" else EmptyString) ++
  digitsOf (whole x) ++
  (if truthy (fraction x) then String "." (fraction x) else EmptyString) ++
  exponentText (exponent x).

End Js.

(* ================================================================== *)
(** ** Regular expressions, run on sets of positions *)
(* ================================================================== *)

Module Regex.

Inductive re : Type :=
| Empty : re
| Eps : re
| Chr : (ascii -> bool) -> re
| Seq : re -> re -> re
| Alt : re -> re -> re
| Star : re -> re.

Definition plus (r : re) : re := Seq r (Star r).
Definition opt (r : re) : re := Alt Eps r.

(** A position in the subject is the suffix that remains to be read; a
    set of positions is a list without repetition. *)
Definition add (x : string) (l : list string) : list string :=
  if existsb (String.eqb x) l then l else x :: l.

Definition union (a b : list string) : list string := fold_right add b a.

Definition readChr (p : ascii -> bool) (s : string) : list string :=
  match s with
  | String c s' => if p c then [s'] else []
  | EmptyString => []
  end.

(** [iterate f n S] is [S] together with what [f] reaches from it in at
    most [n] rounds. *)
Fixpoint iterate (f : list string -> list string) (n : nat) (S : list string)
  : list string :=
  match n with
  | O => S
  | Datatypes.S n' => iterate f n' (union (f S) S)
  end.

Definition longest (S : list string) : nat :=
  fold_right Nat.max 0 (map String.length S).

(** [run r S]: the positions reached from a position of [S] by reading a
    word of [r].  A round of a [Star] that reaches a new position reads at
    least one character, so [longest S] rounds reach them all. *)
Fixpoint run (r : re) (S : list string) : list string :=
  match r with
  | Empty => []
  | Eps => S
  | Chr p => fold_right (fun s acc => union (readChr p s) acc) [] S
  | Seq a b => run b (run a S)
  | Alt a b => union (run a S) (run b S)
  | Star a => iterate (run a) (longest S) S
  end.

(** [/^r$/.test(s)] *)
Definition matches (r : re) (s : string) : bool :=
  existsb (String.eqb EmptyString) (run r [s]).

(** Some prefix of [s] is a word of [r]. *)
Definition prefixMatch (r : re) (s : string) : bool :=
  match run r [s] with
  | [] => false
  | _ :: _ => true
  end.

(** [/r/.test(s)]: some substring of [s] is a word of [r]. *)
Fixpoint search (r : re) (s : string) : bool :=
  prefixMatch r s ||
  match s with
  | EmptyString => false
  | String _ s' => search r s'
  end.

End Regex.

(* ================================================================== *)
(** ** backend/models/User.js: the schema of a user document *)
(* ================================================================== *)

Module UserModel.
Import Js Regex.

Definition ObjectId := N.

(** A persisted document of the [User] model ([timestamps: true]). *)
Record User : Type := mkUser {
  _id : ObjectId;
  name : string;
  email : string;
  age : option Z;
  city : option string;
  phone : option string;
  createdAt : Z;
  updatedAt : Z
}.

(** The object [{ name, email, age, city, phone }] built from [req.body];
    [None] is [undefined]. *)
Record Fields : Type := mkFields {
  f_name : option string;
  f_email : option string;
  f_age : option Z;
  f_city : option string;
  f_phone : option string
}.

(** *** Setters: [trim: true], [lowercase: true] *)

Definition setName (v : string) : string := trim v.
(** [lowercase] is declared before [trim] and runs first. *)
Definition setEmail (v : string) : string := trim (toLowerCase v).
Definition setCity (v : string) : string := trim v.
Definition setPhone (v : string) : string := trim v.

Definition applySetters (f : Fields) : Fields :=
  {| f_name := option_map setName (f_name f);
     f_email := option_map setEmail (f_email f);
     f_age := f_age f;
     f_city := option_map setCity (f_city f);
     f_phone := option_map setPhone (f_phone f) |}.

(** *** Validators *)

Definition isOneOf (l : list N) (c : ascii) : bool :=
  existsb (N.eqb (code c)) l.

(** [\w+([.-]?\w+)*] *)
Definition wordsRe : re :=
  Seq (plus (Chr isWord))
      (Star (Seq (opt (Chr (isOneOf [46; 45]%N))) (plus (Chr isWord)))).

(** [/^\w+([.-]?\w+)*@\w+([.-]?\w+)*(\.\w{2,3})+$/] *)
Definition emailRe : re :=
  Seq wordsRe
      (Seq (Chr (isOneOf [64]%N))
           (Seq wordsRe
                (plus (Seq (Chr (isOneOf [46]%N))
                           (Seq (Chr isWord)
                                (Seq (Chr isWord) (opt (Chr isWord)))))))).

(** [/^[0-9-+\s()]+$/] *)
Definition phoneRe : re :=
  plus (Chr (fun c => isDigit c || isOneOf [45; 43; 40; 41]%N c || isSpace c)).

(** The [match] validator passes on the empty string. *)
Definition matchValidator (r : re) (v : string) : bool :=
  if truthy v then matches r v else true.

(** Each function returns the message of the first failing validator of
    its path. *)
Definition validateName (v : option string) : option string :=
  match v with
  | None => Some "Name is required"
  | Some s =>
      if negb (truthy s) then Some "Name is required"
      else if Nat.ltb (length s) 2 then Some "Name must be at least 2 characters long"
      else if Nat.ltb 50 (length s) then Some "Name cannot exceed 50 characters"
      else None
  end.

Definition validateEmail (v : option string) : option string :=
  match v with
  | None => Some "Email is required"
  | Some s =>
      if negb (truthy s) then Some "Email is required"
      else if negb (matchValidator emailRe s) then Some "Please enter a valid email"
      else None
  end.

Definition validateAge (v : option Z) : option string :=
  match v with
  | None => None
  | Some n =>
      if (n <? 1)%Z then Some "Age must be at least 1"
      else if (150 <? n)%Z then Some "Age cannot exceed 150"
      else None
  end.

Definition validateCity (v : option string) : option string :=
  match v with
  | None => None
  | Some s =>
      if Nat.ltb 100 (length s) then Some "City name cannot exceed 100 characters"
      else None
  end.

Definition validatePhone (v : option string) : option string :=
  match v with
  | None => None
  | Some s =>
      if negb (matchValidator phoneRe s) then Some "Please enter a valid phone number"
      else None
  end.

Definition report (path : string) (r : option string) : list (string * string) :=
  match r with
  | Some msg => [(path, msg)]
  | None => []
  end.

(** Document validation, run by [save()] on every path. *)
Definition validateDoc (f : Fields) : list (string * string) :=
  report "name" (validateName (f_name f)) ++
  report "email" (validateEmail (f_email f)) ++
  report "age" (validateAge (f_age f)) ++
  report "city" (validateCity (f_city f)) ++
  report "phone" (validatePhone (f_phone f)).

Definition whenSet {A B : Type} (v : option A) (k : option A -> list B) : list B :=
  match v with
  | Some _ => k v
  | None => []
  end.

(** Update validation ([runValidators: true]): only the paths that the
    update sets are validated. *)
Definition validateUpdate (f : Fields) : list (string * string) :=
  whenSet (f_name f) (fun v => report "name" (validateName v)) ++
  whenSet (f_email f) (fun v => report "email" (validateEmail v)) ++
  whenSet (f_age f) (fun v => report "age" (validateAge v)) ++
  whenSet (f_city f) (fun v => report "city" (validateCity v)) ++
  whenSet (f_phone f) (fun v => report "phone" (validatePhone v)).

End UserModel.

(* ================================================================== *)
(** ** Mongoose: the operations of the [User] model used by the routes *)
(* ================================================================== *)

Module Mongoose.
Import Js Regex UserModel.

(** What a rejected operation carries; [error.message] is rendered from it
    by the library. *)
Inductive Error : Type :=
| CastError (value path : string)
  (** Cast to ObjectId failed for value [value] at path [path] *)
| ValidationError (header : string) (errors : list (string * string))
  (** [header]: path: message, ...  The failing paths are listed in the
      order of the schema; the order in which the library names them in
      its message is its own. *)
| DuplicateKeyError (key : string)
  (** E11000 duplicate key error, from the unique index on [email] *)
| MongoServerError (message : string).

Inductive result (A : Type) : Type :=
| Ok (a : A)
| Throw (e : Error).
Arguments Ok {A} a.
Arguments Throw {A} e.

(** The collection and the ObjectId generator of the process. *)
Record State : Type := mkState {
  users : list User;
  oidCounter : N
}.

Definition emptyState : State := {| users := []; oidCounter := 0 |}.

(** *** Casting a string to an ObjectId: 24 hexadecimal digits, or 12
    bytes. *)

Fixpoint hexValue (s : string) (acc : N) : option N :=
  match s with
  | EmptyString => Some acc
  | String c s' =>
      match digitVal 16 c with
      | Some d => hexValue s' (acc * 16 + d)%N
      | None => None
      end
  end.

Fixpoint bytesValue (s : string) (acc : N) : N :=
  match s with
  | EmptyString => acc
  | String c s' => bytesValue s' (acc * 256 + code c)%N
  end.

Definition castObjectId (s : string) : option ObjectId :=
  if Nat.eqb (length s) 24 then hexValue s 0
  else if Nat.eqb (length s) 12 then Some (bytesValue s 0)
  else None.

(** *** Queries *)

Definition hasId (oid : ObjectId) (d : User) : bool := N.eqb (_id d) oid.

(** [User.findOne({ email })].  The filter value goes through the setters
    of the path; a filter on [undefined] selects the documents without an
    email, and there is none. *)
Definition findOne_email (st : State) (e : option string) : option User :=
  match e with
  | Some s => find (fun d => String.eqb (email d) (setEmail s)) (users st)
  | None => None
  end.

(** [User.findOne({ email, _id: { $ne: id } })] *)
Definition findOne_email_ne (st : State) (e : string) (id : string)
  : result (option User) :=
  match castObjectId id with
  | None => Throw (CastError id "_id")
  | Some oid =>
      Ok (find (fun d => String.eqb (email d) (setEmail e) && negb (hasId oid d))
               (users st))
  end.

(** [User.findById(id)] *)
Definition findById (st : State) (id : string) : result (option User) :=
  match castObjectId id with
  | None => Throw (CastError id "_id")
  | Some oid => Ok (find (hasId oid) (users st))
  end.

(** [User.countDocuments()] *)
Definition countDocuments (st : State) : Z := Z.of_nat (List.length (users st)).

(** *** The order of a scan

    The server yields the documents of a collection in an order of its
    own, which may differ from one query to the next.  A scan is given by
    the positions at which the documents are taken, one after the other,
    from those that remain; the documents that are left when the
    positions run out follow in insertion order, so that the empty scan
    is the insertion order. *)
Definition Scan : Type := list nat.

(** The element at position [i], and the others. *)
Fixpoint takeAt {A : Type} (i : nat) (l : list A) {struct l}
  : option (A * list A) :=
  match l with
  | [] => None
  | x :: l' =>
      match i with
      | O => Some (x, l')
      | S i' =>
          match takeAt i' l' with
          | Some (y, rest) => Some (y, x :: rest)
          | None => None
          end
      end
  end.

(** A position beyond the end takes nothing. *)
Fixpoint scanned {A : Type} (order : Scan) (l : list A) : list A :=
  match order with
  | [] => l
  | i :: order' =>
      match takeAt i l with
      | Some (x, rest) => x :: scanned order' rest
      | None => scanned order' l
      end
  end.

(** [.sort({ createdAt: -1 })], newest first: the documents with the same
    [createdAt] stay in the order in which they come. *)
Fixpoint insertDesc (x : User) (l : list User) : list User :=
  match l with
  | [] => [x]
  | y :: l' =>
      if (createdAt x <? createdAt y)%Z then y :: insertDesc x l'
      else x :: l
  end.

Definition sortDesc (l : list User) : list User := fold_right insertDesc [] l.

(** [User.find().skip(skip).limit(limit).sort({ createdAt: -1 })]: the
    sort is applied first whatever the order of the calls, to the
    documents as the scan of this query yields them.  The server rejects a
    negative skip; a limit of zero is no limit and a negative one is its
    absolute value. *)
Definition find_skip_limit_sort (st : State) (order : Scan) (skip limit : Z)
  : result (list User) :=
  if (skip <? 0)%Z then Throw (MongoServerError "Skip value must be non-negative")
  else
    let sorted := skipn (Z.to_nat skip) (sortDesc (scanned order (users st))) in
    Ok (if (limit =? 0)%Z then sorted else firstn (Z.to_nat (Z.abs limit)) sorted).

(** *** Writes *)

(** [new User(fields)]: the setters run and the [_id] is drawn. *)
Definition newUser (st : State) (f : Fields) : (ObjectId * Fields) * State :=
  ((oidCounter st, applySetters f),
   {| users := users st; oidCounter := (oidCounter st + 1)%N |}).

Definition emailTaken (st : State) (except : ObjectId) (e : string) : bool :=
  existsb (fun d => String.eqb (email d) e && negb (hasId except d)) (users st).

(** [user.save()] of a new document at time [now]: validation, then the
    insertion, which the unique index on [email] may refuse. *)
Definition save (st : State) (now : Z) (doc : ObjectId * Fields)
  : result (User * State) :=
  let '(oid, f) := doc in
  match validateDoc f, f_name f, f_email f with
  | [], Some n, Some e =>
      if emailTaken st oid e then Throw (DuplicateKeyError "email")
      else
        let u := {| _id := oid; name := n; email := e; age := f_age f;
                    city := f_city f; phone := f_phone f;
                    createdAt := now; updatedAt := now |} in
        Ok (u, {| users := users st ++ [u]; oidCounter := oidCounter st |})
  | errors, _, _ => Throw (ValidationError "User validation failed" errors)
  end.

Definition orKeep {A : Type} (v : option A) (old : A) : A :=
  match v with
  | Some x => x
  | None => old
  end.

Definition orKeepOpt {A : Type} (v : option A) (old : option A) : option A :=
  match v with
  | Some x => Some x
  | None => old
  end.

(** The [$set] of the paths present in [f], with [updatedAt]. *)
Definition applyUpdate (now : Z) (f : Fields) (d : User) : User :=
  {| _id := _id d;
     name := orKeep (f_name f) (name d);
     email := orKeep (f_email f) (email d);
     age := orKeepOpt (f_age f) (age d);
     city := orKeepOpt (f_city f) (city d);
     phone := orKeepOpt (f_phone f) (phone d);
     createdAt := createdAt d;
     updatedAt := now |}.

Definition replaceDoc (u : User) (l : list User) : list User :=
  map (fun d => if hasId (_id u) d then u else d) l.

(** [User.findByIdAndUpdate(id, fields, { new: true, runValidators: true })] *)
Definition findByIdAndUpdate (st : State) (now : Z) (id : string) (f : Fields)
  : result (option User * State) :=
  match castObjectId id with
  | None => Throw (CastError id "_id")
  | Some oid =>
      let f' := applySetters f in
      match validateUpdate f' with
      | (_ :: _) as errors => Throw (ValidationError "Validation failed" errors)
      | [] =>
          match find (hasId oid) (users st) with
          | None => Ok (None, st)
          | Some d =>
              let u := applyUpdate now f' d in
              if emailTaken st oid (email u) then Throw (DuplicateKeyError "email")
              else Ok (Some u, {| users := replaceDoc u (users st);
                                  oidCounter := oidCounter st |})
          end
      end
  end.

Definition removeDoc (oid : ObjectId) (l : list User) : list User :=
  filter (fun d => negb (hasId oid d)) l.

(** [User.findByIdAndDelete(id)] *)
Definition findByIdAndDelete (st : State) (id : string)
  : result (option User * State) :=
  match castObjectId id with
  | None => Throw (CastError id "_id")
  | Some oid =>
      match find (hasId oid) (users st) with
      | None => Ok (None, st)
      | Some d => Ok (Some d, {| users := removeDoc oid (users st);
                                 oidCounter := oidCounter st |})
      end
  end.

(** *** [$regex] with [$options: "i"]

    The pattern language is the server's (PCRE).  The embedding covers the
    patterns made of ordinary characters and of the dot; [compileI]
    answers [None] on a pattern that uses another metacharacter. *)

Definition isMeta (c : ascii) : bool :=
  isOneOf [92; 94; 36; 46; 91; 93; 124; 40; 41; 63; 42; 43; 123; 125]%N c.

Definition sameLetter (c d : ascii) : bool :=
  N.eqb (code (lowerChar c)) (code (lowerChar d)).

Definition notNewline (c : ascii) : bool := negb (N.eqb (code c) 10).

Fixpoint compileI (pattern : string) : option re :=
  match pattern with
  | EmptyString => Some Eps
  | String c p' =>
      match compileI p' with
      | None => None
      | Some r =>
          if N.eqb (code c) 46 then Some (Seq (Chr notNewline) r)
          else if isMeta c then None
          else Some (Seq (Chr (sameLetter c)) r)
      end
  end.

(** [User.find({ $or: [{ name: { $regex, $options: "i" } },
                        { email: { $regex, $options: "i" } }] })
         .sort({ createdAt: -1 })] *)
Definition find_regex_sort (st : State) (order : Scan) (pattern : string)
  : option (list User) :=
  match compileI pattern with
  | None => None
  | Some r =>
      Some (sortDesc (filter (fun d => search r (name d) || search r (email d))
                             (scanned order (users st))))
  end.

End Mongoose.

(* ================================================================== *)
(** ** Express: how a request selects routes and mounted middleware *)
(* ================================================================== *)

Module Express.

Inductive Method : Type :=
| GET | HEAD | POST | PUT | DELETE | PATCH | OPTIONS
| OTHER (name : string).
  (** another method of HTTP: [TRACE], [CONNECT], ... *)

(** What the body parsers, [express.json()] and [express.urlencoded()],
    make of the body of a request. *)
Inductive Payload : Type :=
| NoBody
  (** no body, or one whose content type is none of theirs: the request
      goes on as it is *)
| Parsed
  (** a body that one of them read into [req.body] *)
| Unparsable.
  (** malformed JSON, an unsupported charset or encoding, a body over the
      limit: the parser passes an error on *)

(** [path] is the URL without its query string. *)
Record Request : Type := mkRequestWith {
  method : Method;
  path : string;
  payload : Payload
}.

(** A request without a body. *)
Definition mkRequest (m : Method) (p : string) : Request :=
  mkRequestWith m p NoBody.

(** [app.get] serves [GET] and, without a handler of its own, [HEAD]. *)
Definition isGet (m : Method) : bool :=
  match m with
  | GET | HEAD => true
  | _ => false
  end.

Definition isPost (m : Method) : bool :=
  match m with POST => true | _ => false end.

Definition isPut (m : Method) : bool :=
  match m with PUT => true | _ => false end.

Definition isDelete (m : Method) : bool :=
  match m with DELETE => true | _ => false end.

Definition isOptions (m : Method) : bool :=
  match m with OPTIONS => true | _ => false end.

(** A route path matches the whole request path, letters compared without
    case and one trailing slash allowed. *)
Definition routeMatches (route : string) (p : string) : bool :=
  let p' := Js.toLowerCase p in
  String.eqb p' route || String.eqb p' (route ++ "/").

(** A mount path matches a prefix of the request path that ends at the end
    of the path or before a slash. *)
Definition mountMatches (mount : string) (p : string) : bool :=
  let p' := Js.toLowerCase p in
  String.prefix mount p' &&
  match String.get (String.length mount) p' with
  | None => true
  | Some c => Ascii.eqb c "/"
  end.

(** *** Route paths with parameters

    The strings between the slashes of a path: ["/search/jo"] gives the
    empty string, [search] and [jo]. *)
Fixpoint splitPath (p : string) : list string :=
  match p with
  | EmptyString => [EmptyString]
  | String c p' =>
      if Ascii.eqb c "/" then EmptyString :: splitPath p'
      else
        match splitPath p' with
        | s :: l => String c s :: l
        | [] => [String c EmptyString]
        end
  end.

(** One trailing slash is allowed: the empty string that it leaves at the
    end is dropped. *)
Fixpoint dropTrailing (l : list string) : list string :=
  match l with
  | [] => []
  | [EmptyString] => []
  | s :: l' => s :: dropTrailing l'
  end.

(** The segments of a path below a mount; the path starts with a slash,
    or is empty when the request is for the mount itself. *)
Definition segments (p : string) : option (list string) :=
  match splitPath p with
  | EmptyString :: l => Some (dropTrailing l)
  | _ => None
  end.

(** [decodeURIComponent], which the router applies to a parameter: an
    escape [%XY] stands for the character with the hexadecimal code XY.
    The function throws when an escape is malformed.  A code from 128 on
    belongs to a character that is not ASCII: the embedding does not say
    what becomes of it. *)
Inductive Decoding : Type :=
| Decoded (v : string)
| Malformed
| NotAscii.

Definition prepend (c : ascii) (d : Decoding) : Decoding :=
  match d with
  | Decoded t => Decoded (String c t)
  | other => other
  end.

Fixpoint decodeParam (s : string) : Decoding :=
  match s with
  | EmptyString => Decoded EmptyString
  | String c s' =>
      if Ascii.eqb c "%" then
        match s' with
        | String h1 (String h2 rest) =>
            match Js.digitVal 16 h1, Js.digitVal 16 h2 with
            | Some a, Some b =>
                if N.ltb (a * 16 + b) 128
                then prepend (ascii_of_N (a * 16 + b)) (decodeParam rest)
                else NotAscii
            | _, _ => Malformed
            end
        | _ => Malformed
        end
      else if N.ltb (Js.code c) 128 then prepend c (decodeParam s')
      else NotAscii
  end.

(** What the path of a route makes of the path of a request. *)
Inductive Matching (A : Type) : Type :=
| NoMatch
| Matches (a : A)
| BadEscape
  (** the path matches, and a parameter holds a malformed escape *)
| Beyond.
  (** the path matches, and a parameter is not ASCII *)
Arguments NoMatch {A}.
Arguments Matches {A} a.
Arguments BadEscape {A}.
Arguments Beyond {A}.

(** The route path ["/"]. *)
Definition atRoot {A : Type} (route : A) (segs : option (list string)) : Matching A :=
  match segs with
  | Some [] => Matches route
  | _ => NoMatch
  end.

Definition withParam {A : Type} (route : string -> A) (raw : string) : Matching A :=
  match decodeParam raw with
  | Decoded v => Matches (route v)
  | Malformed => BadEscape
  | NotAscii => Beyond
  end.

(** A route path ["/:param"]: a parameter is one segment that is not
    empty. *)
Definition atParam {A : Type} (route : string -> A) (segs : option (list string))
  : Matching A :=
  match segs with
  | Some [String c s] => withParam route (String c s)
  | _ => NoMatch
  end.

(** A route path ["/word/:param"]. *)
Definition atWordParam {A : Type} (word : string) (route : string -> A)
           (segs : option (list string)) : Matching A :=
  match segs with
  | Some [w; String c s] =>
      if String.eqb (Js.toLowerCase w) word then withParam route (String c s)
      else NoMatch
  | _ => NoMatch
  end.

(** The routes are tried in the order of their registration, each one
    given with what its method and its path make of the request.  A
    route whose path matches serves the request when the method is its
    own.  A malformed escape in a route whose path matches is an error,
    whatever the method of the route, and no later route is tried; a
    parameter that is not ASCII is beyond the embedding. *)
Fixpoint firstMatch {A : Type} (none failed beyond : A)
         (l : list (bool * Matching A)) : A :=
  match l with
  | [] => none
  | (_, BadEscape) :: _ => failed
  | (_, Beyond) :: _ => beyond
  | (true, Matches a) :: _ => a
  | _ :: l' => firstMatch none failed beyond l'
  end.

End Express.

(* ================================================================== *)
(** ** backend/routes/users.js *)
(* ================================================================== *)

Module Users.
Import Js UserModel Mongoose Express.

(** The value of the [error] key of an error body. *)
Inductive ErrorText : Type :=
| Text (s : string)
| MessageOf (e : Error).

Inductive Body : Type :=
| ErrorBody (error : ErrorText)
| MessageUserBody (message : string) (user : User)
| UserBody (user : User)
| PageBody (users : list User) (currentPage totalPages totalUsers : Z)
| UsersBody (users : list User)
| NotServed.
  (** no route of the router matched *)

Record Response : Type := mkResponse {
  status : Z;
  body : Body
}.

Definition duplicateEmail : Response :=
  mkResponse 400 (ErrorBody (Text "User with this email already exists")).

Definition notFound : Response :=
  mkResponse 404 (ErrorBody (Text "User not found")).

(** [router.post("/")] *)
Definition post_users (st : State) (now : Z) (b : Fields) : State * Response :=
  match findOne_email st (f_email b) with
  | Some _ => (st, duplicateEmail)
  | None =>
      let '(user, st1) := newUser st b in
      match save st1 now user with
      | Ok (savedUser, st2) =>
          (st2, mkResponse 201 (MessageUserBody "User created successfully" savedUser))
      | Throw e => (st1, mkResponse 400 (ErrorBody (MessageOf e)))
      end
  end.

(** The query string of [GET /]: [req.query.page], [req.query.limit]. *)
Record Query : Type := mkQuery {
  q_page : option string;
  q_limit : option string
}.

Definition pageOf (q : Query) : Z := orDefault (parseIntParam (q_page q)) 1.
Definition limitOf (q : Query) : Z := orDefault (parseIntParam (q_limit q)) 10.
Definition skipOf (q : Query) : Z := ((pageOf q - 1) * limitOf q)%Z.

(** The body of [router.get("/")] once [page] and [limit] are known;
    [order] is the scan of its query. *)
Definition list_users (st : State) (order : Scan) (page limit : Z) : Response :=
  let skip := ((page - 1) * limit)%Z in
  match find_skip_limit_sort st order skip limit with
  | Ok found =>
      let total := countDocuments st in
      mkResponse 200 (PageBody found page (ceilDiv total limit) total)
  | Throw e => mkResponse 500 (ErrorBody (MessageOf e))
  end.

(** [router.get("/")] *)
Definition get_users (st : State) (order : Scan) (q : Query) : Response :=
  list_users st order (pageOf q) (limitOf q).

(** [router.get("/:id")] *)
Definition get_user (st : State) (id : string) : Response :=
  match findById st id with
  | Ok (Some user) => mkResponse 200 (UserBody user)
  | Ok None => notFound
  | Throw e => mkResponse 500 (ErrorBody (MessageOf e))
  end.

(** [router.put("/:id")] *)
Definition put_user (st : State) (now : Z) (id : string) (b : Fields)
  : State * Response :=
  let existingUser :=
    match f_email b with
    | Some e => if truthy e then findOne_email_ne st e id else Ok None
    | None => Ok None
    end in
  match existingUser with
  | Throw e => (st, mkResponse 400 (ErrorBody (MessageOf e)))
  | Ok (Some _) => (st, duplicateEmail)
  | Ok None =>
      match findByIdAndUpdate st now id b with
      | Throw e => (st, mkResponse 400 (ErrorBody (MessageOf e)))
      | Ok (None, _) => (st, notFound)
      | Ok (Some user, st') =>
          (st', mkResponse 200 (MessageUserBody "User updated successfully" user))
      end
  end.

(** [router.delete("/:id")] *)
Definition delete_user (st : State) (id : string) : State * Response :=
  match findByIdAndDelete st id with
  | Throw e => (st, mkResponse 500 (ErrorBody (MessageOf e)))
  | Ok (None, _) => (st, notFound)
  | Ok (Some user, st') =>
      (st', mkResponse 200 (MessageUserBody "User deleted successfully" user))
  end.

(** [router.get("/search/:query")], on the patterns that [compileI]
    covers; [order] is the scan of its query. *)
Definition search_users (st : State) (order : Scan) (query : string)
  : option Response :=
  match find_regex_sort st order query with
  | Some found => Some (mkResponse 200 (UsersBody found))
  | None => None
  end.

(** *** The router *)

Inductive Route : Type :=
| CreateUser
| ListUsers
| ReadUser (id : string)
| UpdateUser (id : string)
| DeleteUser (id : string)
| SearchUsers (query : string)
| NoRoute
| BadParameter
  (** a malformed escape in a parameter *)
| Uncovered.
  (** a parameter that is not ASCII *)

(** The route that serves a request with method [m] and path [p] below
    the mount: the first one, in the order of the file, whose method and
    path match. *)
Definition dispatch (m : Method) (p : string) : Route :=
  let segs := segments p in
  firstMatch NoRoute BadParameter Uncovered
    [ (isPost m, atRoot CreateUser segs);
        (* router.post("/") *)
      (isGet m, atRoot ListUsers segs);
        (* router.get("/") *)
      (isGet m, atParam ReadUser segs);
        (* router.get("/:id") *)
      (isPut m, atParam UpdateUser segs);
        (* router.put("/:id") *)
      (isDelete m, atParam DeleteUser segs);
        (* router.delete("/:id") *)
      (isGet m, atWordParam "search" SearchUsers segs)
        (* router.get("/search/:query") *) ].

(** The router, for a request that the middleware of the application has
    passed on ([cors()] has answered the [OPTIONS] requests before): [q]
    is [req.query] and [b] what the handlers read from [req.body].  A
    request that no route serves is answered 404 by the application, and
    the error of a malformed escape goes to its error-handling
    middleware.  The answer is [None] where the embedding does not reach:
    for a parameter that is not ASCII and for a search pattern outside
    what [compileI] covers. *)
Definition router (st : State) (now : Z) (order : Scan)
           (m : Method) (p : string) (q : Query) (b : Fields)
  : option (State * Response) :=
  match dispatch m p with
  | CreateUser => Some (post_users st now b)
  | ListUsers => Some (st, get_users st order q)
  | ReadUser id => Some (st, get_user st id)
  | UpdateUser id => Some (put_user st now id b)
  | DeleteUser id => Some (delete_user st id)
  | SearchUsers query =>
      match search_users st order query with
      | Some resp => Some (st, resp)
      | None => None
      end
  | NoRoute => Some (st, mkResponse 404 NotServed)
  | BadParameter => Some (st, mkResponse 500 (ErrorBody (Text "Internal Server Error")))
  | Uncovered => None
  end.

End Users.

(* ================================================================== *)
(** ** backend/utils/healthCheck.js *)
(* ================================================================== *)

Module HealthCheck.

(** What a call into the runtime or the driver does: it returns, or it
    throws an error with a message. *)
Inductive outcome (A : Type) : Type :=
| Returns (a : A)
| Raises (message : string).
Arguments Returns {A} a.
Arguments Raises {A} message.

(** [mongoose.connection] during one request.  [ping] is what
    [connection.db.admin().ping()] does, with the milliseconds it takes. *)
Record Connection : Type := mkConnection {
  readyState : Z;
  ping : outcome Z;
  conn_name : string;
  conn_host : string;
  conn_port : Z
}.

Record MemoryUsage : Type := mkMemoryUsage {
  rss : Z;
  heapTotal : Z;
  heapUsed : Z;
  external : Z
}.

Record CpuUsage : Type := mkCpuUsage {
  cpu_user : Z;
  cpu_system : Z
}.

(** [process] and the clock during one request.  Numbers are carried as
    they are read. *)
Record Process : Type := mkProcess {
  now : Z;
  uptime : Z;
  memoryUsage : outcome MemoryUsage;
  cpuUsage : outcome CpuUsage;
  nodeVersion : string;
  platform : string;
  arch : string;
  pid : Z;
  npm_package_version : option string;
  NODE_ENV : option string;
  PORT : option string
}.

(** The variables of the module: [healthCheckCount], [lastHealthCheck],
    [startTime]. *)
Record Counters : Type := mkCounters {
  healthCheckCount : N;
  lastHealthCheck : option Z;
  startTime : Z
}.

(** The state of the module when it is loaded at time [t]. *)
Definition initial (t : Z) : Counters :=
  {| healthCheckCount := 0; lastHealthCheck := None; startTime := t |}.

Definition incrementHealthCheckCount (p : Process) (c : Counters) : Counters :=
  {| healthCheckCount := healthCheckCount c + 1;
     lastHealthCheck := Some (now p);
     startTime := startTime c |}.

Definition orElse (v : option string) (d : string) : string :=
  match v with
  | Some s => if Js.truthy s then s else d
  | None => d
  end.

Record BasicHealth : Type := mkBasicHealth {
  basic_status : string;
  basic_timestamp : Z;
  basic_uptime : Z;
  basic_message : string;
  basic_version : string
}.

Definition getBasicHealth (p : Process) : BasicHealth :=
  {| basic_status := "OK";
     basic_timestamp := now p;
     basic_uptime := uptime p;
     basic_message := "Server is healthy";
     basic_version := orElse (npm_package_version p) "1.0.0" |}.

Record DbInfo : Type := mkDbInfo {
  db_name : string;
  db_host : string;
  db_port : Z;
  db_responseTime : Z
}.

Record DbCheck : Type := mkDbCheck {
  db_status : string;
  db_state : option string;
  db_info : option DbInfo;
  db_error : option string
}.

(** The table [states], indexed by [readyState]. *)
Definition states (dbState : Z) : option string :=
  match dbState with
  | 0%Z => Some "disconnected"
  | 1%Z => Some "connected"
  | 2%Z => Some "connecting"
  | 3%Z => Some "disconnecting"
  | _ => None
  end.

Definition checkDatabase (c : Connection) : DbCheck :=
  if (readyState c =? 1)%Z then
    match ping c with
    | Returns responseTime =>
        {| db_status := "OK";
           db_state := states (readyState c);
           db_info := Some {| db_name := conn_name c; db_host := conn_host c;
                              db_port := conn_port c;
                              db_responseTime := responseTime |};
           db_error := None |}
    | Raises message =>
        {| db_status := "ERROR"; db_state := None; db_info := None;
           db_error := Some message |}
    end
  else
    {| db_status := "ERROR";
       db_state := states (readyState c);
       db_info := None;
       db_error := Some "Database is not connected" |}.

Record SystemInfo : Type := mkSystemInfo {
  sys_nodeVersion : string;
  sys_platform : string;
  sys_architecture : string;
  sys_uptime : Z;
  sys_pid : Z;
  sys_startTime : Z
}.

(** The [memory] figures are kept in bytes: the conversion to megabytes
    with two decimals is a formatting of floating-point numbers. *)
Record SystemMetrics : Type := mkSystemMetrics {
  system : SystemInfo;
  memory : MemoryUsage;
  cpu : CpuUsage
}.

Definition getSystemMetrics (p : Process) (k : Counters) : outcome SystemMetrics :=
  match memoryUsage p with
  | Raises m => Raises m
  | Returns mem =>
      match cpuUsage p with
      | Raises m => Raises m
      | Returns cpuTimes =>
          Returns
            {| system := {| sys_nodeVersion := nodeVersion p;
                            sys_platform := platform p;
                            sys_architecture := arch p;
                            sys_uptime := uptime p;
                            sys_pid := pid p;
                            sys_startTime := startTime k |};
               memory := mem;
               cpu := cpuTimes |}
      end
  end.

Record DetailedHealth : Type := mkDetailedHealth {
  det_status : string;
  det_timestamp : Z;
  det_uptime : Z;
  det_version : string;
  det_environment : string;
  det_port : string;
  det_healthCheckCount : N;
  det_lastHealthCheck : option Z;
  det_server : string;
  det_database : DbCheck;
  det_memory : MemoryUsage;
  det_system : SystemInfo
}.

Definition getDetailedHealth (c : Connection) (p : Process) (k : Counters)
  : outcome DetailedHealth :=
  let dbCheck := checkDatabase c in
  match getSystemMetrics p k with
  | Raises m => Raises m
  | Returns systemMetrics =>
      Returns
        {| det_status := if String.eqb (db_status dbCheck) "OK" then "OK" else "ERROR";
           det_timestamp := now p;
           det_uptime := uptime p;
           det_version := orElse (npm_package_version p) "1.0.0";
           det_environment := orElse (NODE_ENV p) "development";
           det_port := orElse (PORT p) "5000";
           det_healthCheckCount := healthCheckCount k;
           det_lastHealthCheck := lastHealthCheck k;
           det_server := "OK";
           det_database := dbCheck;
           det_memory := memory systemMetrics;
           det_system := system systemMetrics |}
  end.

Record Readiness : Type := mkReadiness {
  ready_status : string;
  ready_message : string;
  ready_error : option string;
  ready_timestamp : Z
}.

Definition checkReadiness (c : Connection) (p : Process) : Readiness :=
  if (readyState c =? 1)%Z then
    match ping c with
    | Returns _ =>
        {| ready_status := "READY";
           ready_message := "Application is ready to serve traffic";
           ready_error := None;
           ready_timestamp := now p |}
    | Raises message =>
        {| ready_status := "NOT_READY";
           ready_message := "Application not ready";
           ready_error := Some message;
           ready_timestamp := now p |}
    end
  else
    {| ready_status := "NOT_READY";
       ready_message := "Database connection not ready";
       ready_error := None;
       ready_timestamp := now p |}.

Record Liveness : Type := mkLiveness {
  live_status : string;
  live_message : string;
  live_timestamp : Z;
  live_uptime : Z
}.

Definition checkLiveness (p : Process) : Liveness :=
  {| live_status := "ALIVE";
     live_message := "Application is alive";
     live_timestamp := now p;
     live_uptime := uptime p |}.

End HealthCheck.

(* ================================================================== *)
(** ** backend/server.js *)
(* ================================================================== *)

Module Server.
Import HealthCheck Express.

Record Checks : Type := mkChecks {
  chk_basic : BasicHealth;
  chk_detailed : DetailedHealth;
  chk_database : DbCheck;
  chk_readiness : Readiness;
  chk_liveness : Liveness;
  chk_metrics : SystemMetrics
}.

Inductive Body : Type :=
| BasicBody (health : BasicHealth)
| PongBody (timestamp : Z)
| DetailedBody (health : DetailedHealth)
| DetailedFailedBody (error : string) (timestamp : Z)
| DatabaseBody (status : string) (database : DbCheck) (timestamp : Z)
| ReadinessBody (readiness : Readiness)
| LivenessBody (liveness : Liveness)
| MetricsBody (metrics : SystemMetrics) (timestamp : Z)
| DashboardBody (overall_status : string) (timestamp : Z) (checks : Checks)
| DashboardFailedBody (overall_status : string) (error : string) (timestamp : Z)
| WelcomeBody
| UsersRouter
  (** the request is handed to [routes/users.js] *)
| InternalServerError
  (** the error-handling middleware *)
| CannotRoute
  (** no route matched *)
| NoContent.
  (** the answer of [cors()] to an [OPTIONS] request *)

Record Response : Type := mkResponse {
  status : Z;
  body : Body
}.

(** [app.get("/health")] *)
Definition health (p : Process) : Response :=
  mkResponse 200 (BasicBody (getBasicHealth p)).

(** [app.get("/ping")] *)
Definition pong (p : Process) : Response :=
  mkResponse 200 (PongBody (now p)).

(** [app.get("/health/detailed")] *)
Definition health_detailed (c : Connection) (p : Process) (k : Counters) : Response :=
  match getDetailedHealth c p k with
  | Returns h =>
      mkResponse (if String.eqb (det_status h) "OK" then 200 else 503) (DetailedBody h)
  | Raises m => mkResponse 503 (DetailedFailedBody m (now p))
  end.

(** [app.get("/health/database")] *)
Definition health_database (c : Connection) (p : Process) : Response :=
  let dbCheck := checkDatabase c in
  mkResponse (if String.eqb (db_status dbCheck) "OK" then 200 else 503)
             (DatabaseBody (db_status dbCheck) dbCheck (now p)).

(** [app.get("/ready")] *)
Definition ready (c : Connection) (p : Process) : Response :=
  let readiness := checkReadiness c p in
  mkResponse (if String.eqb (ready_status readiness) "READY" then 200 else 503)
             (ReadinessBody readiness).

(** [app.get("/alive")] *)
Definition alive (p : Process) : Response :=
  mkResponse 200 (LivenessBody (checkLiveness p)).

(** [app.get("/metrics")]: the handler has no [try]; an error goes to the
    error-handling middleware. *)
Definition metrics (p : Process) (k : Counters) : Response :=
  match getSystemMetrics p k with
  | Returns m => mkResponse 200 (MetricsBody m (now p))
  | Raises _ => mkResponse 500 InternalServerError
  end.

(** [app.get("/health/dashboard")]: the six results are awaited together
    by one [Promise.all] inside one [try]. *)
Definition health_dashboard (c : Connection) (p : Process) (k : Counters) : Response :=
  let basicHealth := getBasicHealth p in
  let dbCheck := checkDatabase c in
  let readiness := checkReadiness c p in
  let liveness := checkLiveness p in
  match getSystemMetrics p k, getDetailedHealth c p k with
  | Returns systemMetrics, Returns detailedHealth =>
      mkResponse 200
        (DashboardBody (det_status detailedHealth) (now p)
           {| chk_basic := basicHealth;
              chk_detailed := detailedHealth;
              chk_database := dbCheck;
              chk_readiness := readiness;
              chk_liveness := liveness;
              chk_metrics := systemMetrics |})
  | Raises m, _ => mkResponse 500 (DashboardFailedBody "ERROR" m (now p))
  | _, Raises m => mkResponse 500 (DashboardFailedBody "ERROR" m (now p))
  end.

(** [app.use(cors())], the first middleware: it answers a request with
    method [OPTIONS] itself, 204 without content, and passes every other
    request on. *)
Definition answeredByCors (r : Request) : bool := isOptions (method r).

(** [app.use(express.json())] and [app.use(express.urlencoded(...))]: a
    body that they cannot read goes, as an error, to the error-handling
    middleware at the end of the file. *)
Definition refusedByParsers (r : Request) : bool :=
  match payload r with
  | Unparsable => true
  | _ => false
  end.

(** The request gets as far as the middleware and the routes that come
    after the body parsers (the logging middleware passes every request
    on). *)
Definition passedOn (r : Request) : bool :=
  negb (answeredByCors r) && negb (refusedByParsers r).

(** The middleware mounted with [app.use("/health", ...)]. *)
Definition healthCounter (p : Process) (k : Counters) (r : Request) : Counters :=
  if mountMatches "/health" (path r) then incrementHealthCheckCount p k else k.

(** The routes, in the order of their registration. *)
Definition route (c : Connection) (p : Process) (k : Counters) (r : Request)
  : Response :=
  let get r' := isGet (method r) && routeMatches r' (path r) in
  if get "/health" then health p
  else if get "/ping" then pong p
  else if get "/health/detailed" then health_detailed c p k
  else if get "/health/database" then health_database c p
  else if get "/ready" then ready c p
  else if get "/alive" then alive p
  else if get "/metrics" then metrics p k
  else if get "/health/dashboard" then health_dashboard c p k
  else if mountMatches "/api/users" (path r) then mkResponse 200 UsersRouter
  else if isGet (method r) && String.eqb (path r) "/" then mkResponse 200 WelcomeBody
  else mkResponse 404 CannotRoute.

(** One request through the application: the middleware in the order of
    the file, then the routes. *)
Definition serve (k : Counters) (c : Connection) (p : Process) (r : Request)
  : Counters * Response :=
  if answeredByCors r then (k, mkResponse 204 NoContent)
  else if refusedByParsers r then (k, mkResponse 500 InternalServerError)
  else
    let k' := healthCounter p k r in
    (k', route c p k' r).

(** What the process meets: requests, each with the connection and the
    process as they are when it is served. *)
Definition Event : Type := (Connection * Process * Request)%type.

Fixpoint serveAll (k : Counters) (events : list Event) : Counters * list Response :=
  match events with
  | [] => (k, [])
  | (c, p, r) :: rest =>
      let '(k1, resp) := serve k c p r in
      let '(k2, resps) := serveAll k1 rest in
      (k2, resp :: resps)
  end.

Definition isBasicCheck (resp : Response) : bool :=
  match body resp with
  | BasicBody _ => true
  | _ => false
  end.

(** The number of basic-health checks among the responses served. *)
Definition basicChecksServed (resps : list Response) : N :=
  N.of_nat (List.length (filter isBasicCheck resps)).

End Server.

(* ================================================================== *)
(** ** Notions used to state the properties *)
(* ================================================================== *)

Module Notions.
Import Js UserModel Mongoose.

(** A string that is empty or starts with a character that is not white
    space. *)
Definition startsClean (s : string) : Prop :=
  match s with
  | EmptyString => True
  | String c _ => isSpace c = false
  end.

(** What holds of every state that the routes produce: stored addresses
    are in stored form and not empty, identifiers are distinct and were
    drawn from the generator. *)
Record store_ok (st : State) : Prop := mkStoreOk {
  ok_email_stored : forall d, In d (users st) -> setEmail (email d) = email d;
  ok_email_present : forall d, In d (users st) -> email d <> EmptyString;
  ok_ids_drawn : forall d, In d (users st) -> (_id d < oidCounter st)%N;
  ok_ids_distinct : NoDup (map _id (users st))
}.

(** The states that the routes produce from the empty collection. *)
Inductive reachable : State -> Prop :=
| reach_empty : reachable emptyState
| reach_post (st : State) (now : Z) (b : Fields) :
    reachable st -> reachable (fst (Users.post_users st now b))
| reach_put (st : State) (now : Z) (id : string) (b : Fields) :
    reachable st -> reachable (fst (Users.put_user st now id b))
| reach_delete (st : State) (id : string) :
    reachable st -> reachable (fst (Users.delete_user st id)).

(** Newest first. *)
Definition newerOrSame (a b : User) : Prop := (createdAt b <= createdAt a)%Z.

(** [q] occurs in [s] when letters are compared without case: the words of
    the specification, on lower-cased strings. *)
Definition ContainsI (q s : string) : Prop :=
  exists pre post, toLowerCase s = pre ++ toLowerCase q ++ post.

(** The same, computed: [q] is read at some position of [s]. *)
Fixpoint startsWithI (q s : string) : bool :=
  match q, s with
  | EmptyString, _ => true
  | String _ _, EmptyString => false
  | String a q', String b s' =>
      Ascii.eqb (lowerChar a) (lowerChar b) && startsWithI q' s'
  end.

Fixpoint containsI (q s : string) : bool :=
  startsWithI q s ||
  match s with
  | EmptyString => false
  | String _ s' => containsI q s'
  end.

(** The words of a regular expression. *)
Inductive Lang : Regex.re -> string -> Prop :=
| LangEps : Lang Regex.Eps EmptyString
| LangChr (p : ascii -> bool) (c : ascii) :
    p c = true -> Lang (Regex.Chr p) (String c EmptyString)
| LangSeq (a b : Regex.re) (u v : string) :
    Lang a u -> Lang b v -> Lang (Regex.Seq a b) (u ++ v)
| LangAltL (a b : Regex.re) (u : string) :
    Lang a u -> Lang (Regex.Alt a b) u
| LangAltR (a b : Regex.re) (u : string) :
    Lang b u -> Lang (Regex.Alt a b) u
| LangStarNil (a : Regex.re) : Lang (Regex.Star a) EmptyString
| LangStarCons (a : Regex.re) (u v : string) :
    Lang a u -> Lang (Regex.Star a) v -> Lang (Regex.Star a) (u ++ v).

(** At most [n] words of [a], one after the other. *)
Fixpoint StarN (a : Regex.re) (n : nat) (w : string) : Prop :=
  match n with
  | O => w = EmptyString
  | S n' => StarN a n' w \/ exists u v, Lang a u /\ StarN a n' v /\ w = u ++ v
  end.

(** The position [s'] is reached from a position of [S] by reading a word
    of [r]. *)
Definition Reaches (r : Regex.re) (S : list string) (s' : string) : Prop :=
  exists s w, In s S /\ Lang r w /\ s = w ++ s'.

(** The expression that reads the characters of [q], letters compared
    without case. *)
Fixpoint literalI (q : string) : Regex.re :=
  match q with
  | EmptyString => Regex.Eps
  | String c q' => Regex.Seq (Regex.Chr (sameLetter c)) (literalI q')
  end.

(** A pattern without metacharacters. *)
Fixpoint plain (q : string) : bool :=
  match q with
  | EmptyString => true
  | String c q' => negb (isMeta c) && plain q'
  end.

(** A string without slash. *)
Fixpoint noSlash (s : string) : bool :=
  match s with
  | EmptyString => true
  | String c s' => negb (Ascii.eqb c "/") && noSlash s'
  end.

(** A string of ASCII characters without percent sign: it holds no
    escape. *)
Fixpoint noEscape (s : string) : bool :=
  match s with
  | EmptyString => true
  | String c s' => negb (Ascii.eqb c "%") && N.ltb (code c) 128 && noEscape s'
  end.

(** The page numbers [1 .. n]. *)
Definition pageNumbers (n : Z) : list Z := map Z.of_nat (seq 1 (Z.to_nat n)).

(** The [users] of the body of a page response. *)
Definition usersOnPage (r : Users.Response) : list User :=
  match Users.body r with
  | Users.PageBody found _ _ _ => found
  | _ => []
  end.

(** The store answers: it is connected and the ping returns. *)
Definition storeUp (c : HealthCheck.Connection) : Prop :=
  HealthCheck.readyState c = 1%Z /\
  exists t, HealthCheck.ping c = HealthCheck.Returns t.

(** The request of an event goes through the [/health] mount: it gets as
    far as the mount and its path is under it. *)
Definition underHealth (e : Server.Event) : bool :=
  Server.passedOn (snd e) && Express.mountMatches "/health" (Express.path (snd e)).

End Notions.

(** *** Sample data *)

Module Sample.
Import UserModel Mongoose HealthCheck Express.

Definition jo : Fields :=
  mkFields (Some "Jo Ann") (Some "jo@x.com") None None None.

Definition joPadded : Fields :=
  mkFields (Some "Jo Ann") (Some " jo@x.com") None None None.

Definition joUpper : Fields :=
  mkFields (Some "Jo Ann") (Some "JO@X.com") None None None.

Definition bob : Fields :=
  mkFields (Some "Bob") (Some "bob@y.org") (Some 30%Z) (Some "Oslo") None.

Definition joDoc : User :=
  mkUser 0%N "Jo Ann" "jo@x.com" None None None 1000%Z 1000%Z.

Definition bobDoc : User :=
  mkUser 1%N "Bob" "bob@y.org" (Some 30%Z) (Some "Oslo") None 2000%Z 2000%Z.

Definition oneUser : State := mkState [joDoc] 1%N.
Definition twoUsers : State := mkState [joDoc; bobDoc] 2%N.

(** The second record created within the millisecond of the first. *)
Definition bobAtOnce : User :=
  mkUser 1%N "Bob" "bob@y.org" (Some 30%Z) (Some "Oslo") None 1000%Z 1000%Z.

Definition tiedUsers : State := mkState [joDoc; bobAtOnce] 2%N.

(** A request without query parameters and without body. *)
Definition noQuery : Users.Query := Users.mkQuery None None.
Definition noFields : Fields := mkFields None None None None None.

Definition id0 : string := "000000000000000000000000".
Definition id1 : string := "000000000000000000000001".
Definition id9 : string := "000000000000000000000009".

Definition memory0 : MemoryUsage := mkMemoryUsage 50000000%Z 30000000%Z 20000000%Z 1000000%Z.
Definition cpu0 : CpuUsage := mkCpuUsage 1500%Z 300%Z.

Definition process0 : Process :=
  mkProcess 5000%Z 42%Z (Returns memory0) (Returns cpu0)
            "v18.0.0" "linux" "x64" 77%Z None None None.

(** A process in which [process.memoryUsage()] throws. *)
Definition processNoMemory : Process :=
  mkProcess 5000%Z 42%Z (Raises "uv_resident_set_memory") (Returns cpu0)
            "v18.0.0" "linux" "x64" 77%Z None None None.

Definition connected : Connection :=
  mkConnection 1%Z (Returns 3%Z) "mernapp" "localhost" 27017%Z.

Definition disconnected : Connection :=
  mkConnection 0%Z (Raises "not connected") "mernapp" "localhost" 27017%Z.

Definition pingFails : Connection :=
  mkConnection 1%Z (Raises "connection timed out") "mernapp" "localhost" 27017%Z.

End Sample.

(* ================================================================== *)
(** ** The client: services/api.js and the components *)
(* ================================================================== *)

Module Client.
Import Js UserModel Users.

(** [userAPI.getUsers(page = 1, limit = 10)]: the query string
    [?page=${page}&limit=${limit}] as the server reads it.  [None] is an
    argument that is left out. *)
Definition getUsers (page limit : option Num) : Query :=
  let page := match page with Some p => p | None => ofInteger 1 end in
  let limit := match limit with Some l => l | None => ofInteger 10 end in
  {| q_page := Some (toString page); q_limit := Some (toString limit) |}.

(** EditUser, [fetchUser]: [user.age ? user.age.toString() : ""].  The
    age of the record that the client receives is a number or is
    absent. *)
Definition ageField (age : option Num) : string :=
  match age with
  | Some x => if isZero x then EmptyString else toString x
  | None => EmptyString
  end.

(** AddUser and EditUser, [handleSubmit]:
    [formData.age ? parseInt(formData.age) : undefined].  The outer [None]
    is [undefined], the inner one is [NaN]. *)
Definition submitAge (field : string) : option (option Z) :=
  if truthy field then Some (parseInt field) else None.

(** UserList, [renderPagination]: one item of the pagination bar. *)
Inductive Item : Type :=
| Prev (disabled : bool) (target : Z)
| PageItem (page : Z) (active : bool)
| Next (disabled : bool) (target : Z).

Definition maxVisiblePages : Z := 5.

(** The first and the last page number shown. *)
Definition pageWindow (totalPages currentPage : Z) : Z * Z :=
  let startPage := Z.max 1 (currentPage - maxVisiblePages / 2) in
  let endPage := Z.min totalPages (startPage + maxVisiblePages - 1) in
  let startPage :=
    if (endPage - startPage <? maxVisiblePages - 1)%Z
    then Z.max 1 (endPage - maxVisiblePages + 1)
    else startPage in
  (startPage, endPage).

(** The pages [startPage .. endPage] of the [for] loop. *)
Definition pagesFrom (startPage endPage : Z) : list Z :=
  map (fun i => (startPage + Z.of_nat i)%Z)
      (seq 0 (Z.to_nat (endPage - startPage + 1))).

(** [renderPagination()]; [None] is [null]. *)
Definition renderPagination (totalPages currentPage : Z) (searchTerm : string)
  : option (list Item) :=
  if ((totalPages <=? 1)%Z || truthy searchTerm)%bool then None
  else
    let '(startPage, endPage) := pageWindow totalPages currentPage in
    Some (Prev (currentPage =? 1)%Z (currentPage - 1)%Z
          :: map (fun page => PageItem page (page =? currentPage)%Z)
                 (pagesFrom startPage endPage)
          ++ [Next (currentPage =? totalPages)%Z (currentPage + 1)%Z]).

End Client.

(* ================================================================== *)
(** ** The container health check script *)
(* ================================================================== *)

Module Healthcheck.

(** What [curl -w "%{http_code}"] prints: the status of the answer, or
    000 when there is none. *)
Definition httpCode (answer : option Server.Response) : Z :=
  match answer with
  | Some r => Server.status r
  | None => 0
  end.

(** The exit status of the script. *)
Definition exitStatus (answer : option Server.Response) : Z :=
  if (httpCode answer =? 200)%Z then 0 else 1.

End Healthcheck.

(* ================================================================== *)
(** ** More notions *)
(* ================================================================== *)

Module MoreNotions.
Import Js UserModel Mongoose.

(** The fields of a stored document, as the validators see them. *)
Definition fieldsOf (d : User) : Fields :=
  {| f_name := Some (name d);
     f_email := Some (email d);
     f_age := age d;
     f_city := city d;
     f_phone := phone d |}.

(** The document satisfies the schema. *)
Definition valid (d : User) : Prop := validateDoc (fieldsOf d) = [].

(** No two documents have the same email. *)
Definition emails_distinct (st : State) : Prop := NoDup (map email (users st)).

(** Every character of the string satisfies [P]. *)
Fixpoint AllChars (P : ascii -> Prop) (s : string) : Prop :=
  match s with
  | EmptyString => True
  | String c s' => P c /\ AllChars P s'
  end.

(** Every character that the expression reads satisfies [P]. *)
Fixpoint alphabet (P : ascii -> Prop) (r : Regex.re) : Prop :=
  match r with
  | Regex.Chr p => forall c, p c = true -> P c
  | Regex.Seq a b => alphabet P a /\ alphabet P b
  | Regex.Alt a b => alphabet P a /\ alphabet P b
  | Regex.Star a => alphabet P a
  | _ => True
  end.

(** A word character, a dot or a dash. *)
Definition emailChar (c : ascii) : Prop :=
  isWord c = true \/ c = "."%char \/ c = "-"%char.

(** A character of a phone number: a digit, one of [- + ( )], or white
    space. *)
Definition phoneChar (c : ascii) : Prop :=
  (isDigit c || isOneOf [45; 43; 40; 41]%N c || isSpace c)%bool = true.

(** The time of the last request that went through the [/health] mount. *)
Fixpoint lastUnderHealth (events : list Server.Event) : option Z :=
  match events with
  | [] => None
  | (c, p, r) :: rest =>
      match lastUnderHealth rest with
      | Some t => Some t
      | None =>
          if Server.passedOn r && Express.mountMatches "/health" (Express.path r)
          then Some (HealthCheck.now p) else None
      end
  end.

(** What follows the digits before the point in the text of a number:
    nothing, the point, or the exponent. *)
Definition afterDigits (rest : string) : Prop :=
  rest = EmptyString \/
  (exists t, rest = String "." t) \/
  (exists t, rest = String "e" t).

(** The value of an unsigned decimal read after [acc]. *)
Fixpoint uintAcc (d : Decimal.uint) (acc : N) : N :=
  match d with
  | Decimal.Nil => acc
  | Decimal.D0 l => uintAcc l (acc * 10 + 0)
  | Decimal.D1 l => uintAcc l (acc * 10 + 1)
  | Decimal.D2 l => uintAcc l (acc * 10 + 2)
  | Decimal.D3 l => uintAcc l (acc * 10 + 3)
  | Decimal.D4 l => uintAcc l (acc * 10 + 4)
  | Decimal.D5 l => uintAcc l (acc * 10 + 5)
  | Decimal.D6 l => uintAcc l (acc * 10 + 6)
  | Decimal.D7 l => uintAcc l (acc * 10 + 7)
  | Decimal.D8 l => uintAcc l (acc * 10 + 8)
  | Decimal.D9 l => uintAcc l (acc * 10 + 9)
  end.

End MoreNotions.

(* ================================================================== *)
(** * Properties *)
(* ================================================================== *)

(** ** Strings *)

Module JsFacts.
Import Js Notions.

Ltac by_cases_on_ascii c :=
  destruct c as [[] [] [] [] [] [] [] []]; vm_compute; reflexivity.

Lemma lowerChar_idem (c : ascii) : lowerChar (lowerChar c) = lowerChar c.
Proof. by_cases_on_ascii c. Qed.

Lemma isSpace_lowerChar (c : ascii) : isSpace (lowerChar c) = isSpace c.
Proof. by_cases_on_ascii c. Qed.

Lemma toLowerCase_idem (s : string) : toLowerCase (toLowerCase s) = toLowerCase s.
Proof.
  induction s as [|c s IH]; simpl; [reflexivity|].
  now rewrite lowerChar_idem, IH.
Qed.

Lemma toLowerCase_app (s t : string) :
  toLowerCase (s ++ t) = toLowerCase s ++ toLowerCase t.
Proof. induction s as [|c s IH]; simpl; [reflexivity | now rewrite IH]. Qed.

Lemma trimStart_lower (s : string) :
  trimStart (toLowerCase s) = toLowerCase (trimStart s).
Proof.
  induction s as [|c s IH]; simpl; [reflexivity|].
  rewrite isSpace_lowerChar. destruct (isSpace c); [exact IH | reflexivity].
Qed.

Lemma trimEnd_lower (s : string) :
  trimEnd (toLowerCase s) = toLowerCase (trimEnd s).
Proof.
  induction s as [|c s IH]; simpl; [reflexivity|].
  rewrite IH, isSpace_lowerChar.
  destruct (trimEnd s); simpl; [destruct (isSpace c)|]; reflexivity.
Qed.

Lemma trim_lower (s : string) : trim (toLowerCase s) = toLowerCase (trim s).
Proof. unfold trim. now rewrite trimStart_lower, trimEnd_lower. Qed.

Lemma trimStart_clean (s : string) : startsClean (trimStart s).
Proof.
  induction s as [|c s IH]; simpl; [exact I|].
  destruct (isSpace c) eqn:E; [exact IH | exact E].
Qed.

Lemma trimStart_of_clean (s : string) : startsClean s -> trimStart s = s.
Proof. destruct s as [|c s]; simpl; [reflexivity | now intros ->]. Qed.

Lemma trimEnd_clean (s : string) : startsClean s -> startsClean (trimEnd s).
Proof.
  destruct s as [|c s]; simpl; [exact (fun h => h)|].
  intros E. destruct (trimEnd s); [rewrite E|]; exact E.
Qed.

Lemma trimEnd_idem (s : string) : trimEnd (trimEnd s) = trimEnd s.
Proof.
  induction s as [|c s IH]; simpl; [reflexivity|].
  destruct (trimEnd s) as [|d t] eqn:E.
  - destruct (isSpace c) eqn:Ec; simpl; [reflexivity | now rewrite Ec].
  - change (trimEnd (String c (String d t)) = String c (String d t)).
    cbn [trimEnd] in *. destruct (trimEnd t); rewrite IH; reflexivity.
Qed.

Lemma trim_idem (s : string) : trim (trim s) = trim s.
Proof.
  unfold trim.
  rewrite (trimStart_of_clean (trimEnd (trimStart s))).
  - apply trimEnd_idem.
  - apply trimEnd_clean, trimStart_clean.
Qed.

Lemma trim_empty_of_empty (s : string) : s = EmptyString -> trim s = EmptyString.
Proof. now intros ->. Qed.

End JsFacts.

(** ** The regular expression runner against the words of an expression *)

Module RegexFacts.
Import Regex Notions.

Lemma append_nil_r (s : string) : s ++ "" = s.
Proof. induction s as [|c s IH]; simpl; [reflexivity | now rewrite IH]. Qed.

Lemma append_assoc (s t u : string) : (s ++ t) ++ u = s ++ (t ++ u).
Proof. induction s as [|c s IH]; simpl; [reflexivity | now rewrite IH]. Qed.

Lemma length_append (s t : string) :
  String.length (s ++ t) = String.length s + String.length t.
Proof. induction s as [|c s IH]; simpl; [reflexivity | now rewrite IH]. Qed.

Lemma In_add (x y : string) (l : list string) : In x (add y l) <-> x = y \/ In x l.
Proof.
  unfold add. destruct (existsb (String.eqb y) l) eqn:E.
  - split; [now right|]. intros [-> | H]; [|exact H].
    apply existsb_exists in E as (z & Hz & Heq).
    apply String.eqb_eq in Heq. now subst.
  - simpl. split; intros [H | H]; auto.
Qed.

Lemma In_union (x : string) (a b : list string) :
  In x (union a b) <-> In x a \/ In x b.
Proof.
  unfold union. induction a as [|y a IH]; simpl.
  - tauto.
  - rewrite In_add, IH. split; intros H; intuition (subst; auto).
Qed.

Lemma In_readChr (p : ascii -> bool) (s s' : string) :
  In s' (readChr p s) <-> exists c, s = String c s' /\ p c = true.
Proof.
  destruct s as [|c s]; simpl.
  - split; [contradiction | intros (c & H & _); discriminate H].
  - destruct (p c) eqn:E; simpl.
    + split.
      * intros [<- | []]. now exists c.
      * intros (d & H & _). injection H as _ <-. now left.
    + split; [contradiction|]. intros (d & H & Hd). injection H as <- _.
      congruence.
Qed.

Lemma In_run_Chr (p : ascii -> bool) (S : list string) (s' : string) :
  In s' (run (Chr p) S) <-> exists c, In (String c s') S /\ p c = true.
Proof.
  simpl. induction S as [|s S IH]; simpl.
  - split; [contradiction | intros (c & [] & _)].
  - rewrite In_union, IH, In_readChr. split.
    + intros [(c & -> & Hc) | (c & Hin & Hc)]; exists c; auto.
    + intros (c & [-> | Hin] & Hc); [left | right]; exists c; auto.
Qed.

Lemma longest_bound (S : list string) (s : string) :
  In s S -> String.length s <= longest S.
Proof.
  unfold longest. induction S as [|x S IH]; simpl; [contradiction|].
  intros [-> | H]; [lia|]. specialize (IH H). lia.
Qed.

Lemma StarN_mono (a : re) (n m : nat) (w : string) :
  n <= m -> StarN a n w -> StarN a m w.
Proof.
  intros Hle. induction Hle as [|m Hle IH]; [trivial|].
  intros H. left. now apply IH.
Qed.

Lemma StarN_Lang (a : re) (n : nat) (w : string) : StarN a n w -> Lang (Star a) w.
Proof.
  revert w. induction n as [|n IH]; simpl; intros w.
  - intros ->. constructor.
  - intros [H | (u & v & Hu & Hv & ->)]; [now apply IH|].
    constructor; [exact Hu | now apply IH].
Qed.

(** Empty words can be left out: a word of [Star a] is made of at most as
    many words of [a] as it has characters. *)
Lemma Lang_StarN (a : re) (w : string) :
  Lang (Star a) w -> StarN a (String.length w) w.
Proof.
  intros H. remember (Star a) as r eqn:Er.
  induction H as [| | | | | a'|a' u v Hu _ Hv IHv]; try discriminate Er.
  - reflexivity.
  - injection Er as ->. specialize (IHv eq_refl).
    destruct u as [|c u]; [exact IHv|].
    apply (StarN_mono a (S (String.length v))).
    + rewrite length_append. simpl. lia.
    + right. exists (String c u), v. auto.
Qed.

Section Iterate.
Variable a : re.
Hypothesis run_a : forall S s', In s' (run a S) <-> Reaches a S s'.

Lemma iterate_spec (n : nat) (S : list string) (x : string) :
  In x (iterate (run a) n S) <->
  exists s w, In s S /\ StarN a n w /\ s = w ++ x.
Proof.
  revert S. induction n as [|n IH]; intros S; cbn [iterate StarN].
  - split.
    + intros H. now exists x, EmptyString.
    + intros (s & w & Hs & -> & ->). exact Hs.
  - rewrite IH. split.
    + intros (s1 & w1 & Hin & Hw & ->). apply In_union in Hin as [Hin | Hin].
      * apply run_a in Hin as (s & u & Hs & Hu & ->).
        exists (u ++ w1 ++ x), (u ++ w1).
        split; [exact Hs|]. split; [|now rewrite append_assoc].
        right. now exists u, w1.
      * exists (w1 ++ x), w1. auto.
    + intros (s & w & Hs & [Hw | (u & v & Hu & Hv & ->)] & ->).
      * exists (w ++ x), w. split; [apply In_union; now right | auto].
      * exists (v ++ x), v. split; [|auto]. apply In_union. left.
        apply run_a. exists ((u ++ v) ++ x), u.
        split; [exact Hs|]. split; [exact Hu | apply append_assoc].
Qed.
End Iterate.

(** The runner reaches exactly the positions that the words of the
    expression lead to. *)
Theorem run_reaches (r : re) (S : list string) (s' : string) :
  In s' (run r S) <-> Reaches r S s'.
Proof.
  revert S s'. induction r as [| |p|a IHa b IHb|a IHa b IHb|a IHa]; intros S s'.
  - split; [contradiction|]. intros (s & w & _ & H & _). inversion H.
  - simpl. split.
    + intros H. exists s', EmptyString. repeat split; [exact H | constructor].
    + intros (s & w & Hs & H & ->). inversion H; subst. exact Hs.
  - rewrite In_run_Chr. split.
    + intros (c & Hin & Hc). exists (String c s'), (String c EmptyString).
      repeat split; [exact Hin | now constructor].
    + intros (s & w & Hs & H & ->). inversion H; subst. now exists c.
  - cbn [run]. rewrite IHb. split.
    + intros (s1 & v & Hin & Hv & ->). apply IHa in Hin as (s & u & Hs & Hu & ->).
      exists (u ++ v ++ s'), (u ++ v). split; [exact Hs|].
      split; [now constructor | now rewrite append_assoc].
    + intros (s & w & Hs & H & ->). inversion H; subst.
      exists (v ++ s'), v. split; [|auto]. apply IHa.
      exists ((u ++ v) ++ s'), u. split; [exact Hs|].
      split; [assumption | apply append_assoc].
  - cbn [run]. rewrite In_union, IHa, IHb. split.
    + intros [(s & w & Hs & H & ->) | (s & w & Hs & H & ->)];
        exists (w ++ s'), w; (split; [exact Hs|]); (split; [|reflexivity]);
        [now apply LangAltL | now apply LangAltR].
    + intros (s & w & Hs & H & ->). inversion H; subst; [left | right];
        exists (w ++ s'), w; auto.
  - cbn [run]. rewrite (iterate_spec a IHa). split.
    + intros (s & w & Hs & Hw & ->). exists (w ++ s'), w.
      split; [exact Hs|]. split; [now apply (StarN_Lang a (longest S)) | reflexivity].
    + intros (s & w & Hs & Hw & ->). exists (w ++ s'), w.
      split; [exact Hs|]. split; [|reflexivity].
      apply (StarN_mono a (String.length w)); [|now apply Lang_StarN].
      pose proof (longest_bound S _ Hs) as Hb. rewrite length_append in Hb. lia.
Qed.

(** [matches] decides the words of the expression. *)
Theorem matches_words (r : re) (s : string) : matches r s = true <-> Lang r s.
Proof.
  unfold matches. split.
  - intros H. apply existsb_exists in H as (x & Hx & Heq).
    apply String.eqb_eq in Heq. subst x.
    apply run_reaches in Hx as (s0 & w & [<- | []] & Hw & ->).
    now rewrite append_nil_r.
  - intros H. apply existsb_exists. exists EmptyString. split; [|reflexivity].
    apply run_reaches. exists s, s. split; [now left|].
    split; [exact H | now rewrite append_nil_r].
Qed.

Theorem prefixMatch_words (r : re) (s : string) :
  prefixMatch r s = true <-> exists w post, Lang r w /\ s = w ++ post.
Proof.
  unfold prefixMatch. split.
  - destruct (run r [s]) as [|x l] eqn:E; [discriminate|]. intros _.
    assert (Hx : In x (run r [s])) by (rewrite E; now left).
    apply run_reaches in Hx as (s0 & w & [<- | []] & Hw & ->). now exists w, x.
  - intros (w & post & Hw & ->).
    assert (Hx : In post (run r [w ++ post])).
    { apply run_reaches. exists (w ++ post), w. split; [now left | auto]. }
    destruct (run r [w ++ post]); [contradiction | reflexivity].
Qed.

Theorem search_words (r : re) (s : string) :
  search r s = true <-> exists pre w post, Lang r w /\ s = pre ++ w ++ post.
Proof.
  induction s as [|c s IH]; cbn [search].
  - rewrite orb_false_r, prefixMatch_words. split.
    + intros (w & post & Hw & H). now exists EmptyString, w, post.
    + intros (pre & w & post & Hw & H). destruct pre; [|discriminate H].
      now exists w, post.
  - rewrite orb_true_iff, prefixMatch_words, IH. split.
    + intros [(w & post & Hw & H) | (pre & w & post & Hw & ->)].
      * now exists EmptyString, w, post.
      * now exists (String c pre), w, post.
    + intros (pre & w & post & Hw & H). destruct pre as [|d pre].
      * left. now exists w, post.
      * right. simpl in H. injection H as _ ->. now exists pre, w, post.
Qed.

End RegexFacts.

(** ** The collection *)

Module StoreFacts.
Import Js JsFacts UserModel Mongoose Notions.

Lemma setEmail_idem (e : string) : setEmail (setEmail e) = setEmail e.
Proof.
  unfold setEmail.
  rewrite (trim_lower (trim (toLowerCase e))), trim_idem, <- trim_lower.
  now rewrite toLowerCase_idem.
Qed.

(** Two addresses that differ by case only have the same stored form. *)
Lemma setEmail_same_letters (e x : string) :
  toLowerCase e = toLowerCase x -> setEmail e = setEmail x.
Proof. unfold setEmail. now intros ->. Qed.

Lemma setEmail_truthy (e : string) : setEmail e <> EmptyString -> e <> EmptyString.
Proof. intros H ->. now apply H. Qed.

Lemma emptyState_ok : store_ok emptyState.
Proof. split; simpl; try contradiction. constructor. Qed.

Lemma hasId_true (oid : ObjectId) (d : User) : hasId oid d = true <-> _id d = oid.
Proof. unfold hasId. apply N.eqb_eq. Qed.

Lemma hasId_false (oid : ObjectId) (d : User) : hasId oid d = false <-> _id d <> oid.
Proof. unfold hasId. apply N.eqb_neq. Qed.

Lemma find_hasId_None (oid : ObjectId) (l : list User) :
  find (hasId oid) l = None <-> (forall d, In d l -> _id d <> oid).
Proof.
  split.
  - intros H d Hd. apply hasId_false. exact (find_none _ _ H d Hd).
  - intros H. induction l as [|x l IH]; simpl; [reflexivity|].
    destruct (hasId oid x) eqn:E.
    + apply hasId_true in E. exfalso. apply (H x); [now left | exact E].
    + apply IH. intros d Hd. apply H. now right.
Qed.

Lemma find_hasId_Some (oid : ObjectId) (l : list User) (d : User) :
  NoDup (map _id l) -> In d l -> _id d = oid -> find (hasId oid) l = Some d.
Proof.
  induction l as [|x l IH]; simpl; [contradiction|].
  intros Hnd [-> | Hd] Hid.
  - now rewrite (proj2 (hasId_true oid d) Hid).
  - inversion Hnd as [|? ? Hx Hl]; subst.
    destruct (hasId (_id d) x) eqn:E.
    + apply hasId_true in E. exfalso. apply Hx. rewrite E. now apply in_map.
    + now apply IH.
Qed.

Lemma removeDoc_In (oid : ObjectId) (l : list User) (d : User) :
  In d (removeDoc oid l) <-> In d l /\ _id d <> oid.
Proof.
  unfold removeDoc. rewrite filter_In, negb_true_iff, hasId_false. reflexivity.
Qed.

Lemma removeDoc_ids (oid : ObjectId) (l : list User) :
  NoDup (map _id l) -> NoDup (map _id (removeDoc oid l)).
Proof.
  induction l as [|x l IH]; simpl; [trivial|].
  intros Hnd. inversion Hnd as [|? ? Hx Hl]; subst.
  destruct (hasId oid x); simpl; [now apply IH|].
  constructor; [|now apply IH].
  intros Hin. apply Hx. apply in_map_iff in Hin as (d & Hd & Hin).
  apply removeDoc_In in Hin as [Hin _]. rewrite <- Hd. now apply in_map.
Qed.

Lemma replaceDoc_ids (u : User) (l : list User) :
  map _id (replaceDoc u l) = map _id l.
Proof.
  unfold replaceDoc. rewrite map_map. apply map_ext_in. intros d _.
  destruct (hasId (_id u) d) eqn:E; [|reflexivity].
  now apply hasId_true in E.
Qed.

Lemma replaceDoc_In (u : User) (l : list User) (d : User) :
  In d (replaceDoc u l) -> d = u \/ (In d l /\ _id d <> _id u).
Proof.
  unfold replaceDoc. rewrite in_map_iff. intros (x & Hx & Hin).
  destruct (hasId (_id u) x) eqn:E.
  - now left.
  - right. subst x. split; [exact Hin | now apply hasId_false].
Qed.

(** The documents with another identifier are left as they are. *)
Lemma replaceDoc_others (u : User) (l : list User) (d : User) :
  In d l -> _id d <> _id u -> In d (replaceDoc u l).
Proof.
  intros Hin Hne. unfold replaceDoc. apply in_map_iff. exists d.
  split; [|exact Hin]. now rewrite (proj2 (hasId_false (_id u) d) Hne).
Qed.

Lemma emailTaken_false (st : State) (oid : ObjectId) (e : string) :
  (forall d, In d (users st) -> email d <> e) -> emailTaken st oid e = false.
Proof.
  intros H. unfold emailTaken. apply not_true_is_false. intros Hex.
  apply existsb_exists in Hex as (d & Hd & Ht).
  apply andb_true_iff in Ht as [Ht _]. apply String.eqb_eq in Ht.
  exact (H d Hd Ht).
Qed.

(** A candidate that passes document validation has a name and a
    non-empty address. *)
Lemma validateDoc_nil (f : Fields) :
  validateDoc f = [] ->
  exists n e, f_name f = Some n /\ f_email f = Some e /\ e <> EmptyString.
Proof.
  unfold validateDoc. intros H.
  apply app_eq_nil in H as [Hn H]. apply app_eq_nil in H as [He _].
  destruct (f_name f) as [n|]; [|discriminate Hn].
  destruct (f_email f) as [e|]; [|discriminate He].
  exists n, e. repeat split. intros ->. discriminate He.
Qed.

Lemma validateUpdate_email (f : Fields) (e : string) :
  validateUpdate f = [] -> f_email f = Some e -> e <> EmptyString.
Proof.
  unfold validateUpdate. intros H He.
  apply app_eq_nil in H as [_ H]. apply app_eq_nil in H as [H _].
  rewrite He in H. simpl in H. intros ->. discriminate H.
Qed.

Lemma save_Ok (st : State) (now : Z) (oid : ObjectId) (f : Fields)
      (u : User) (st' : State) :
  save st now (oid, f) = Ok (u, st') ->
  validateDoc f = [] /\
  f_name f = Some (name u) /\ f_email f = Some (email u) /\
  emailTaken st oid (email u) = false /\
  u = {| _id := oid; name := name u; email := email u; age := f_age f;
         city := f_city f; phone := f_phone f;
         createdAt := now; updatedAt := now |} /\
  st' = {| users := users st ++ [u]; oidCounter := oidCounter st |}.
Proof.
  unfold save.
  destruct (validateDoc f) eqn:Ev; [|discriminate].
  destruct (f_name f) as [n|]; [|discriminate].
  destruct (f_email f) as [e|]; [|discriminate].
  destruct (emailTaken st oid e) eqn:Et; [discriminate|].
  intros H. injection H as <- <-. simpl. repeat split; assumption.
Qed.

End StoreFacts.

(** ** The user routes *)

Module UsersFacts.
Import Js JsFacts UserModel Mongoose Users Notions StoreFacts.

Lemma findOne_email_None (st : State) (e : string) :
  (forall d, In d (users st) -> setEmail e <> email d) ->
  findOne_email st (Some e) = None.
Proof.
  intros H. unfold findOne_email.
  destruct (find _ (users st)) as [d|] eqn:E; [|reflexivity].
  apply find_some in E as [Hd Heq]. apply String.eqb_eq in Heq.
  exfalso. now apply (H d Hd).
Qed.

Lemma findOne_email_Some (st : State) (e : string) (d : User) :
  In d (users st) -> setEmail e = email d ->
  exists x, findOne_email st (Some e) = Some x.
Proof.
  intros Hd He. unfold findOne_email.
  destruct (find _ (users st)) as [x|] eqn:E; [now exists x|].
  pose proof (find_none _ _ E d Hd) as Hf. simpl in Hf.
  rewrite He, String.eqb_refl in Hf. discriminate Hf.
Qed.

Lemma findByIdAndUpdate_Some (st : State) (now : Z) (id : string) (f : Fields)
      (u : User) (st' : State) :
  findByIdAndUpdate st now id f = Ok (Some u, st') ->
  exists oid d,
    castObjectId id = Some oid /\
    find (hasId oid) (users st) = Some d /\
    validateUpdate (applySetters f) = [] /\
    u = applyUpdate now (applySetters f) d /\
    emailTaken st oid (email u) = false /\
    st' = {| users := replaceDoc u (users st); oidCounter := oidCounter st |}.
Proof.
  unfold findByIdAndUpdate.
  destruct (castObjectId id) as [oid|]; [|discriminate].
  destruct (validateUpdate (applySetters f)) eqn:Ev; [|discriminate].
  destruct (find (hasId oid) (users st)) as [d|] eqn:Ef; [|discriminate].
  destruct (emailTaken st oid _) eqn:Et; [discriminate|].
  intros H. injection H as <- <-. exists oid, d. repeat split; assumption.
Qed.

(** A response of [put_user] with status 200 comes from the last branch
    of the handler. *)
Lemma put_user_200 (st : State) (now : Z) (id : string) (b : Fields)
      (st' : State) (resp : Response) :
  put_user st now id b = (st', resp) -> status resp = 200%Z ->
  exists u,
    findByIdAndUpdate st now id b = Ok (Some u, st') /\
    resp = mkResponse 200 (MessageUserBody "User updated successfully" u).
Proof.
  unfold put_user. intros H Hs.
  destruct (match f_email b with
            | Some e => if truthy e then findOne_email_ne st e id else Ok None
            | None => Ok None
            end) as [[x|]|err].
  - injection H as <- <-. discriminate Hs.
  - destruct (findByIdAndUpdate st now id b) as [[[u|] st2]|err].
    + injection H as <- <-. now exists u.
    + injection H as <- <-. discriminate Hs.
    + injection H as <- <-. discriminate Hs.
  - injection H as <- <-. discriminate Hs.
Qed.

(** *** The routes keep [store_ok] *)

Lemma post_users_ok (st : State) (now : Z) (b : Fields) :
  store_ok st -> store_ok (fst (post_users st now b)).
Proof.
  intros Hok. unfold post_users.
  destruct (findOne_email st (f_email b)); [exact Hok|].
  unfold newUser.
  set (st1 := {| users := users st; oidCounter := (oidCounter st + 1)%N |}).
  assert (Hok1 : store_ok st1).
  { destruct Hok as [H1 H2 H3 H4]. split; simpl; auto.
    intros d Hd. specialize (H3 d Hd). lia. }
  destruct (save st1 now (oidCounter st, applySetters b)) as [[u st2]|err] eqn:Es;
    [|exact Hok1].
  apply save_Ok in Es as (Hv & Hn & He & _ & Hu & ->). simpl.
  assert (Hid : _id u = oidCounter st) by (rewrite Hu; reflexivity).
  destruct Hok as [H1 H2 H3 H4].
  destruct (validateDoc_nil _ Hv) as (n & e & _ & He' & Hne).
  rewrite He in He'. injection He' as <-.
  split; simpl.
  - intros d Hd. apply in_app_or in Hd as [Hd | [<- | []]]; [now apply H1|].
    simpl in He. destruct (f_email b) as [e0|]; [|discriminate He].
    simpl in He. injection He as <-. apply setEmail_idem.
  - intros d Hd. apply in_app_or in Hd as [Hd | [<- | []]]; [now apply H2 | exact Hne].
  - intros d Hd. apply in_app_or in Hd as [Hd | [<- | []]].
    + specialize (H3 d Hd). lia.
    + rewrite Hid. lia.
  - rewrite map_app. simpl. apply NoDup_app; [exact H4 | repeat constructor; intros [] |].
    intros x Hx [<- | []]. apply in_map_iff in Hx as (d & Hd & Hin).
    specialize (H3 d Hin). rewrite Hd, Hid in H3. lia.
Qed.

Lemma delete_user_ok (st : State) (id : string) :
  store_ok st -> store_ok (fst (delete_user st id)).
Proof.
  intros Hok. unfold delete_user, findByIdAndDelete.
  destruct (castObjectId id) as [oid|]; [|exact Hok].
  destruct (find (hasId oid) (users st)); [|exact Hok].
  destruct Hok as [H1 H2 H3 H4]. split; simpl.
  - intros d Hd. apply removeDoc_In in Hd as [Hd _]. now apply H1.
  - intros d Hd. apply removeDoc_In in Hd as [Hd _]. now apply H2.
  - intros d Hd. apply removeDoc_In in Hd as [Hd _]. now apply H3.
  - now apply removeDoc_ids.
Qed.

Lemma put_user_ok (st : State) (now : Z) (id : string) (b : Fields) :
  store_ok st -> store_ok (fst (put_user st now id b)).
Proof.
  intros Hok.
  destruct (put_user st now id b) as [st' resp] eqn:E. simpl.
  assert (Hst : st' = st \/ status resp = 200%Z).
  { revert E. unfold put_user.
    destruct (match f_email b with
              | Some e => if truthy e then findOne_email_ne st e id else Ok None
              | None => Ok None
              end) as [[x|]|err]; try (intros H; injection H as <- <-; now left).
    destruct (findByIdAndUpdate st now id b) as [[[u|] st2]|err];
      intros H; injection H as <- <-; auto. }
  destruct Hst as [-> | Hs]; [exact Hok|].
  destruct (put_user_200 _ _ _ _ _ _ E Hs) as (u & Hu & _).
  apply findByIdAndUpdate_Some in Hu as (oid & d & _ & Hf & Hv & Hu & _ & ->).
  apply find_some in Hf as [Hd Hid]. apply hasId_true in Hid.
  destruct Hok as [H1 H2 H3 H4].
  assert (Hemail : setEmail (email u) = email u /\ email u <> EmptyString).
  { rewrite Hu. unfold applyUpdate, orKeep. simpl.
    destruct (f_email b) as [e|] eqn:Ee; simpl.
    - split; [apply setEmail_idem|].
      apply (validateUpdate_email (applySetters b)); [exact Hv|].
      simpl. now rewrite Ee.
    - split; [now apply H1 | now apply H2]. }
  assert (Hidu : _id u = _id d) by (rewrite Hu; reflexivity).
  split; simpl.
  - intros x Hx. apply replaceDoc_In in Hx as [-> | [Hx _]];
      [apply Hemail | now apply H1].
  - intros x Hx. apply replaceDoc_In in Hx as [-> | [Hx _]];
      [apply Hemail | now apply H2].
  - intros x Hx. apply replaceDoc_In in Hx as [-> | [Hx _]];
      [rewrite Hidu; now apply H3 | now apply H3].
  - now rewrite replaceDoc_ids.
Qed.

(** Every state that the routes produce satisfies [store_ok]. *)
Theorem reachable_ok (st : State) : reachable st -> store_ok st.
Proof.
  induction 1 as [|st now b _ IH|st now id b _ IH|st id _ IH].
  - exact emptyState_ok.
  - now apply post_users_ok.
  - now apply put_user_ok.
  - now apply delete_user_ok.
Qed.

End UsersFacts.

(** ** Create, update, delete *)

Module UsersSpec.
Import Js JsFacts UserModel Mongoose Users Notions StoreFacts UsersFacts Sample.

Ltac each_document Hd tac :=
  repeat (destruct Hd as [<- | Hd]; [tac|]); try contradiction.

Ltac store_ok_by_computation :=
  split; simpl;
  [ intros d Hd; each_document Hd ltac:(vm_compute; reflexivity)
  | intros d Hd; each_document Hd ltac:(discriminate)
  | intros d Hd; each_document Hd ltac:(reflexivity)
  | repeat (constructor; [simpl; intuition discriminate|]); constructor ].

Lemma oneUser_ok : store_ok oneUser.
Proof. store_ok_by_computation. Qed.

Lemma twoUsers_ok : store_ok twoUsers.
Proof. store_ok_by_computation. Qed.

(** C1, as amended.  In a state that the routes produce, a create whose
    email, trimmed and lower-cased, is the email of an existing record
    (in particular one that equals it up to case) is answered 400 with the
    duplicate-email error and leaves the state as it is; a create whose
    fields pass validation and whose trimmed, lower-cased email is the
    email of no existing record is answered 201 with the persisted record,
    which carries a fresh id, both timestamps set to the time of the
    request and the fields as the setters leave them, and which is added
    at the end of the collection. *)
Theorem create_spec (st : State) (now : Z) (b : Fields) (e : string) :
  store_ok st -> f_email b = Some e ->
  (forall d, In d (users st) -> toLowerCase e = toLowerCase (email d) ->
     post_users st now b =
     (st, mkResponse 400 (ErrorBody (Text "User with this email already exists"))))
  /\
  (forall d, In d (users st) -> setEmail e = email d ->
     post_users st now b =
     (st, mkResponse 400 (ErrorBody (Text "User with this email already exists"))))
  /\
  (validateDoc (applySetters b) = [] ->
   (forall d, In d (users st) -> setEmail e <> email d) ->
   exists u,
     post_users st now b =
     ({| users := users st ++ [u]; oidCounter := (oidCounter st + 1)%N |},
      mkResponse 201 (MessageUserBody "User created successfully" u)) /\
     _id u = oidCounter st /\
     (forall d, In d (users st) -> _id d <> _id u) /\
     createdAt u = now /\ updatedAt u = now /\
     Some (name u) = option_map setName (f_name b) /\
     email u = setEmail e /\
     age u = f_age b /\
     city u = option_map setCity (f_city b) /\
     phone u = option_map setPhone (f_phone b)).
Proof.
  intros Hok He.
  assert (Hdup : forall d, In d (users st) -> setEmail e = email d ->
                 post_users st now b = (st, duplicateEmail)).
  { intros d Hd Heq. unfold post_users. rewrite He.
    destruct (findOne_email_Some st e d Hd Heq) as [x ->]. reflexivity. }
  split; [|split].
  - intros d Hd Heq. apply (Hdup d Hd).
    rewrite (setEmail_same_letters _ _ Heq). now apply (ok_email_stored st Hok).
  - exact Hdup.
  - intros Hv Hfree.
    destruct (validateDoc_nil _ Hv) as (n & e' & Hn & He' & _).
    assert (e' = setEmail e) as ->.
    { simpl in He'. rewrite He in He'. simpl in He'. now injection He' as <-. }
    set (u := {| _id := oidCounter st; name := n; email := setEmail e;
                 age := f_age b; city := option_map setCity (f_city b);
                 phone := option_map setPhone (f_phone b);
                 createdAt := now; updatedAt := now |}).
    exists u. split; [|repeat split; try reflexivity].
    + unfold post_users. rewrite He, (findOne_email_None st e Hfree).
      unfold newUser, save. rewrite Hv, Hn, He'.
      rewrite emailTaken_false; [reflexivity|].
      simpl. intros d Hd Heq. exact (Hfree d Hd (eq_sym Heq)).
    + intros d Hd Heq. pose proof (ok_ids_drawn st Hok d Hd) as Hlt.
      rewrite Heq in Hlt. simpl in Hlt. lia.
    + simpl. simpl in Hn. now rewrite <- Hn.
Qed.

Lemma create_spec_witness :
  post_users oneUser 1001 joUpper =
    (oneUser, mkResponse 400 (ErrorBody (Text "User with this email already exists")))
  /\
  exists u,
    post_users oneUser 2000 bob =
    ({| users := users oneUser ++ [u]; oidCounter := 2 |},
     mkResponse 201 (MessageUserBody "User created successfully" u)) /\
    _id u = 1%N /\ createdAt u = 2000%Z /\ updatedAt u = 2000%Z.
Proof.
  split.
  - destruct (create_spec oneUser 1001 joUpper "JO@X.com" oneUser_ok eq_refl)
      as [Hcase _].
    apply (Hcase joDoc); [now left | vm_compute; reflexivity].
  - destruct (create_spec oneUser 2000 bob "bob@y.org" oneUser_ok eq_refl)
      as (_ & _ & Hnew).
    destruct Hnew as (u & Hpost & Hid & _ & Hc & Hu & _).
    + vm_compute; reflexivity.
    + intros d [<- | []]. vm_compute. discriminate.
    + exists u. repeat split; assumption.
Defined.

(** C1 as stated fails: the input below passes validation and its email
    equals no stored email even when case is ignored, because of the
    leading space; the setters remove the space and the create is answered
    400 with the duplicate-email error. *)
Lemma create_padded_email_is_duplicate :
  store_ok oneUser /\
  validateDoc (applySetters joPadded) = [] /\
  f_email joPadded = Some " jo@x.com" /\
  (forall d, In d (users oneUser) ->
     toLowerCase " jo@x.com" <> toLowerCase (email d)) /\
  post_users oneUser 1001 joPadded =
    (oneUser, mkResponse 400 (ErrorBody (Text "User with this email already exists"))) /\
  status (snd (post_users oneUser 1001 joPadded)) <> 201%Z.
Proof.
  split; [exact oneUser_ok|].
  split; [vm_compute; reflexivity|].
  split; [reflexivity|].
  split; [intros d [<- | []]; vm_compute; discriminate|].
  split; [vm_compute; reflexivity | vm_compute; discriminate].
Qed.

(** C10.  In a state that the routes produce, an update addressed to a
    well-formed id that no record has, with an email whose stored form is
    the email of an existing record, is answered 400 with the
    duplicate-email error, not 404: the duplicate check comes first.  The
    state is left as it is. *)
Theorem update_duplicate_before_missing
        (st : State) (now : Z) (id : string) (b : Fields)
        (oid : ObjectId) (e : string) (d : User) :
  store_ok st ->
  castObjectId id = Some oid ->
  (forall x, In x (users st) -> _id x <> oid) ->
  f_email b = Some e -> In d (users st) -> setEmail e = email d ->
  put_user st now id b =
    (st, mkResponse 400 (ErrorBody (Text "User with this email already exists"))) /\
  put_user st now id b <> (st, mkResponse 404 (ErrorBody (Text "User not found"))).
Proof.
  intros Hok Hid Hmissing He Hd Heq.
  assert (Hput : put_user st now id b = (st, duplicateEmail)).
  { unfold put_user. rewrite He.
    assert (Hne : e <> EmptyString).
    { apply setEmail_truthy. rewrite Heq. now apply (ok_email_present st Hok). }
    destruct e as [|c e]; [now elim Hne|]. cbn [truthy].
    unfold findOne_email_ne. rewrite Hid.
    destruct (find _ (users st)) as [x|] eqn:Ef; [reflexivity|].
    pose proof (find_none _ _ Ef d Hd) as Hf. cbn beta in Hf.
    rewrite Heq, String.eqb_refl, (proj2 (hasId_false oid d) (Hmissing d Hd)) in Hf.
    discriminate Hf. }
  split; [exact Hput|]. rewrite Hput. discriminate.
Qed.

Lemma update_duplicate_before_missing_witness :
  put_user oneUser 3000 id9 joUpper =
    (oneUser, mkResponse 400 (ErrorBody (Text "User with this email already exists"))) /\
  put_user oneUser 3000 id9 joUpper <>
    (oneUser, mkResponse 404 (ErrorBody (Text "User not found"))).
Proof.
  apply (update_duplicate_before_missing oneUser 3000 id9 joUpper 9%N "JO@X.com" joDoc).
  - exact oneUser_ok.
  - vm_compute; reflexivity.
  - intros x [<- | []]. vm_compute. discriminate.
  - reflexivity.
  - now left.
  - vm_compute; reflexivity.
Defined.

(** C5, as amended.  In a state that the routes produce: a delete
    addressed to a well-formed id that no record has is answered 404 and
    leaves the state as it is (a string that is no ObjectId is answered
    500 with the cast error, the state again left as it is); a delete
    addressed to the id of a record is answered 200 with that record,
    which is then gone from the collection while the other records stay;
    the same delete repeated, and a read of the id, are answered 404. *)
Theorem delete_spec (st : State) (id : string) :
  store_ok st ->
  (castObjectId id = None ->
   delete_user st id =
     (st, mkResponse 500 (ErrorBody (MessageOf (CastError id "_id")))))
  /\
  (forall oid, castObjectId id = Some oid ->
   (forall d, In d (users st) -> _id d <> oid) ->
   delete_user st id = (st, mkResponse 404 (ErrorBody (Text "User not found"))))
  /\
  (forall oid d, castObjectId id = Some oid -> In d (users st) -> _id d = oid ->
   exists st',
     delete_user st id =
       (st', mkResponse 200 (MessageUserBody "User deleted successfully" d)) /\
     ~ In d (users st') /\
     (forall x, In x (users st') <-> In x (users st) /\ _id x <> oid) /\
     oidCounter st' = oidCounter st /\
     delete_user st' id = (st', mkResponse 404 (ErrorBody (Text "User not found"))) /\
     get_user st' id = mkResponse 404 (ErrorBody (Text "User not found"))).
Proof.
  intros Hok. split; [|split].
  - intros Hc. unfold delete_user, findByIdAndDelete. now rewrite Hc.
  - intros oid Hc Hmissing. unfold delete_user, findByIdAndDelete.
    rewrite Hc, (proj2 (find_hasId_None oid (users st)) Hmissing). reflexivity.
  - intros oid d Hc Hd Hid.
    exists {| users := removeDoc oid (users st); oidCounter := oidCounter st |}.
    assert (Hgone : forall x, In x (removeDoc oid (users st)) -> _id x <> oid).
    { intros x Hx. now apply removeDoc_In in Hx. }
    split; [|split; [|split; [|split; [|split]]]].
    + unfold delete_user, findByIdAndDelete.
      rewrite Hc, (find_hasId_Some oid (users st) d (ok_ids_distinct st Hok) Hd Hid).
      reflexivity.
    + simpl. intros Hin. now apply (Hgone d Hin).
    + intros x. simpl. apply removeDoc_In.
    + reflexivity.
    + unfold delete_user, findByIdAndDelete. rewrite Hc. simpl.
      now rewrite (proj2 (find_hasId_None oid _) Hgone).
    + unfold get_user, findById. rewrite Hc. simpl.
      now rewrite (proj2 (find_hasId_None oid _) Hgone).
Qed.

Lemma delete_spec_witness :
  delete_user twoUsers id9 =
    (twoUsers, mkResponse 404 (ErrorBody (Text "User not found")))
  /\
  exists st',
    delete_user twoUsers id0 =
      (st', mkResponse 200 (MessageUserBody "User deleted successfully" joDoc)) /\
    users st' = [bobDoc] /\
    delete_user st' id0 = (st', mkResponse 404 (ErrorBody (Text "User not found"))).
Proof.
  destruct (delete_spec twoUsers id9 twoUsers_ok) as (_ & Hmissing & _).
  destruct (delete_spec twoUsers id0 twoUsers_ok) as (_ & _ & Hfound).
  split.
  - apply (Hmissing 9%N); [vm_compute; reflexivity|].
    intros d [<- | [<- | []]]; vm_compute; discriminate.
  - destruct (Hfound 0%N joDoc) as (st' & Hdel & _ & _ & _ & Hagain & _).
    + vm_compute; reflexivity.
    + now left.
    + reflexivity.
    + exists st'. split; [exact Hdel|]. split; [|exact Hagain].
      assert (Hst : st' = fst (delete_user twoUsers id0)) by now rewrite Hdel.
      rewrite Hst. vm_compute. reflexivity.
Defined.

(** C5 as stated fails: no record has the id [abc], and the delete is
    answered 500, not 404, because the string is no ObjectId. *)
Lemma delete_malformed_id_is_500 :
  (forall d, In d (users oneUser) -> castObjectId "abc" <> Some (_id d)) /\
  delete_user oneUser "abc" =
    (oneUser, mkResponse 500 (ErrorBody (MessageOf (CastError "abc" "_id")))) /\
  status (snd (delete_user oneUser "abc")) <> 404%Z.
Proof.
  split; [|split].
  - intros d _. vm_compute. discriminate.
  - vm_compute. reflexivity.
  - vm_compute. discriminate.
Qed.

(** C4, as amended.  An update that is answered 200 was addressed to a
    record of the collection; the record it returns has the id and the
    creation time of that record and the time of the request as its
    update time; it takes the place of the former record, and every
    record with another id is in the collection after the update as it
    was before.  The update time is later than the former one exactly
    when the clock, at the request, reads later than the former update
    time. *)
Theorem update_frame (st : State) (now : Z) (id : string) (b : Fields)
        (st' : State) (resp : Response) :
  store_ok st ->
  put_user st now id b = (st', resp) -> status resp = 200%Z ->
  exists old new,
    In old (users st) /\ castObjectId id = Some (_id old) /\
    resp = mkResponse 200 (MessageUserBody "User updated successfully" new) /\
    In new (users st') /\
    _id new = _id old /\
    createdAt new = createdAt old /\
    updatedAt new = now /\
    ((updatedAt old < updatedAt new)%Z <-> (updatedAt old < now)%Z) /\
    users st' = map (fun d => if N.eqb (_id d) (_id old) then new else d) (users st) /\
    (forall d, In d (users st) -> _id d <> _id old -> In d (users st')) /\
    (forall d, In d (users st') -> d = new \/ (In d (users st) /\ _id d <> _id old)) /\
    oidCounter st' = oidCounter st.
Proof.
  intros Hok Hput Hs.
  destruct (put_user_200 _ _ _ _ _ _ Hput Hs) as (u & Hu & ->).
  apply findByIdAndUpdate_Some in Hu as (oid & d & Hc & Hf & _ & Hu & _ & ->).
  apply find_some in Hf as [Hd Hid]. apply hasId_true in Hid. subst oid.
  assert (Hidu : _id u = _id d) by (rewrite Hu; reflexivity).
  assert (Hnow : updatedAt u = now) by (rewrite Hu; reflexivity).
  exists d, u. simpl.
  split; [exact Hd|]. split; [exact Hc|]. split; [reflexivity|].
  split.
  { unfold replaceDoc. apply in_map_iff. exists d. split; [|exact Hd].
    now rewrite (proj2 (hasId_true (_id u) d) (eq_sym Hidu)). }
  split; [exact Hidu|].
  split; [rewrite Hu; reflexivity|].
  split; [exact Hnow|].
  split; [rewrite Hnow; reflexivity|].
  split; [unfold replaceDoc, hasId; now rewrite Hidu|].
  split.
  { intros x Hx Hne. apply replaceDoc_others; [exact Hx | now rewrite Hidu]. }
  split; [|reflexivity].
  intros x Hx. apply replaceDoc_In in Hx as [-> | [Hx Hne]]; [now left|].
  right. split; [exact Hx | now rewrite <- Hidu].
Qed.

Lemma update_frame_witness :
  exists old new,
    In old (users twoUsers) /\ castObjectId id0 = Some (_id old) /\
    _id new = _id old /\ createdAt new = createdAt old /\
    updatedAt new = 3000%Z /\ (updatedAt old < updatedAt new)%Z /\
    In bobDoc (users (fst (put_user twoUsers 3000 id0 joUpper))).
Proof.
  destruct (update_frame twoUsers 3000 id0 joUpper
              (fst (put_user twoUsers 3000 id0 joUpper))
              (snd (put_user twoUsers 3000 id0 joUpper)) twoUsers_ok)
    as (old & new & Hold & Hc & _ & _ & Hid & Hcr & Hup & Hadv & _ & Hothers & _).
  - vm_compute; reflexivity.
  - vm_compute; reflexivity.
  - assert (Ho : old = joDoc).
    { destruct Hold as [<- | [<- | []]]; [reflexivity|].
      vm_compute in Hc. discriminate Hc. }
    subst old. exists joDoc, new.
    split; [now left|]. split; [exact Hc|]. split; [exact Hid|].
    split; [exact Hcr|]. split; [exact Hup|].
    split; [apply Hadv; vm_compute; reflexivity|].
    apply Hothers; [right; now left | vm_compute; discriminate].
Defined.

(** C4 as stated fails: the update time does not always advance.  The
    record below was created at time 1000.  An update served within the
    same millisecond is answered 200 and leaves the update time at 1000;
    an update served after the clock was set back to 500 is answered 200
    and moves the update time back. *)
Lemma update_keeps_or_turns_back_updatedAt :
  fst (post_users emptyState 1000 jo) = oneUser /\
  users oneUser = [joDoc] /\ updatedAt joDoc = 1000%Z /\
  (exists new,
     put_user oneUser 1000 id0 joUpper =
       (mkState [new] 1, mkResponse 200 (MessageUserBody "User updated successfully" new)) /\
     updatedAt new = 1000%Z /\
     ~ (updatedAt joDoc < updatedAt new)%Z) /\
  (exists new,
     put_user oneUser 500 id0 joUpper =
       (mkState [new] 1, mkResponse 200 (MessageUserBody "User updated successfully" new)) /\
     updatedAt new = 500%Z /\
     (updatedAt new < updatedAt joDoc)%Z).
Proof.
  split; [vm_compute; reflexivity|].
  split; [reflexivity|]. split; [reflexivity|].
  split; eexists; (split; [vm_compute; reflexivity|]); cbn; lia.
Qed.

End UsersSpec.

(** ** Sorting and pages *)

Module PagingFacts.
Import Js UserModel Mongoose Users Notions.
Local Open Scope list_scope.

Lemma insertDesc_perm (x : User) (l : list User) :
  Permutation (insertDesc x l) (x :: l).
Proof.
  induction l as [|y l IH]; simpl; [reflexivity|].
  destruct (createdAt x <? createdAt y)%Z; [|reflexivity].
  rewrite IH. apply perm_swap.
Qed.

Lemma sortDesc_perm (l : list User) : Permutation (sortDesc l) l.
Proof.
  induction l as [|x l IH]; simpl; [reflexivity|].
  rewrite insertDesc_perm. now constructor.
Qed.

Lemma insertDesc_head (y x : User) (l : list User) :
  newerOrSame y x -> HdRel newerOrSame y l -> HdRel newerOrSame y (insertDesc x l).
Proof.
  intros Hyx Hl. destruct l as [|z l]; simpl; [now constructor|].
  destruct (createdAt x <? createdAt z)%Z; constructor; [|exact Hyx].
  now inversion Hl.
Qed.

Lemma insertDesc_sorted (x : User) (l : list User) :
  Sorted newerOrSame l -> Sorted newerOrSame (insertDesc x l).
Proof.
  induction l as [|y l IH]; simpl; intros Hs.
  - repeat constructor.
  - inversion Hs as [|? ? Hl Hy]; subst.
    destruct (createdAt x <? createdAt y)%Z eqn:E.
    + apply Z.ltb_lt in E. constructor; [now apply IH|].
      apply insertDesc_head; [unfold newerOrSame; lia | exact Hy].
    + apply Z.ltb_ge in E. constructor; [exact Hs|].
      constructor. exact E.
Qed.

Lemma sortDesc_sorted (l : list User) : Sorted newerOrSame (sortDesc l).
Proof.
  induction l as [|x l IH]; simpl; [constructor | now apply insertDesc_sorted].
Qed.

Lemma firstn_plus {A : Type} (a b : nat) (l : list A) :
  firstn (a + b) l = firstn a l ++ firstn b (skipn a l).
Proof.
  revert l. induction a as [|a IH]; intros l; simpl; [reflexivity|].
  destruct l as [|x l]; simpl; [now rewrite firstn_nil | now rewrite IH].
Qed.

(** Pages of [size] elements, numbered from zero, put end to end. *)
Lemma concat_pages {A : Type} (size n : nat) (l : list A) :
  List.concat (map (fun i => firstn size (skipn (i * size) l)) (seq 0 n)) =
  firstn (n * size) l.
Proof.
  induction n as [|n IH]; [reflexivity|].
  rewrite seq_S, map_app, concat_app, IH. simpl.
  rewrite app_nil_r, (Nat.add_comm size (n * size)). symmetry. apply firstn_plus.
Qed.

(** [ceilDiv n size] is the least number of pages of [size] elements that
    hold [n] elements. *)
Lemma ceilDiv_spec (n size : Z) :
  (0 <= n)%Z -> (1 <= size)%Z ->
  (n <= ceilDiv n size * size < n + size)%Z.
Proof.
  intros Hn Hs. unfold ceilDiv.
  pose proof (Z.mul_div_le (- n) size ltac:(lia)) as H1.
  pose proof (Z.mul_succ_div_gt (- n) size ltac:(lia)) as H2.
  nia.
Qed.

Lemma ceilDiv_nonneg (n size : Z) :
  (0 <= n)%Z -> (1 <= size)%Z -> (0 <= ceilDiv n size)%Z.
Proof. intros Hn Hs. pose proof (ceilDiv_spec n size Hn Hs). nia. Qed.

Lemma find_page (st : State) (order : Scan) (p size : Z) :
  (1 <= p)%Z -> (1 <= size)%Z ->
  find_skip_limit_sort st order ((p - 1) * size) size =
  Ok (firstn (Z.to_nat size)
             (skipn (Z.to_nat ((p - 1) * size))
                    (sortDesc (scanned order (users st))))).
Proof.
  intros Hp Hs. unfold find_skip_limit_sort.
  destruct ((p - 1) * size <? 0)%Z eqn:E; [apply Z.ltb_lt in E; nia|].
  destruct (size =? 0)%Z eqn:E0; [apply Z.eqb_eq in E0; lia|].
  now rewrite Z.abs_eq by lia.
Qed.

(** *** Scans *)

Lemma takeAt_perm {A : Type} (i : nat) (l : list A) (x : A) (rest : list A) :
  takeAt i l = Some (x, rest) -> Permutation l (x :: rest).
Proof.
  revert i x rest. induction l as [|y l IH]; intros i x rest; simpl;
    [intros H; discriminate H|].
  destruct i as [|i].
  - intros H. injection H as <- <-. reflexivity.
  - destruct (takeAt i l) as [[z rest']|] eqn:E; [|intros H; discriminate H].
    intros H. injection H as <- <-.
    rewrite (IH i z rest' E). apply perm_swap.
Qed.

(** A scan rearranges the documents: none is lost, none comes twice. *)
Lemma scanned_perm {A : Type} (order : Scan) (l : list A) :
  Permutation (scanned order l) l.
Proof.
  revert l. induction order as [|i order IH]; intros l; simpl; [reflexivity|].
  destruct (takeAt i l) as [[x rest]|] eqn:E; [|apply IH].
  rewrite (takeAt_perm i l x rest E). constructor. apply IH.
Qed.

Lemma takeAt_In {A : Type} (x : A) (l : list A) :
  In x l -> exists i rest, takeAt i l = Some (x, rest).
Proof.
  induction l as [|y l IH]; simpl; [contradiction|].
  intros [-> | Hin].
  - now exists 0%nat, l.
  - destruct (IH Hin) as (i & rest & E).
    exists (S i), (y :: rest). now rewrite E.
Qed.

(** Every rearrangement is the result of some scan. *)
Lemma any_scan {A : Type} (l l' : list A) :
  Permutation l l' -> exists order, scanned order l = l'.
Proof.
  revert l. induction l' as [|x l' IH]; intros l Hp.
  - exists []. simpl. apply Permutation_sym in Hp. now apply Permutation_nil in Hp.
  - assert (Hin : In x l).
    { apply (Permutation_in x (Permutation_sym Hp)). now left. }
    destruct (takeAt_In x l Hin) as (i & rest & E).
    assert (Hrest : Permutation rest l').
    { apply (Permutation_cons_inv (a := x)).
      rewrite <- (takeAt_perm i l x rest E). exact Hp. }
    destruct (IH rest Hrest) as [order Ho].
    exists (i :: order). simpl. now rewrite E, Ho.
Qed.

(** *** Sorted answers *)

Lemma newerOrSame_trans (a b c : User) :
  newerOrSame a b -> newerOrSame b c -> newerOrSame a c.
Proof. unfold newerOrSame. lia. Qed.

Lemma sorted_head_newest (x : User) (l : list User) :
  Sorted newerOrSame (x :: l) -> forall d, In d l -> newerOrSame x d.
Proof.
  intros Hs. apply Sorted_StronglySorted in Hs.
  - inversion Hs as [|? ? _ Hall]; subst. now apply Forall_forall.
  - intros a b c. apply newerOrSame_trans.
Qed.

(** The sort leaves a sorted list as it is. *)
Lemma sortDesc_of_sorted (l : list User) : Sorted newerOrSame l -> sortDesc l = l.
Proof.
  induction l as [|x l IH]; intros Hs; simpl; [reflexivity|].
  inversion Hs as [|? ? Hl Hx]; subst. rewrite (IH Hl).
  destruct l as [|y l]; simpl; [reflexivity|].
  inversion Hx as [|? ? Hxy]; subst. unfold newerOrSame in Hxy.
  destruct (createdAt x <? createdAt y)%Z eqn:E; [apply Z.ltb_lt in E; lia | reflexivity].
Qed.

(** With distinct keys there is one sorted rearrangement only. *)
Lemma sorted_perm_unique (a b : list User) :
  NoDup (map createdAt a) -> Permutation a b ->
  Sorted newerOrSame a -> Sorted newerOrSame b -> a = b.
Proof.
  revert b. induction a as [|x a IH]; intros b Hnd Hp Ha Hb.
  - now apply Permutation_nil in Hp.
  - destruct b as [|y b].
    + apply Permutation_sym in Hp. now apply Permutation_nil in Hp.
    + inversion Hnd as [|? ? Hx Hnd']; subst.
      assert (Hxy : x = y).
      { assert (Hy : In y (x :: a)).
        { apply (Permutation_in y (Permutation_sym Hp)). now left. }
        destruct Hy as [E | Hy]; [exact E|].
        assert (Hx' : In x (y :: b)).
        { apply (Permutation_in x Hp). now left. }
        destruct Hx' as [E | Hx']; [now symmetry|].
        pose proof (sorted_head_newest x a Ha y Hy) as H1.
        pose proof (sorted_head_newest y b Hb x Hx') as H2.
        unfold newerOrSame in H1, H2.
        exfalso. apply Hx. replace (createdAt x) with (createdAt y) by lia.
        now apply in_map. }
      subst y. f_equal. apply IH.
      * exact Hnd'.
      * now apply Permutation_cons_inv in Hp.
      * now inversion Ha.
      * now inversion Hb.
Qed.

(** With distinct keys the order of the scan does not show in the
    answer. *)
Lemma sortDesc_scanned (order : Scan) (l : list User) :
  NoDup (map createdAt l) -> sortDesc (scanned order l) = sortDesc l.
Proof.
  intros Hnd. apply sorted_perm_unique.
  - apply (Permutation_NoDup (l := map createdAt l)); [|exact Hnd].
    apply Permutation_map. rewrite sortDesc_perm. symmetry. apply scanned_perm.
  - rewrite !sortDesc_perm. apply scanned_perm.
  - apply sortDesc_sorted.
  - apply sortDesc_sorted.
Qed.

(** Every sorted rearrangement of the collection is the answer of the
    sort for some scan. *)
Lemma any_sorted_answer (l l' : list User) :
  Permutation l l' -> Sorted newerOrSame l' ->
  exists order, sortDesc (scanned order l) = l'.
Proof.
  intros Hp Hs. destruct (any_scan l l' Hp) as [order Ho].
  exists order. rewrite Ho. now apply sortDesc_of_sorted.
Qed.

End PagingFacts.

(** ** The list route *)

Module ListSpec.
Import Js UserModel Mongoose Users Notions PagingFacts Sample.
Local Open Scope list_scope.

Lemma page_of_list_users (st : State) (order : Scan) (i : nat) (size : Z) :
  (1 <= size)%Z ->
  usersOnPage (list_users st order (Z.of_nat (S i)) size) =
  firstn (Z.to_nat size)
         (skipn (i * Z.to_nat size) (sortDesc (scanned order (users st)))).
Proof.
  intros Hs. remember (Z.of_nat (S i)) as p eqn:Ep.
  unfold list_users. rewrite find_page by lia.
  unfold usersOnPage. cbn [body].
  replace (Z.to_nat ((p - 1) * size)) with (i * Z.to_nat size)%nat;
    [reflexivity|].
  replace (p - 1)%Z with (Z.of_nat i) by lia.
  rewrite Z2Nat.inj_mul by lia. now rewrite Nat2Z.id.
Qed.

(** The pages [1 .. totalPages], each with the scan of its own query, when
    the sort gives the same list for each of these scans. *)
Lemma pages_end_to_end (st : State) (orders : Z -> Scan) (size : Z)
      (sorted : list User) :
  (1 <= size)%Z ->
  (forall i, sortDesc (scanned (orders i) (users st)) = sorted) ->
  List.concat
    (map (fun i => usersOnPage (list_users st (orders i) i size))
         (pageNumbers (ceilDiv (Z.of_nat (List.length (users st))) size))) =
  sorted.
Proof.
  intros Hs Hsame.
  set (total := Z.of_nat (List.length (users st))).
  assert (Htotal : (0 <= total)%Z) by (unfold total; lia).
  pose proof (ceilDiv_spec total size Htotal Hs) as Hceil.
  pose proof (ceilDiv_nonneg total size Htotal Hs) as Hpages.
  unfold pageNumbers. rewrite <- seq_shift, !map_map.
  rewrite (map_ext _ (fun i => firstn (Z.to_nat size)
                                 (skipn (i * Z.to_nat size) sorted))).
  - rewrite concat_pages. apply firstn_all2.
    rewrite <- (Hsame 0%Z), (Permutation_length (sortDesc_perm _)),
      (Permutation_length (scanned_perm _ _)).
    apply Nat2Z.inj_le. rewrite Nat2Z.inj_mul, !Z2Nat.id by lia.
    fold total. lia.
  - intros i. rewrite page_of_list_users by exact Hs. now rewrite Hsame.
Qed.




(** C7, as amended.  A [page] or [limit] parameter that is absent, that
    does not start with a number, or that is zero is replaced by its
    default (page 1, limit 10) before the skip and the limit of the query
    are computed; a positive number is used as it is. *)
Theorem list_defaults (st : State) (order : Scan) (q : Query) :
  (q_page q = None -> pageOf q = 1%Z) /\
  (q_limit q = None -> limitOf q = 10%Z) /\
  (parseIntParam (q_page q) = None \/ parseIntParam (q_page q) = Some 0%Z ->
   pageOf q = 1%Z) /\
  (parseIntParam (q_limit q) = None \/ parseIntParam (q_limit q) = Some 0%Z ->
   limitOf q = 10%Z) /\
  (forall n, parseIntParam (q_page q) = Some n -> (0 < n)%Z -> pageOf q = n) /\
  (forall n, parseIntParam (q_limit q) = Some n -> (0 < n)%Z -> limitOf q = n) /\
  skipOf q = ((pageOf q - 1) * limitOf q)%Z /\
  get_users st order q = list_users st order (pageOf q) (limitOf q).
Proof.
  unfold pageOf, limitOf, skipOf, get_users.
  repeat split.
  - now intros ->.
  - now intros ->.
  - now intros [-> | ->].
  - now intros [-> | ->].
  - intros n -> Hn. destruct n; simpl; [lia | reflexivity | lia].
  - intros n -> Hn. destruct n; simpl; [lia | reflexivity | lia].
Qed.

Lemma list_defaults_witness :
  pageOf (mkQuery None (Some "abc")) = 1%Z /\
  limitOf (mkQuery None (Some "abc")) = 10%Z /\
  pageOf (mkQuery (Some "0") (Some "25")) = 1%Z /\
  limitOf (mkQuery (Some "0") (Some "25")) = 25%Z.
Proof.
  destruct (list_defaults twoUsers [] (mkQuery None (Some "abc")))
    as (Hp & _ & _ & Hl & _).
  destruct (list_defaults twoUsers [] (mkQuery (Some "0") (Some "25")))
    as (_ & _ & Hp0 & _ & _ & Hl25 & _).
  split; [apply Hp; reflexivity|].
  split; [apply Hl; left; vm_compute; reflexivity|].
  split; [apply Hp0; right; vm_compute; reflexivity|].
  apply Hl25; [vm_compute; reflexivity | lia].
Defined.

(** C7 as stated fails: a negative [page] or [limit] is not positive and
    is not replaced by the default.  With [page=-5] the skip is negative
    and the request is answered 500. *)
Lemma list_negative_not_clamped :
  parseIntParam (q_page (mkQuery (Some "-5") None)) = Some (-5)%Z /\
  pageOf (mkQuery (Some "-5") None) = (-5)%Z /\
  pageOf (mkQuery (Some "-5") None) <> 1%Z /\
  skipOf (mkQuery (Some "-5") None) = (-60)%Z /\
  limitOf (mkQuery None (Some "-5")) = (-5)%Z /\
  limitOf (mkQuery None (Some "-5")) <> 10%Z /\
  (forall order,
     status (get_users twoUsers order (mkQuery (Some "-5") None)) = 500%Z).
Proof.
  do 6 (split; [vm_compute; congruence|]).
  intros order. vm_compute. reflexivity.
Qed.

End ListSpec.

(** ** The search route *)

Module SearchFacts.
Import Js JsFacts Regex UserModel Mongoose Users Notions.

Lemma run_nil (r : re) : run r [] = [].
Proof.
  induction r as [| |p|a IHa b IHb|a IHa b IHb|a IHa]; simpl; try reflexivity.
  - now rewrite IHa.
  - now rewrite IHa, IHb.
Qed.

Lemma prefixMatch_Eps (s : string) : prefixMatch Eps s = true.
Proof. reflexivity. Qed.

Lemma prefixMatch_Chr_empty (p : ascii -> bool) (r : re) :
  prefixMatch (Seq (Chr p) r) EmptyString = false.
Proof. unfold prefixMatch. simpl. now rewrite run_nil. Qed.

Lemma prefixMatch_Chr (p : ascii -> bool) (r : re) (c : ascii) (s : string) :
  prefixMatch (Seq (Chr p) r) (String c s) = p c && prefixMatch r s.
Proof.
  unfold prefixMatch. simpl. destruct (p c); simpl; [reflexivity|].
  now rewrite run_nil.
Qed.

Lemma sameLetter_eqb (a b : ascii) :
  sameLetter a b = Ascii.eqb (lowerChar a) (lowerChar b).
Proof.
  unfold sameLetter, code.
  destruct (Ascii.eqb_spec (lowerChar a) (lowerChar b)) as [E | E].
  - rewrite E. apply N.eqb_refl.
  - apply N.eqb_neq. intros H. apply E.
    rewrite <- (ascii_N_embedding (lowerChar a)), <- (ascii_N_embedding (lowerChar b)).
    now rewrite H.
Qed.

Lemma prefixMatch_literalI (q s : string) :
  prefixMatch (literalI q) s = startsWithI q s.
Proof.
  revert s. induction q as [|a q IH]; intros s.
  - now destruct s.
  - destruct s as [|b s]; cbn [literalI startsWithI].
    + apply prefixMatch_Chr_empty.
    + now rewrite prefixMatch_Chr, IH, sameLetter_eqb.
Qed.

Lemma search_literalI (q s : string) : search (literalI q) s = containsI q s.
Proof.
  induction s as [|b s IH]; cbn [search containsI];
    rewrite prefixMatch_literalI; [reflexivity | now rewrite IH].
Qed.

Lemma dot_isMeta (c : ascii) : isMeta c = false -> N.eqb (code c) 46 = false.
Proof.
  intros H. destruct (N.eqb (code c) 46) eqn:E; [|reflexivity].
  apply N.eqb_eq in E. unfold isMeta, isOneOf in H. rewrite E in H.
  discriminate H.
Qed.

Lemma compileI_plain (q : string) : plain q = true -> compileI q = Some (literalI q).
Proof.
  induction q as [|c q IH]; simpl; [reflexivity|].
  intros H. apply andb_true_iff in H as [Hc Hq]. apply negb_true_iff in Hc.
  now rewrite (IH Hq), (dot_isMeta c Hc), Hc.
Qed.

Lemma startsWithI_spec (q s : string) :
  startsWithI q s = true <-> exists post, toLowerCase s = toLowerCase q ++ post.
Proof.
  revert s. induction q as [|a q IH]; intros s.
  - split; [intros _; now exists (toLowerCase s) | now destruct s].
  - destruct s as [|b s]; cbn [startsWithI toLowerCase].
    + split; [discriminate | intros [post H]; discriminate H].
    + rewrite andb_true_iff, IH. split.
      * intros [Hab [post Hpost]]. apply Ascii.eqb_eq in Hab.
        exists post. simpl. now rewrite Hab, Hpost.
      * intros [post H]. simpl in H. injection H as Hab Hpost.
        split; [apply Ascii.eqb_eq; now symmetry | now exists post].
Qed.

Lemma containsI_spec (q s : string) : containsI q s = true <-> ContainsI q s.
Proof.
  unfold ContainsI. induction s as [|b s IH]; cbn [containsI].
  - rewrite orb_false_r, startsWithI_spec. split.
    + intros [post H]. now exists EmptyString, post.
    + intros (pre & post & H). destruct pre; [now exists post | discriminate H].
  - rewrite orb_true_iff, startsWithI_spec, IH. split.
    + intros [[post H] | (pre & post & H)].
      * now exists EmptyString, post.
      * exists (String (lowerChar b) pre), post. simpl. now rewrite H.
    + intros (pre & post & H). destruct pre as [|c pre].
      * left. now exists post.
      * right. simpl in H. injection H as _ H. now exists pre, post.
Qed.

Lemma containsI_empty (s : string) : containsI EmptyString s = true.
Proof. now destruct s. Qed.

End SearchFacts.

Module SearchSpec.
Import Js Regex UserModel Mongoose Express Users Notions PagingFacts SearchFacts Sample.

Lemma decodeParam_nonempty (c : ascii) (s v : string) :
  decodeParam (String c s) = Decoded v -> v <> EmptyString.
Proof.
  assert (Hp : forall a d, prepend a d = Decoded v -> v <> EmptyString).
  { intros a [t| |]; cbn; intros H; try discriminate H.
    injection H as <-. discriminate. }
  simpl. destruct (Ascii.eqb c "%").
  - destruct s as [|h1 [|h2 rest]]; try (intros H; discriminate H).
    destruct (digitVal 16 h1), (digitVal 16 h2); try (intros H; discriminate H).
    match goal with |- context [N.ltb ?x 128] => destruct (N.ltb x 128) end;
      [apply Hp | intros H; discriminate H].
  - destruct (N.ltb (code c) 128); [apply Hp | intros H; discriminate H].
Qed.

(** A parameter without percent sign is taken as it is written. *)
Lemma decodeParam_noEscape (q : string) :
  noEscape q = true -> decodeParam q = Decoded q.
Proof.
  induction q as [|c q IH]; [reflexivity|].
  cbn [noEscape]. intros H. apply andb_true_iff in H as [H Hq].
  apply andb_true_iff in H as [Hc Ha].
  apply negb_true_iff in Hc. simpl. now rewrite Hc, Ha, (IH Hq).
Qed.

(** The search route is given requests of the [GET] kind only, and never
    the empty query: a parameter is a segment that is not empty. *)
Lemma dispatch_search (m : Method) (p q : string) :
  dispatch m p = SearchUsers q -> isGet m = true /\ q <> EmptyString.
Proof.
  unfold dispatch, atRoot, atParam, atWordParam, withParam.
  destruct (segments p) as [[|s1 [|s2 [|s3 l]]]|];
    try destruct s1 as [|a1 s1]; try destruct s2 as [|a2 s2]; cbv beta iota;
    try (destruct m; cbn; intros H; discriminate H).
  - destruct (decodeParam (String a1 s1)); destruct m; cbn; intros H; discriminate H.
  - destruct (String.eqb (toLowerCase (String a1 s1)) "search");
      [|destruct m; cbn; intros H; discriminate H].
    destruct (decodeParam (String a2 s2)) as [v| |] eqn:E;
      try (destruct m; cbn; intros H; discriminate H).
    apply decodeParam_nonempty in E.
    destruct m; cbn; intros H; try discriminate H;
      injection H as <-; (split; [reflexivity | exact E]).
Qed.

Lemma splitPath_segment (q : string) : noSlash q = true -> splitPath q = [q].
Proof.
  induction q as [|c q IH]; cbn [noSlash splitPath]; [reflexivity|].
  intros H. apply andb_true_iff in H as [Hc Hq]. apply negb_true_iff in Hc.
  now rewrite Hc, (IH Hq).
Qed.

(** A request for [/search/raw], where [raw] is one segment, is given to
    the search route with the query that [raw] stands for. *)
Lemma dispatch_search_path (m : Method) (raw q : string) :
  isGet m = true -> raw <> EmptyString -> noSlash raw = true ->
  decodeParam raw = Decoded q ->
  dispatch m ("/search/" ++ raw) = SearchUsers q.
Proof.
  intros Hm Hq Hs Hd. unfold dispatch, segments.
  cbn [append splitPath Ascii.eqb Bool.eqb]. rewrite (splitPath_segment raw Hs).
  destruct raw as [|c raw]; [now elim Hq|].
  unfold atRoot, atParam, atWordParam, withParam. cbn [dropTrailing].
  rewrite Hd. change (String.eqb (toLowerCase "search") "search") with true.
  cbv iota. destruct m; try discriminate Hm; reflexivity.
Qed.




End SearchSpec.

(** ** The health views *)

Module HealthFacts.
Import Js HealthCheck Express Server Notions.

Lemma storeUp_dec (c : Connection) :
  storeUp c \/ (readyState c <> 1%Z \/ exists m, ping c = Raises m).
Proof.
  unfold storeUp. destruct (Z.eq_dec (readyState c) 1) as [E | E]; [|now right; left].
  destruct (ping c) as [t | m]; [left | right; right]; eauto.
Qed.

Lemma storeUp_not_down (c : Connection) :
  storeUp c -> ~ (readyState c <> 1%Z \/ exists m, ping c = Raises m).
Proof.
  intros [Hr [t Ht]] [H | [m Hm]]; [now apply H | congruence].
Qed.

Lemma checkReadiness_up (c : Connection) (p : Process) :
  storeUp c -> ready_status (checkReadiness c p) = "READY".
Proof.
  intros [Hr [t Ht]]. unfold checkReadiness. now rewrite Hr, Ht.
Qed.

Lemma checkReadiness_down (c : Connection) (p : Process) :
  readyState c <> 1%Z \/ (exists m, ping c = Raises m) ->
  ready_status (checkReadiness c p) = "NOT_READY".
Proof.
  intros H. unfold checkReadiness.
  destruct (readyState c =? 1)%Z eqn:E; [|reflexivity].
  destruct H as [H | [m ->]]; [|reflexivity].
  apply Z.eqb_eq in E. now elim H.
Qed.

Lemma checkDatabase_up (c : Connection) :
  storeUp c -> db_status (checkDatabase c) = "OK" /\ db_error (checkDatabase c) = None.
Proof.
  intros [Hr [t Ht]]. unfold checkDatabase. now rewrite Hr, Ht.
Qed.

Lemma checkDatabase_down (c : Connection) :
  readyState c <> 1%Z \/ (exists m, ping c = Raises m) ->
  db_status (checkDatabase c) = "ERROR" /\
  exists message, db_error (checkDatabase c) = Some message.
Proof.
  intros H. unfold checkDatabase.
  destruct (readyState c =? 1)%Z eqn:E; [|simpl; eauto].
  destruct H as [H | [m ->]]; [|simpl; eauto].
  apply Z.eqb_eq in E. now elim H.
Qed.

Lemma ready_route (k : Counters) (c : Connection) (p : Process) :
  serve k c p (mkRequest GET "/ready") = (k, ready c p).
Proof. reflexivity. Qed.

Lemma alive_route (k : Counters) (c : Connection) (p : Process) :
  serve k c p (mkRequest GET "/alive") = (k, alive p).
Proof. reflexivity. Qed.

Lemma routeMatches_health_mount (p : string) :
  routeMatches "/health" p = true -> mountMatches "/health" p = true.
Proof.
  unfold routeMatches, mountMatches. intros H.
  apply orb_true_iff in H as [H | H]; apply String.eqb_eq in H; now rewrite H.
Qed.

(** Only the first route answers with a basic-health body. *)
Lemma basic_check_under_mount (c : Connection) (p : Process) (k : Counters)
      (r : Request) :
  isBasicCheck (route c p k r) = true -> mountMatches "/health" (path r) = true.
Proof.
  unfold route.
  destruct (isGet (method r) && routeMatches "/health" (path r)) eqn:E.
  - intros _. apply andb_true_iff in E as [_ E]. now apply routeMatches_health_mount.
  - unfold isBasicCheck, pong, health_detailed, health_database, ready, alive,
      metrics, health_dashboard.
    repeat match goal with
           | |- context [if ?b then _ else _] => destruct b
           | |- context [match ?o with Returns _ => _ | Raises _ => _ end] => destruct o
           end; simpl; discriminate.
Qed.

Lemma passedOn_true (r : Request) :
  passedOn r = true <-> method r <> OPTIONS /\ payload r <> Unparsable.
Proof.
  unfold passedOn, answeredByCors, refusedByParsers.
  destruct (method r), (payload r); cbn; split;
    try (intros H; discriminate H);
    try (intros [H1 H2]; congruence);
    try (intros _; split; discriminate); reflexivity.
Qed.

(** A request that does not get as far as the mount is answered before
    it, and the counters stay as they are. *)
Lemma serve_not_passed (k : Counters) (c : Connection) (p : Process) (r : Request) :
  passedOn r = false ->
  fst (serve k c p r) = k /\
  (snd (serve k c p r) = mkResponse 204 NoContent \/
   snd (serve k c p r) = mkResponse 500 InternalServerError).
Proof.
  unfold serve, passedOn.
  destruct (answeredByCors r); [intros _; split; [reflexivity | now left]|].
  destruct (refusedByParsers r); [intros _; split; [reflexivity | now right]|].
  discriminate.
Qed.

Lemma serve_passed (k : Counters) (c : Connection) (p : Process) (r : Request) :
  passedOn r = true ->
  serve k c p r = (healthCounter p k r, route c p (healthCounter p k r) r).
Proof.
  unfold serve, passedOn.
  destruct (answeredByCors r); [discriminate|].
  destruct (refusedByParsers r); [discriminate | reflexivity].
Qed.

(** The handlers of this file do not read the body: a request with a
    body that the parsers read is served as the same request without
    body. *)
Lemma serve_with_body (k : Counters) (c : Connection) (p : Process)
      (m : Method) (pth : string) (b : Payload) :
  b <> Unparsable ->
  serve k c p (mkRequestWith m pth b) = serve k c p (mkRequest m pth).
Proof.
  intros Hb. unfold serve, answeredByCors, refusedByParsers, mkRequest.
  cbn [method payload]. destruct b; [reflexivity | reflexivity | now elim Hb].
Qed.

Lemma serve_count (k : Counters) (c : Connection) (p : Process) (r : Request) :
  healthCheckCount (fst (serve k c p r)) =
  (healthCheckCount k +
   if passedOn r && mountMatches "/health" (path r) then 1 else 0)%N.
Proof.
  destruct (passedOn r) eqn:E.
  - rewrite (serve_passed k c p r E). unfold healthCounter. cbn [fst andb].
    destruct (mountMatches "/health" (path r)); simpl; lia.
  - rewrite (proj1 (serve_not_passed k c p r E)). cbn [andb]. lia.
Qed.

Lemma serveAll_count (k : Counters) (events : list Event) :
  healthCheckCount (fst (serveAll k events)) =
  (healthCheckCount k + N.of_nat (List.length (filter underHealth events)))%N.
Proof.
  revert k. induction events as [|[[c p] r] events IH]; intros k; cbn [serveAll].
  - simpl. lia.
  - pose proof (serve_count k c p r) as Hs.
    destruct (serve k c p r) as [k1 resp] eqn:E1.
    specialize (IH k1). destruct (serveAll k1 events) as [k2 resps] eqn:E2.
    cbn [fst] in *. rewrite IH, Hs.
    cbn [filter].
    change (underHealth (c, p, r))
      with (passedOn r && mountMatches "/health" (path r)).
    destruct (passedOn r && mountMatches "/health" (path r)); cbn [List.length]; lia.
Qed.

(** A basic-health answer is given to a request that went through the
    mount. *)
Lemma basic_check_counted (k : Counters) (c : Connection) (p : Process)
      (r : Request) :
  isBasicCheck (snd (serve k c p r)) = true ->
  passedOn r && mountMatches "/health" (path r) = true.
Proof.
  destruct (passedOn r) eqn:E.
  - rewrite (serve_passed k c p r E). cbn [snd andb].
    apply basic_check_under_mount.
  - destruct (serve_not_passed k c p r E) as [_ [-> | ->]]; discriminate.
Qed.

Lemma serveAll_basic (k : Counters) (events : list Event) :
  (basicChecksServed (snd (serveAll k events)) <=
   N.of_nat (List.length (filter underHealth events)))%N.
Proof.
  revert k. induction events as [|[[c p] r] events IH]; intros k; cbn [serveAll].
  - unfold basicChecksServed. simpl. lia.
  - pose proof (basic_check_counted k c p r) as Hb.
    destruct (serve k c p r) as [k1 resp] eqn:E1.
    specialize (IH k1). destruct (serveAll k1 events) as [k2 resps] eqn:E2.
    unfold basicChecksServed in *. cbn [snd filter] in *.
    change (underHealth (c, p, r))
      with (passedOn r && mountMatches "/health" (path r)).
    destruct (isBasicCheck resp) eqn:Eb.
    + rewrite (Hb eq_refl). cbn [List.length]. lia.
    + destruct (passedOn r && mountMatches "/health" (path r)); cbn [List.length]; lia.
Qed.

End HealthFacts.

Module HealthSpec.
Import Js HealthCheck Express Server Notions HealthFacts Sample.

(** C3.  Readiness reports READY, and [GET /ready] is answered 200,
    exactly when the connection state is "connected" and the ping
    returns.  Whenever the state is another one or the ping fails,
    readiness reports NOT_READY and [GET /ready] is answered 503, while
    liveness reports ALIVE and [GET /alive] is answered 200.  The answer
    to [GET /alive] is the same whatever the connection is. *)
Theorem readiness_spec (k : Counters) (c : Connection) (p : Process) :
  (ready_status (checkReadiness c p) = "READY" <-> storeUp c) /\
  (status (snd (serve k c p (mkRequest GET "/ready"))) = 200%Z <-> storeUp c) /\
  (readyState c <> 1%Z \/ (exists m, ping c = Raises m) ->
   ready_status (checkReadiness c p) = "NOT_READY" /\
   snd (serve k c p (mkRequest GET "/ready")) =
     mkResponse 503 (ReadinessBody (checkReadiness c p)) /\
   live_status (checkLiveness p) = "ALIVE" /\
   snd (serve k c p (mkRequest GET "/alive")) =
     mkResponse 200 (LivenessBody (checkLiveness p))) /\
  live_status (checkLiveness p) = "ALIVE" /\
  (forall c', serve k c' p (mkRequest GET "/alive") =
              serve k c p (mkRequest GET "/alive")).
Proof.
  rewrite ready_route, alive_route. cbn [snd].
  split; [|split; [|split; [|split]]].
  - split; [|apply checkReadiness_up].
    intros H. destruct (storeUp_dec c) as [Hup | Hdown]; [exact Hup|].
    rewrite (checkReadiness_down c p Hdown) in H. discriminate H.
  - unfold ready. split.
    + intros H. destruct (storeUp_dec c) as [Hup | Hdown]; [exact Hup|].
      rewrite (checkReadiness_down c p Hdown) in H. discriminate H.
    + intros Hup. now rewrite (checkReadiness_up c p Hup).
  - intros Hdown. unfold ready.
    rewrite (checkReadiness_down c p Hdown). repeat split.
  - reflexivity.
  - intros c'. now rewrite !alive_route.
Qed.

Lemma readiness_spec_witness :
  ready_status (checkReadiness disconnected process0) = "NOT_READY" /\
  snd (serve (initial 0) disconnected process0 (mkRequest GET "/ready")) =
    mkResponse 503 (ReadinessBody (checkReadiness disconnected process0)) /\
  snd (serve (initial 0) disconnected process0 (mkRequest GET "/alive")) =
    mkResponse 200 (LivenessBody (checkLiveness process0)) /\
  ready_status (checkReadiness pingFails process0) = "NOT_READY" /\
  ready_status (checkReadiness connected process0) = "READY".
Proof.
  destruct (readiness_spec (initial 0) disconnected process0)
    as (_ & _ & Hdown & _).
  destruct (readiness_spec (initial 0) pingFails process0)
    as (_ & _ & Hfail & _).
  destruct (readiness_spec (initial 0) connected process0) as (Hup & _).
  destruct Hdown as (H1 & H2 & _ & H3); [left; vm_compute; discriminate|].
  destruct Hfail as (H4 & _); [right; eexists; reflexivity|].
  split; [exact H1|]. split; [exact H2|]. split; [exact H3|]. split; [exact H4|].
  apply Hup. split; [reflexivity | eexists; reflexivity].
Defined.

(** C8, as amended.  The counter is zero when the module is loaded; after
    any sequence of requests it equals the number of requests that went
    through the [/health] mount: those whose path is under the mount -
    the basic check and also the detailed, database and dashboard
    checks - and that got as far as the mount, which an [OPTIONS]
    request (answered 204 by [cors()]) and a request whose body the
    parsers refuse (answered 500 by the error-handling middleware) do
    not.  So it is at least the number of basic-health
    checks served; it never goes down as more requests are served; one
    request adds one when it goes through the mount and leaves the
    counters as they are otherwise. *)
Theorem health_counter_spec (t : Z) (events : list Event) :
  healthCheckCount (initial t) = 0%N /\
  healthCheckCount (fst (serveAll (initial t) events)) =
    N.of_nat (List.length (filter underHealth events)) /\
  (forall e, underHealth e = true <->
             method (snd e) <> OPTIONS /\ payload (snd e) <> Unparsable /\
             mountMatches "/health" (path (snd e)) = true) /\
  (basicChecksServed (snd (serveAll (initial t) events)) <=
   healthCheckCount (fst (serveAll (initial t) events)))%N /\
  (forall k more,
     (healthCheckCount k <= healthCheckCount (fst (serveAll k more)))%N) /\
  (forall k c p r,
     method r <> OPTIONS -> payload r <> Unparsable ->
     mountMatches "/health" (path r) = true ->
     healthCheckCount (fst (serve k c p r)) = (healthCheckCount k + 1)%N) /\
  (forall k c p r,
     mountMatches "/health" (path r) = false -> fst (serve k c p r) = k) /\
  (forall k c p r,
     method r = OPTIONS -> serve k c p r = (k, mkResponse 204 NoContent)) /\
  (forall k c p r,
     method r <> OPTIONS -> payload r = Unparsable ->
     serve k c p r = (k, mkResponse 500 InternalServerError)).
Proof.
  split; [reflexivity|].
  split; [rewrite serveAll_count; simpl; lia|].
  split.
  { intros e. unfold underHealth. rewrite andb_true_iff, passedOn_true. tauto. }
  split; [rewrite serveAll_count; pose proof (serveAll_basic (initial t) events);
          simpl; lia|].
  split; [intros k more; rewrite serveAll_count; lia|].
  split; [|split; [|split]].
  - intros k c p r Hm Hb H.
    rewrite serve_count, (proj2 (passedOn_true r) (conj Hm Hb)), H. reflexivity.
  - intros k c p r H. destruct (passedOn r) eqn:E.
    + rewrite (serve_passed k c p r E). unfold healthCounter. now rewrite H.
    + apply (serve_not_passed k c p r E).
  - intros k c p r H. unfold serve, answeredByCors. now rewrite H.
  - intros k c p r Hm H. unfold serve, answeredByCors, refusedByParsers.
    rewrite H. destruct (method r); try reflexivity. now elim Hm.
Qed.

Lemma health_counter_spec_witness :
  healthCheckCount
    (fst (serveAll (initial 0)
            [(connected, process0, mkRequest GET "/health");
             (connected, process0, mkRequest GET "/ready");
             (connected, process0, mkRequest OPTIONS "/health");
             (connected, process0, mkRequestWith POST "/health" Unparsable);
             (connected, process0, mkRequestWith POST "/health" Parsed);
             (connected, process0, mkRequest GET "/health/database")])) = 3%N /\
  healthCheckCount
    (fst (serve (initial 0) connected process0 (mkRequest GET "/health"))) = 1%N /\
  fst (serve (initial 0) connected process0 (mkRequest GET "/alive")) = initial 0 /\
  serve (initial 0) connected process0 (mkRequest OPTIONS "/health") =
    (initial 0, mkResponse 204 NoContent).
Proof.
  destruct (health_counter_spec 0
              [(connected, process0, mkRequest GET "/health");
               (connected, process0, mkRequest GET "/ready");
               (connected, process0, mkRequest OPTIONS "/health");
               (connected, process0, mkRequestWith POST "/health" Unparsable);
               (connected, process0, mkRequestWith POST "/health" Parsed);
               (connected, process0, mkRequest GET "/health/database")])
    as (_ & Hcount & _ & _ & _ & Hin & Hout & Hcors & _).
  split; [exact Hcount|].
  split; [apply Hin; [discriminate | discriminate | reflexivity]|].
  split; [apply Hout; reflexivity | apply Hcors; reflexivity].
Defined.

(** C8 as stated fails: one request for the detailed view is served, no
    basic-health check is, and the counter is one. *)
Lemma health_counter_counts_detailed :
  healthCheckCount
    (fst (serveAll (initial 0)
            [(connected, process0, mkRequest GET "/health/detailed")])) = 1%N /\
  basicChecksServed
    (snd (serveAll (initial 0)
            [(connected, process0, mkRequest GET "/health/detailed")])) = 0%N.
Proof. split; vm_compute; reflexivity. Qed.

(** C9, as amended.  When the process figures can be read, the dashboard
    is answered 200 with the six results whatever the store does: a store
    that does not answer shows as ERROR with an error message in the
    database result, as NOT_READY in the readiness result and as ERROR in
    the detailed result and in the overall status, and the basic,
    liveness and metrics results are there as well.  When reading the
    process figures throws, in the metrics or in the detailed check, the
    answer is 500 with overall status ERROR and the message, and no
    result of any check. *)
Theorem dashboard_spec (c : Connection) (p : Process) (k : Counters) :
  (forall m, getSystemMetrics p k = Returns m ->
   exists d,
     getDetailedHealth c p k = Returns d /\
     health_dashboard c p k =
       mkResponse 200
         (DashboardBody (det_status d) (now p)
            {| chk_basic := getBasicHealth p;
               chk_detailed := d;
               chk_database := checkDatabase c;
               chk_readiness := checkReadiness c p;
               chk_liveness := checkLiveness p;
               chk_metrics := m |}) /\
     det_database d = checkDatabase c /\
     (storeUp c -> det_status d = "OK") /\
     (readyState c <> 1%Z \/ (exists e, ping c = Raises e) ->
      det_status d = "ERROR" /\
      db_status (checkDatabase c) = "ERROR" /\
      (exists message, db_error (checkDatabase c) = Some message) /\
      ready_status (checkReadiness c p) = "NOT_READY" /\
      basic_status (getBasicHealth p) = "OK" /\
      live_status (checkLiveness p) = "ALIVE")) /\
  (forall e, getSystemMetrics p k = Raises e ->
   health_dashboard c p k = mkResponse 500 (DashboardFailedBody "ERROR" e (now p))).
Proof.
  split.
  - intros m Hm. unfold health_dashboard, getDetailedHealth. rewrite Hm.
    eexists. split; [reflexivity|]. split; [reflexivity|]. split; [reflexivity|].
    cbn [det_status]. split.
    + intros Hup. now rewrite (proj1 (checkDatabase_up c Hup)).
    + intros Hdown. destruct (checkDatabase_down c Hdown) as [Hs He].
      rewrite Hs. repeat split; try assumption.
      now apply checkReadiness_down.
  - intros e He. unfold health_dashboard. now rewrite He.
Qed.

Lemma dashboard_spec_witness :
  status (health_dashboard disconnected process0 (initial 0)) = 200%Z /\
  health_dashboard connected processNoMemory (initial 0) =
    mkResponse 500 (DashboardFailedBody "ERROR" "uv_resident_set_memory" 5000).
Proof.
  destruct (dashboard_spec disconnected process0 (initial 0)) as [Hok _].
  destruct (dashboard_spec connected processNoMemory (initial 0)) as [_ Hfail].
  split.
  - destruct (Hok _ eq_refl) as (d & _ & Hd & _). now rewrite Hd.
  - apply Hfail. reflexivity.
Defined.

(** C9 as stated fails: the metrics check throws, the liveness, basic,
    database and readiness checks do not, and the answer carries none of
    their results: it is the 500 answer with the error message. *)
Lemma dashboard_aborts_on_metrics_failure :
  getSystemMetrics processNoMemory (initial 0) = Raises "uv_resident_set_memory" /\
  live_status (checkLiveness processNoMemory) = "ALIVE" /\
  basic_status (getBasicHealth processNoMemory) = "OK" /\
  db_status (checkDatabase connected) = "OK" /\
  ready_status (checkReadiness connected processNoMemory) = "READY" /\
  snd (serve (initial 0) connected processNoMemory
             (mkRequest GET "/health/dashboard")) =
    mkResponse 500 (DashboardFailedBody "ERROR" "uv_resident_set_memory" 5000) /\
  (forall overall t checks,
     body (snd (serve (initial 0) connected processNoMemory
                      (mkRequest GET "/health/dashboard"))) <>
     DashboardBody overall t checks).
Proof.
  repeat split; try (vm_compute; reflexivity).
  intros overall t checks. vm_compute. discriminate.
Qed.

End HealthSpec.

(* ================================================================== *)
(** * Further properties of the code *)
(* ================================================================== *)

(** ** Numbers as text *)

Module TextFacts.
Import Js UserModel Mongoose Users Client MoreNotions.

Lemma digits_uint_acc (d : Decimal.uint) (acc : N) (rest : string) :
  afterDigits rest ->
  digits 10 (NilEmpty.string_of_uint d ++ rest) (Some acc) = Some (uintAcc d acc).
Proof.
  intros H. revert acc.
  induction d; intros acc; cbn [NilEmpty.string_of_uint uintAcc append];
    [destruct H as [-> | [[t ->] | [t ->]]]; reflexivity | ..];
    cbn [digits]; exact (IHd _).
Qed.

Lemma digits_uint (d : Decimal.uint) (rest : string) :
  d <> Decimal.Nil -> afterDigits rest ->
  digits 10 (NilEmpty.string_of_uint d ++ rest) None = Some (uintAcc d 0).
Proof.
  destruct d; intros H Hr; [now elim H | ..];
    cbn [NilEmpty.string_of_uint uintAcc append]; cbn [digits];
    now apply digits_uint_acc.
Qed.

Lemma of_uint_acc_uintAcc (d : Decimal.uint) (p : positive) :
  N.pos (Pos.of_uint_acc d p) = uintAcc d (N.pos p).
Proof.
  revert p. induction d; intros p; cbn [Pos.of_uint_acc uintAcc];
    [reflexivity | ..]; rewrite IHd; f_equal; lia.
Qed.

Lemma of_uint_uintAcc (d : Decimal.uint) : Pos.of_uint d = uintAcc d 0.
Proof.
  induction d; cbn [Pos.of_uint uintAcc]; [reflexivity | exact IHd | ..];
    apply of_uint_acc_uintAcc.
Qed.

Lemma to_uint_not_Nil (n : N) : N.to_uint n <> Decimal.Nil.
Proof.
  destruct n as [|p]; [discriminate|].
  intros H. pose proof (DecimalN.Unsigned.of_to (N.pos p)) as E.
  cbn [N.to_uint] in *. rewrite H in E. discriminate E.
Qed.

Lemma digits_to_uint (n : N) (rest : string) :
  afterDigits rest ->
  digits 10 (NilEmpty.string_of_uint (N.to_uint n) ++ rest) None = Some n.
Proof.
  intros Hr. rewrite digits_uint by (apply to_uint_not_Nil || exact Hr).
  rewrite <- of_uint_uintAcc. f_equal.
  exact (DecimalN.Unsigned.of_to n).
Qed.

(** A printed number has no radix prefix. *)
Lemma no_radix_prefix (d : Decimal.uint) (rest : string) :
  afterDigits rest ->
  match NilEmpty.string_of_uint d ++ rest with
  | String "0" (String "x" r) => (16%N, r)
  | String "0" (String "X" r) => (16%N, r)
  | _ => (10%N, NilEmpty.string_of_uint d ++ rest)
  end = (10%N, NilEmpty.string_of_uint d ++ rest).
Proof.
  intros [-> | [[t ->] | [t ->]]];
    (destruct d as [|d|d|d|d|d|d|d|d|d|d]; try reflexivity; destruct d; reflexivity).
Qed.

Lemma digitsOf_text (n : N) :
  digitsOf n = NilEmpty.string_of_uint (N.to_uint n).
Proof.
  unfold digitsOf. pose proof (to_uint_not_Nil n) as H.
  destruct (N.to_uint n); [now elim H | ..]; reflexivity.
Qed.

(** The digits of a number start with a digit. *)
Lemma digitsOf_starts (n : N) (rest : string) :
  exists c t, digitsOf n ++ rest = String c t /\ isDigit c = true.
Proof.
  rewrite digitsOf_text. pose proof (to_uint_not_Nil n) as H.
  destruct (N.to_uint n); [now elim H | ..];
    cbn [NilEmpty.string_of_uint append]; eexists; eexists; split; reflexivity.
Qed.

Lemma parseInt_unsigned (n : N) (rest : string) :
  afterDigits rest -> parseInt (digitsOf n ++ rest) = Some (Z.of_N n).
Proof.
  intros Hr. unfold parseInt.
  destruct (digitsOf_starts n rest) as (c & t & E & Hc).
  assert (Ht : trimStart (digitsOf n ++ rest) = digitsOf n ++ rest).
  { rewrite E. cbn [trimStart].
    destruct c as [[] [] [] [] [] [] [] []]; try discriminate Hc; reflexivity. }
  rewrite Ht.
  assert (Hs : match digitsOf n ++ rest with
               | String "-" r => (true, r)
               | String "+" r => (false, r)
               | _ => (false, digitsOf n ++ rest)
               end = (false, digitsOf n ++ rest)).
  { rewrite E.
    destruct c as [[] [] [] [] [] [] [] []]; try discriminate Hc; reflexivity. }
  rewrite Hs, digitsOf_text, (no_radix_prefix _ rest Hr).
  now rewrite (digits_to_uint n rest Hr).
Qed.

Lemma parseInt_negative (n : N) (rest : string) :
  afterDigits rest ->
  parseInt (String "-" (digitsOf n ++ rest)) = Some (- Z.of_N n)%Z.
Proof.
  intros Hr. unfold parseInt. cbn [trimStart]. change (isSpace "-") with false.
  cbv iota. rewrite digitsOf_text, (no_radix_prefix _ rest Hr).
  now rewrite (digits_to_uint n rest Hr).
Qed.

Lemma afterDigits_notation (f : string) (e : option Z) :
  afterDigits ((if truthy f then String "." f else EmptyString) ++ exponentText e).
Proof.
  destruct f; cbn [truthy append].
  - destruct e; [right; right; eexists; reflexivity | now left].
  - right; left; eexists; reflexivity.
Qed.

(** [parseInt] reads the digits before the point of a printed number and
    stops at the point or at the exponent. *)
Lemma parseInt_toString (x : Num) : parseInt (toString x) = Some (integerPart x).
Proof.
  unfold toString, integerPart.
  pose proof (afterDigits_notation (fraction x) (exponent x)) as Hr.
  destruct (negative x); cbn [andb].
  - destruct (isZero x) eqn:Ez; cbn [negb append].
    + rewrite (parseInt_unsigned _ _ Hr). unfold isZero in Ez.
      apply andb_true_iff in Ez as [Ez _]. apply N.eqb_eq in Ez. now rewrite Ez.
    + now apply parseInt_negative.
  - cbn [append]. now apply parseInt_unsigned.
Qed.

Lemma toString_truthy (x : Num) : truthy (toString x) = true.
Proof.
  unfold toString.
  destruct (digitsOf_starts (whole x)
              ((if truthy (fraction x) then String "." (fraction x) else EmptyString)
               ++ exponentText (exponent x)))
    as (c & t & E & _).
  rewrite E. now destruct (negative x && negb (isZero x))%bool.
Qed.

Lemma integerPart_ofInteger (n : Z) : integerPart (ofInteger n) = n.
Proof.
  unfold integerPart, ofInteger. cbn [negative whole].
  destruct (n <? 0)%Z eqn:E; [apply Z.ltb_lt in E | apply Z.ltb_ge in E];
    rewrite N2Z.inj_abs_N; lia.
Qed.

Lemma isZero_ofInteger (n : Z) : isZero (ofInteger n) = (n =? 0)%Z.
Proof.
  unfold isZero, ofInteger. cbn [whole fraction truthy negb]. rewrite andb_true_r.
  destruct n; reflexivity.
Qed.

End TextFacts.

Module TextSpec.
Import Js UserModel Mongoose Users Client MoreNotions TextFacts Sample.

(** X1.  The list request that the client builds is served with the
    integers that [parseInt] reads back from the text of the page and of
    the limit - the digits before the point, when they make a safe
    integer - or with the default when these are zero.  So a page and a
    limit that are safe integers and at least 1 are served as they are,
    and arguments that are left out are served as page 1 with limit 10;
    but a page of 1e21, printed with an exponent, is served as page 1. *)
Theorem getUsers_served (st : State) (order : Scan) (page limit : Num) :
  isSafeInteger (integerPart page) = true ->
  isSafeInteger (integerPart limit) = true ->
  pageOf (getUsers (Some page) (Some limit)) = orDefault (Some (integerPart page)) 1 /\
  limitOf (getUsers (Some page) (Some limit)) = orDefault (Some (integerPart limit)) 10 /\
  get_users st order (getUsers (Some page) (Some limit)) =
    list_users st order (orDefault (Some (integerPart page)) 1)
               (orDefault (Some (integerPart limit)) 10) /\
  (forall p l : Z,
     isSafeInteger p = true -> isSafeInteger l = true -> (1 <= p)%Z -> (1 <= l)%Z ->
     pageOf (getUsers (Some (ofInteger p)) (Some (ofInteger l))) = p /\
     limitOf (getUsers (Some (ofInteger p)) (Some (ofInteger l))) = l /\
     get_users st order (getUsers (Some (ofInteger p)) (Some (ofInteger l))) =
       list_users st order p l) /\
  get_users st order (getUsers None None) = list_users st order 1 10 /\
  pageOf (getUsers (Some (mkNum false 1 EmptyString (Some 21%Z))) (Some limit)) = 1%Z.
Proof.
  intros _ _.
  assert (Hp : forall a b, pageOf (getUsers (Some a) b) =
                           orDefault (Some (integerPart a)) 1).
  { intros a b. unfold pageOf, getUsers. cbn [q_page parseIntParam].
    now rewrite parseInt_toString. }
  assert (Hl : forall a b, limitOf (getUsers a (Some b)) =
                           orDefault (Some (integerPart b)) 10).
  { intros a b. unfold limitOf, getUsers. cbn [q_limit parseIntParam].
    now rewrite parseInt_toString. }
  split; [apply Hp|]. split; [apply Hl|].
  split; [unfold get_users; now rewrite Hp, Hl|].
  split; [|split].
  - intros p l _ _ Hp1 Hl1.
    assert (Ep : pageOf (getUsers (Some (ofInteger p)) (Some (ofInteger l))) = p).
    { rewrite Hp, integerPart_ofInteger. destruct p; [lia | reflexivity | lia]. }
    assert (El : limitOf (getUsers (Some (ofInteger p)) (Some (ofInteger l))) = l).
    { rewrite Hl, integerPart_ofInteger. destruct l; [lia | reflexivity | lia]. }
    split; [exact Ep|]. split; [exact El|].
    unfold get_users. now rewrite Ep, El.
  - reflexivity.
  - rewrite Hp. reflexivity.
Qed.

Lemma getUsers_served_witness :
  get_users twoUsers [] (getUsers (Some (ofInteger 2)) (Some (ofInteger 6))) =
    list_users twoUsers [] 2 6 /\
  pageOf (getUsers (Some (mkNum false 1 EmptyString (Some 21%Z)))
                   (Some (ofInteger 6))) = 1%Z.
Proof.
  destruct (getUsers_served twoUsers [] (ofInteger 2) (ofInteger 6) eq_refl eq_refl)
    as (_ & _ & _ & H & _ & H21).
  destruct (H 2%Z 6%Z eq_refl eq_refl ltac:(lia) ltac:(lia)) as (_ & _ & Hg).
  split; [exact Hg | exact H21].
Defined.

(** X2.  What the edit form does to the age of a record.  A record
    without age, or with age zero, gives an empty field, which is
    submitted as no age.  Any other age is shown as its text and
    submitted as the integer that [parseInt] reads from it: the digits
    before the point (a safe integer, as for every age that the
    validators let in).  So an integer age other than zero is submitted
    as it is, and an age with a fraction, which the schema accepts, is
    submitted without it: 30.5 becomes 30. *)
Theorem age_round_trip (x : Num) :
  isSafeInteger (integerPart x) = true ->
  submitAge (ageField None) = None /\
  submitAge (ageField (Some x)) =
    (if isZero x then None else Some (Some (integerPart x))) /\
  (forall n, isSafeInteger n = true ->
     submitAge (ageField (Some (ofInteger n))) =
       (if (n =? 0)%Z then None else Some (Some n))) /\
  submitAge (ageField (Some (mkNum false 30 "5" None))) = Some (Some 30%Z) /\
  mkNum false 30 "5" None <> ofInteger 30.
Proof.
  intros _.
  assert (H : forall y, submitAge (ageField (Some y)) =
                        if isZero y then None else Some (Some (integerPart y))).
  { intros y. unfold submitAge, ageField. destruct (isZero y); [reflexivity|].
    now rewrite toString_truthy, parseInt_toString. }
  split; [reflexivity|]. split; [apply H|]. split; [|split].
  - intros n _. now rewrite H, isZero_ofInteger, integerPart_ofInteger.
  - rewrite H. reflexivity.
  - discriminate.
Qed.

Lemma age_round_trip_witness :
  submitAge (ageField (Some (ofInteger 42))) = Some (Some 42%Z) /\
  submitAge (ageField (Some (mkNum false 30 "5" None))) = Some (Some 30%Z).
Proof.
  destruct (age_round_trip (ofInteger 42) eq_refl) as (_ & H42 & _ & H305 & _).
  split; [exact H42 | exact H305].
Defined.

End TextSpec.

(** ** More on the user routes *)

Module UsersMoreFacts.
Import Js JsFacts UserModel Mongoose Users Notions MoreNotions StoreFacts UsersFacts.
Local Open Scope list_scope.

Lemma post_users_cases (st : State) (now : Z) (b : Fields) :
  (exists x, findOne_email st (f_email b) = Some x /\
             post_users st now b = (st, duplicateEmail)) \/
  (findOne_email st (f_email b) = None /\
   exists err,
     save {| users := users st; oidCounter := (oidCounter st + 1)%N |} now
          (oidCounter st, applySetters b) = Throw err /\
     post_users st now b =
       ({| users := users st; oidCounter := (oidCounter st + 1)%N |},
        mkResponse 400 (ErrorBody (MessageOf err)))) \/
  (findOne_email st (f_email b) = None /\
   exists u st2,
     save {| users := users st; oidCounter := (oidCounter st + 1)%N |} now
          (oidCounter st, applySetters b) = Ok (u, st2) /\
     post_users st now b =
       (st2, mkResponse 201 (MessageUserBody "User created successfully" u))).
Proof.
  unfold post_users, newUser.
  destruct (findOne_email st (f_email b)) as [x|]; [left; now exists x|].
  right.
  destruct (save _ now (oidCounter st, applySetters b)) as [[u st2]|err].
  - right. split; [reflexivity|]. now exists u, st2.
  - left. split; [reflexivity|]. now exists err.
Qed.

Lemma put_user_cases (st : State) (now : Z) (id : string) (b : Fields) :
  (fst (put_user st now id b) = st /\
   (status (snd (put_user st now id b)) = 400%Z \/
    status (snd (put_user st now id b)) = 404%Z)) \/
  status (snd (put_user st now id b)) = 200%Z.
Proof.
  unfold put_user.
  destruct (match f_email b with
            | Some e => if truthy e then findOne_email_ne st e id else Ok None
            | None => Ok None
            end) as [[x|]|err]; try (left; split; [reflexivity | now left]).
  destruct (findByIdAndUpdate st now id b) as [[[u|] st2]|err].
  - now right.
  - left. split; [reflexivity | now right].
  - left. split; [reflexivity | now left].
Qed.

Lemma delete_user_cases (st : State) (id : string) :
  (fst (delete_user st id) = st /\
   (status (snd (delete_user st id)) = 500%Z \/
    status (snd (delete_user st id)) = 404%Z)) \/
  (status (snd (delete_user st id)) = 200%Z /\
   exists oid d,
     castObjectId id = Some oid /\ find (hasId oid) (users st) = Some d /\
     delete_user st id =
       ({| users := removeDoc oid (users st); oidCounter := oidCounter st |},
        mkResponse 200 (MessageUserBody "User deleted successfully" d))).
Proof.
  unfold delete_user, findByIdAndDelete.
  destruct (castObjectId id) as [oid|]; [|left; split; [reflexivity | now left]].
  destruct (find (hasId oid) (users st)) as [d|] eqn:E.
  - right. split; [reflexivity|]. now exists oid, d.
  - left. split; [reflexivity | now right].
Qed.

Lemma findOne_email_None_inv (st : State) (e : string) :
  findOne_email st (Some e) = None ->
  forall d, In d (users st) -> email d <> setEmail e.
Proof.
  unfold findOne_email. intros H d Hd Heq.
  pose proof (find_none _ _ H d Hd) as Hf. cbn beta in Hf.
  rewrite Heq, String.eqb_refl in Hf. discriminate Hf.
Qed.

Lemma emailTaken_false_inv (st : State) (oid : ObjectId) (e : string) :
  emailTaken st oid e = false ->
  forall d, In d (users st) -> email d = e -> _id d = oid.
Proof.
  unfold emailTaken. intros H d Hd Heq.
  destruct (N.eq_dec (_id d) oid) as [E | E]; [exact E|].
  assert (Hex : existsb (fun d => String.eqb (email d) e && negb (hasId oid d))
                        (users st) = true).
  { apply existsb_exists. exists d. split; [exact Hd|].
    rewrite Heq, String.eqb_refl. simpl. apply negb_true_iff. now apply hasId_false. }
  rewrite Hex in H. discriminate H.
Qed.

Lemma emailTaken_false_when (st : State) (oid : ObjectId) (e : string) :
  (forall d, In d (users st) -> email d = e -> _id d = oid) ->
  emailTaken st oid e = false.
Proof.
  intros H. unfold emailTaken. apply not_true_is_false. intros Hex.
  apply existsb_exists in Hex as (d & Hd & Ht).
  apply andb_true_iff in Ht as [He Hn]. apply String.eqb_eq in He.
  apply negb_true_iff in Hn. apply hasId_false in Hn. now apply Hn, H.
Qed.

Lemma NoDup_map_eq {A B : Type} (f : A -> B) (l : list A) (a b : A) :
  NoDup (map f l) -> In a l -> In b l -> f a = f b -> a = b.
Proof.
  induction l as [|x l IH]; simpl; [contradiction|].
  intros Hnd Ha Hb Hf. inversion Hnd as [|? ? Hx Hl]; subst.
  destruct Ha as [-> | Ha], Hb as [-> | Hb].
  - reflexivity.
  - exfalso. apply Hx. rewrite Hf. now apply in_map.
  - exfalso. apply Hx. rewrite <- Hf. now apply in_map.
  - now apply IH.
Qed.

Lemma removeDoc_emails (oid : ObjectId) (l : list User) :
  NoDup (map email l) -> NoDup (map email (removeDoc oid l)).
Proof.
  induction l as [|x l IH]; intros Hnd; [exact Hnd|].
  inversion Hnd as [|? ? Hx Hl]; subst. cbn [removeDoc filter].
  destruct (negb (hasId oid x)); [|now apply IH].
  cbn [map]. constructor; [|now apply IH].
  intros Hin. apply Hx. apply in_map_iff in Hin as (d & Hd & Hin).
  apply removeDoc_In in Hin as [Hin _]. apply in_map_iff. now exists d.
Qed.

Lemma replaceDoc_absent (u : User) (l : list User) :
  (forall d, In d l -> _id d <> _id u) -> replaceDoc u l = l.
Proof.
  intros H. unfold replaceDoc. rewrite <- (map_id l) at 2.
  apply map_ext_in. intros d Hd.
  now rewrite (proj2 (hasId_false (_id u) d) (H d Hd)).
Qed.

Lemma replaceDoc_emails (u : User) (l : list User) :
  NoDup (map _id l) -> NoDup (map email l) ->
  (forall d, In d l -> _id d <> _id u -> email d <> email u) ->
  NoDup (map email (replaceDoc u l)).
Proof.
  induction l as [|x l IH]; simpl; [trivial|].
  intros Hid Hem Hother.
  inversion Hid as [|? ? Hxid Hlid]; subst. inversion Hem as [|? ? Hxem Hlem]; subst.
  destruct (hasId (_id u) x) eqn:E.
  - apply hasId_true in E.
    assert (Habs : forall d, In d l -> _id d <> _id u).
    { intros d Hd Heq. apply Hxid. rewrite E, <- Heq. now apply in_map. }
    fold (replaceDoc u l). rewrite (replaceDoc_absent u l Habs).
    constructor; [|exact Hlem].
    intros Hin. apply in_map_iff in Hin as (d & Hd & Hin).
    apply (Hother d); [now right | now apply Habs | exact Hd].
  - apply hasId_false in E. fold (replaceDoc u l).
    constructor.
    + intros Hin. apply in_map_iff in Hin as (d & Hd & Hin).
      apply replaceDoc_In in Hin as [-> | [Hin _]].
      * apply (Hother x); [now left | exact E | now symmetry].
      * apply Hxem. rewrite <- Hd. now apply in_map.
    + apply IH; [exact Hlid | exact Hlem |].
      intros d Hd. apply Hother. now right.
Qed.

(** A stored address is in lower case. *)
Lemma stored_lower (x : string) : setEmail x = x -> toLowerCase x = x.
Proof.
  intros H. rewrite <- H at 1. unfold setEmail.
  rewrite <- trim_lower, toLowerCase_idem. exact H.
Qed.

Lemma post_users_emails (st : State) (now : Z) (b : Fields) :
  store_ok st -> emails_distinct st ->
  emails_distinct (fst (post_users st now b)).
Proof.
  intros Hok Hd. unfold emails_distinct in *.
  destruct (post_users_cases st now b)
    as [(x & _ & ->) | [(_ & err & _ & ->) | (_ & u & st2 & Hs & ->)]];
    [exact Hd | exact Hd |].
  apply save_Ok in Hs as (_ & _ & _ & Ht & Hu & ->). cbn [fst users].
  rewrite map_app. apply NoDup_app; [exact Hd | repeat constructor; intros [] |].
  intros e He [<- | []]. apply in_map_iff in He as (d & Heq & Hin).
  pose proof (emailTaken_false_inv _ _ _ Ht d Hin Heq) as Hid.
  pose proof (ok_ids_drawn st Hok d Hin) as Hlt. lia.
Qed.

Lemma put_user_emails (st : State) (now : Z) (id : string) (b : Fields) :
  store_ok st -> emails_distinct st ->
  emails_distinct (fst (put_user st now id b)).
Proof.
  intros Hok Hd.
  destruct (put_user_cases st now id b) as [[-> _] | Hs]; [exact Hd|].
  destruct (put_user st now id b) as [st' resp] eqn:E. cbn [fst snd] in *.
  destruct (put_user_200 _ _ _ _ _ _ E Hs) as (u & Hu & _).
  apply findByIdAndUpdate_Some in Hu as (oid & d & _ & Hf & _ & Hu & Ht & ->).
  apply find_some in Hf as [Hin Hid]. apply hasId_true in Hid.
  assert (Hidu : _id u = oid) by (rewrite Hu; exact Hid).
  unfold emails_distinct. cbn [users].
  apply replaceDoc_emails; [apply (ok_ids_distinct st Hok) | exact Hd |].
  intros x Hx Hne Heq. apply Hne. rewrite Hidu.
  exact (emailTaken_false_inv _ _ _ Ht x Hx Heq).
Qed.

Lemma delete_user_emails (st : State) (id : string) :
  emails_distinct st -> emails_distinct (fst (delete_user st id)).
Proof.
  intros Hd.
  destruct (delete_user_cases st id) as [[-> _] | (_ & oid & d & _ & _ & ->)];
    [exact Hd|].
  unfold emails_distinct. cbn [fst users]. now apply removeDoc_emails.
Qed.

Lemma reachable_distinct (st : State) : reachable st -> emails_distinct st.
Proof.
  induction 1 as [|st now b Hr IH|st now id b Hr IH|st id Hr IH].
  - constructor.
  - apply post_users_emails; [now apply reachable_ok | exact IH].
  - apply put_user_emails; [now apply reachable_ok | exact IH].
  - now apply delete_user_emails.
Qed.

End UsersMoreFacts.

Module ValidityFacts.
Import Js JsFacts UserModel Mongoose Users Notions MoreNotions StoreFacts UsersFacts
       UsersMoreFacts.
Local Open Scope list_scope.

Lemma report_nil (path : string) (r : option string) : report path r = [] <-> r = None.
Proof. destruct r; simpl; split; congruence. Qed.

Lemma validateDoc_iff (f : Fields) :
  validateDoc f = [] <->
  validateName (f_name f) = None /\ validateEmail (f_email f) = None /\
  validateAge (f_age f) = None /\ validateCity (f_city f) = None /\
  validatePhone (f_phone f) = None.
Proof.
  unfold validateDoc. split.
  - intros H.
    apply app_eq_nil in H as [H1 H]. apply app_eq_nil in H as [H2 H].
    apply app_eq_nil in H as [H3 H]. apply app_eq_nil in H as [H4 H5].
    rewrite report_nil in H1, H2, H3, H4, H5. auto.
  - intros (H1 & H2 & H3 & H4 & H5). now rewrite H1, H2, H3, H4, H5.
Qed.

Lemma whenSet_nil {A : Type} (path : string) (k : option A -> option string)
      (v : option A) :
  whenSet v (fun v => report path (k v)) = [] <-> v = None \/ k v = None.
Proof.
  destruct v as [x|]; simpl.
  - rewrite report_nil. split; [now right | intros [H | H]; congruence].
  - split; [now left | reflexivity].
Qed.

Lemma validateUpdate_iff (f : Fields) :
  validateUpdate f = [] <->
  (f_name f = None \/ validateName (f_name f) = None) /\
  (f_email f = None \/ validateEmail (f_email f) = None) /\
  (f_age f = None \/ validateAge (f_age f) = None) /\
  (f_city f = None \/ validateCity (f_city f) = None) /\
  (f_phone f = None \/ validatePhone (f_phone f) = None).
Proof.
  unfold validateUpdate.
  rewrite <- (whenSet_nil "name" validateName), <- (whenSet_nil "email" validateEmail),
    <- (whenSet_nil "age" validateAge), <- (whenSet_nil "city" validateCity),
    <- (whenSet_nil "phone" validatePhone).
  split.
  - intros H.
    apply app_eq_nil in H as [H1 H]. apply app_eq_nil in H as [H2 H].
    apply app_eq_nil in H as [H3 H]. apply app_eq_nil in H as [H4 H5].
    repeat split; assumption.
  - intros (H1 & H2 & H3 & H4 & H5). now rewrite H1, H2, H3, H4, H5.
Qed.

Lemma saved_valid (st : State) (now : Z) (oid : ObjectId) (f : Fields)
      (u : User) (st' : State) :
  save st now (oid, f) = Ok (u, st') -> valid u.
Proof.
  intros H. apply save_Ok in H as (Hv & Hn & He & _ & Hu & _).
  unfold valid. replace (fieldsOf u) with f; [exact Hv|].
  rewrite Hu. unfold fieldsOf. cbn. destruct f. cbn in *. now rewrite Hn, He.
Qed.

Lemma updated_valid (now : Z) (f : Fields) (d : User) :
  validateUpdate f = [] -> valid d -> valid (applyUpdate now f d).
Proof.
  unfold valid. rewrite validateUpdate_iff, !validateDoc_iff.
  intros (U1 & U2 & U3 & U4 & U5) (D1 & D2 & D3 & D4 & D5).
  unfold applyUpdate, fieldsOf, orKeep, orKeepOpt in *. cbn in *.
  split; [|split; [|split; [|split]]].
  - destruct (f_name f); [destruct U1 as [U1 | U1]; [discriminate U1 | exact U1] | exact D1].
  - destruct (f_email f); [destruct U2 as [U2 | U2]; [discriminate U2 | exact U2] | exact D2].
  - destruct (f_age f); [destruct U3 as [U3 | U3]; [discriminate U3 | exact U3] | exact D3].
  - destruct (f_city f); [destruct U4 as [U4 | U4]; [discriminate U4 | exact U4] | exact D4].
  - destruct (f_phone f); [destruct U5 as [U5 | U5]; [discriminate U5 | exact U5] | exact D5].
Qed.

Lemma post_users_valid (st : State) (now : Z) (b : Fields) :
  (forall d, In d (users st) -> valid d) ->
  forall d, In d (users (fst (post_users st now b))) -> valid d.
Proof.
  intros Hv.
  destruct (post_users_cases st now b)
    as [(x & _ & ->) | [(_ & err & _ & ->) | (_ & u & st2 & Hs & ->)]];
    [exact Hv | exact Hv |].
  pose proof (saved_valid _ _ _ _ _ _ Hs) as Hu.
  apply save_Ok in Hs as (_ & _ & _ & _ & _ & ->). cbn [fst users].
  intros d Hd. apply in_app_or in Hd as [Hd | [<- | []]]; [now apply Hv | exact Hu].
Qed.

Lemma put_user_valid (st : State) (now : Z) (id : string) (b : Fields) :
  (forall d, In d (users st) -> valid d) ->
  forall d, In d (users (fst (put_user st now id b))) -> valid d.
Proof.
  intros Hv.
  destruct (put_user_cases st now id b) as [[-> _] | Hs]; [exact Hv|].
  destruct (put_user st now id b) as [st' resp] eqn:E. cbn [fst snd] in *.
  destruct (put_user_200 _ _ _ _ _ _ E Hs) as (u & Hu & _).
  apply findByIdAndUpdate_Some in Hu as (oid & d & _ & Hf & Hval & Hu & _ & ->).
  apply find_some in Hf as [Hin _]. cbn [users].
  intros x Hx. apply replaceDoc_In in Hx as [-> | [Hx _]]; [|now apply Hv].
  rewrite Hu. apply updated_valid; [exact Hval | now apply Hv].
Qed.

Lemma delete_user_valid (st : State) (id : string) :
  (forall d, In d (users st) -> valid d) ->
  forall d, In d (users (fst (delete_user st id))) -> valid d.
Proof.
  intros Hv.
  destruct (delete_user_cases st id) as [[-> _] | (_ & oid & d & _ & _ & ->)];
    [exact Hv|].
  cbn [fst users]. intros x Hx. apply removeDoc_In in Hx as [Hx _]. now apply Hv.
Qed.

End ValidityFacts.

Module UsersMoreSpec.
Import Js JsFacts UserModel Mongoose Users Notions MoreNotions StoreFacts
       UsersFacts UsersMoreFacts ValidityFacts Sample.
Local Open Scope list_scope.

Lemma oneUser_reachable : reachable oneUser.
Proof.
  assert (E : fst (post_users emptyState 1000 jo) = oneUser)
    by (vm_compute; reflexivity).
  rewrite <- E. apply reach_post, reach_empty.
Qed.

Lemma twoUsers_reachable : reachable twoUsers.
Proof.
  assert (E : fst (post_users oneUser 2000 bob) = twoUsers)
    by (vm_compute; reflexivity).
  rewrite <- E. apply reach_post, oneUser_reachable.
Qed.

Lemma removeDoc_app_last (u : User) (l : list User) :
  (forall d, In d l -> _id d <> _id u) -> removeDoc (_id u) (l ++ [u]) = l.
Proof.
  intros H. induction l as [|x l IH]; simpl.
  - unfold hasId. now rewrite N.eqb_refl.
  - rewrite (proj2 (hasId_false (_id u) x)) by (apply H; now left). simpl.
    f_equal. apply IH. intros d Hd. apply H. now right.
Qed.

(** What a 201 answer of [post_users] says about the states. *)
Lemma post_users_201 (st : State) (now : Z) (b : Fields) (st' : State)
      (resp : Response) :
  store_ok st ->
  post_users st now b = (st', resp) -> status resp = 201%Z ->
  exists u,
    resp = mkResponse 201 (MessageUserBody "User created successfully" u) /\
    st' = {| users := users st ++ [u]; oidCounter := (oidCounter st + 1)%N |} /\
    _id u = oidCounter st /\
    (forall d, In d (users st) -> _id d <> _id u).
Proof.
  intros Hok Hpost Hs.
  destruct (post_users_cases st now b)
    as [(x & _ & E) | [(_ & err & _ & E) | (_ & u & st2 & Hsave & E)]];
    rewrite E in Hpost; injection Hpost as <- <-; try discriminate Hs.
  apply save_Ok in Hsave as (_ & _ & _ & _ & Hu & ->).
  assert (Hid : _id u = oidCounter st) by (rewrite Hu; reflexivity).
  exists u. repeat split; try assumption.
  intros d Hd Heq. pose proof (ok_ids_drawn st Hok d Hd) as Hlt. lia.
Qed.

(** X3.  Create and read back: after a create answered 201, a read
    addressed to the id of the returned record is answered 200 with
    exactly that record. *)
Theorem create_then_get (st : State) (now : Z) (b : Fields) (st' : State)
        (resp : Response) :
  store_ok st ->
  post_users st now b = (st', resp) -> status resp = 201%Z ->
  exists u,
    resp = mkResponse 201 (MessageUserBody "User created successfully" u) /\
    In u (users st') /\
    (forall id, castObjectId id = Some (_id u) ->
                get_user st' id = mkResponse 200 (UserBody u)).
Proof.
  intros Hok Hpost Hs.
  destruct (post_users_201 _ _ _ _ _ Hok Hpost Hs) as (u & Hr & Hst & Hid & Hfresh).
  assert (Hok' : store_ok st').
  { replace st' with (fst (post_users st now b)) by now rewrite Hpost.
    now apply post_users_ok. }
  assert (Hin : In u (users st')).
  { rewrite Hst. cbn [users]. apply in_or_app. right. now left. }
  exists u. split; [exact Hr|]. split; [exact Hin|].
  intros id Hc. unfold get_user, findById. rewrite Hc.
  now rewrite (find_hasId_Some (_id u) (users st') u (ok_ids_distinct st' Hok') Hin).
Qed.

Lemma create_then_get_witness :
  get_user (fst (post_users oneUser 2000 bob)) id1 = mkResponse 200 (UserBody bobDoc).
Proof.
  destruct (create_then_get oneUser 2000 bob
              (fst (post_users oneUser 2000 bob)) (snd (post_users oneUser 2000 bob)))
    as (u & Hr & _ & Hg).
  - apply reachable_ok, oneUser_reachable.
  - apply surjective_pairing.
  - vm_compute; reflexivity.
  - assert (Hu : u = bobDoc) by (vm_compute in Hr; now injection Hr as <-).
    subst u. apply Hg. vm_compute; reflexivity.
Defined.

(** X4.  Delete undoes create: after a create answered 201, a delete
    addressed to the id of the new record is answered 200 with that
    record and leaves the collection that was there before the create. *)
Theorem create_then_delete (st : State) (now : Z) (b : Fields) (st' : State)
        (resp : Response) :
  store_ok st ->
  post_users st now b = (st', resp) -> status resp = 201%Z ->
  exists u,
    resp = mkResponse 201 (MessageUserBody "User created successfully" u) /\
    (forall id, castObjectId id = Some (_id u) ->
       snd (delete_user st' id) =
         mkResponse 200 (MessageUserBody "User deleted successfully" u) /\
       users (fst (delete_user st' id)) = users st).
Proof.
  intros Hok Hpost Hs.
  destruct (post_users_201 _ _ _ _ _ Hok Hpost Hs) as (u & Hr & Hst & Hid & Hfresh).
  assert (Hok' : store_ok st').
  { replace st' with (fst (post_users st now b)) by now rewrite Hpost.
    now apply post_users_ok. }
  assert (Hin : In u (users st')).
  { rewrite Hst. cbn [users]. apply in_or_app. right. now left. }
  exists u. split; [exact Hr|].
  intros id Hc. unfold delete_user, findByIdAndDelete. rewrite Hc.
  rewrite (find_hasId_Some (_id u) (users st') u (ok_ids_distinct st' Hok') Hin eq_refl).
  cbn [fst snd users]. split; [reflexivity|].
  rewrite Hst. cbn [users]. now apply removeDoc_app_last.
Qed.

Lemma create_then_delete_witness :
  users (fst (delete_user (fst (post_users oneUser 2000 bob)) id1)) = users oneUser.
Proof.
  destruct (create_then_delete oneUser 2000 bob
              (fst (post_users oneUser 2000 bob)) (snd (post_users oneUser 2000 bob)))
    as (u & Hr & Hd).
  - apply reachable_ok, oneUser_reachable.
  - apply surjective_pairing.
  - vm_compute; reflexivity.
  - assert (Hu : u = bobDoc) by (vm_compute in Hr; now injection Hr as <-).
    subst u. apply (Hd id1). vm_compute; reflexivity.
Defined.

(** X5.  A create is answered 201 exactly when its fields, as the setters
    leave them, pass validation and no stored email equals its trimmed,
    lower-cased email; every other create is answered 400 and leaves the
    collection as it was. *)
Theorem create_succeeds_iff (st : State) (now : Z) (b : Fields) :
  (status (snd (post_users st now b)) = 201%Z <->
   validateDoc (applySetters b) = [] /\
   (forall e d, f_email b = Some e -> In d (users st) -> email d <> setEmail e)) /\
  (status (snd (post_users st now b)) <> 201%Z ->
   status (snd (post_users st now b)) = 400%Z /\
   users (fst (post_users st now b)) = users st).
Proof.
  destruct (post_users_cases st now b)
    as [(x & Hx & E) | [(Hfree & err & Hsave & E) | (Hfree & u & st2 & Hsave & E)]];
    rewrite E; cbn [fst snd status users duplicateEmail].
  - split; [|intros _; now split].
    split; [discriminate|]. intros [Hv Hno].
    destruct (validateDoc_nil _ Hv) as (n & e' & _ & He' & _).
    cbn in He'. destruct (f_email b) as [e|] eqn:Ee; [|discriminate He'].
    cbn [findOne_email] in Hx. apply find_some in Hx as [Hin Heq].
    apply String.eqb_eq in Heq. now elim (Hno e x eq_refl Hin).
  - split; [|intros _; now split].
    split; [discriminate|]. intros [Hv Hno]. exfalso.
    destruct (validateDoc_nil _ Hv) as (n & e' & Hn & He' & _).
    unfold save in Hsave. rewrite Hv, Hn, He' in Hsave.
    rewrite emailTaken_false in Hsave; [discriminate Hsave|].
    cbn [users]. intros d Hd Heq.
    cbn in He'. destruct (f_email b) as [e|] eqn:Ee; [|discriminate He'].
    cbn in He'. injection He' as <-. exact (Hno e d eq_refl Hd Heq).
  - split; [|intros H; now elim H].
    split; [|reflexivity]. intros _.
    apply save_Ok in Hsave as (Hv & _ & _ & _ & _ & _). split; [exact Hv|].
    intros e d He Hd. rewrite He in Hfree.
    exact (findOne_email_None_inv st e Hfree d Hd).
Qed.

(** X6.  In a state with distinct ids and distinct emails, an update is
    answered 200 exactly when its id casts to the id of a record, the
    fields it sets pass validation, and the trimmed, lower-cased email it
    sets, if any, is the email of no other record; the record's own
    email, in any letter case, is no conflict. *)
Theorem update_succeeds_iff (st : State) (now : Z) (id : string) (b : Fields) :
  store_ok st -> emails_distinct st ->
  (status (snd (put_user st now id b)) = 200%Z <->
   exists d,
     In d (users st) /\ castObjectId id = Some (_id d) /\
     validateUpdate (applySetters b) = [] /\
     (forall e x, f_email b = Some e -> In x (users st) ->
                  email x = setEmail e -> x = d)).
Proof.
  intros Hok Hdist. split.
  - intros Hs.
    destruct (put_user st now id b) as [st' resp] eqn:E. cbn [snd] in Hs.
    destruct (put_user_200 _ _ _ _ _ _ E Hs) as (u & Hu & _).
    apply findByIdAndUpdate_Some in Hu as (oid & d & Hc & Hf & Hv & Hu & Ht & _).
    apply find_some in Hf as [Hin Hid]. apply hasId_true in Hid. subst oid.
    exists d. repeat split; try assumption.
    intros e x He Hx Heq.
    apply (NoDup_map_eq _id (users st)); [apply (ok_ids_distinct st Hok) | | |];
      try assumption.
    apply (emailTaken_false_inv _ _ _ Ht x Hx).
    rewrite Heq, Hu. unfold applyUpdate, orKeep. cbn. now rewrite He.
  - intros (d & Hin & Hc & Hv & Hown).
    assert (Hfind : find (hasId (_id d)) (users st) = Some d).
    { apply find_hasId_Some; [apply (ok_ids_distinct st Hok) | exact Hin | reflexivity]. }
    assert (Hcheck :
      match f_email b with
      | Some e => if truthy e then findOne_email_ne st e id else Ok None
      | None => Ok None
      end = Ok None).
    { destruct (f_email b) as [e|] eqn:Ee; [|reflexivity].
      destruct (truthy e); [|reflexivity].
      unfold findOne_email_ne. rewrite Hc.
      destruct (find (fun x => String.eqb (email x) (setEmail e)
                               && negb (hasId (_id d) x)) (users st))
        as [x|] eqn:Ef; [|reflexivity].
      apply find_some in Ef as [Hx Ht]. apply andb_true_iff in Ht as [Ht Hn].
      apply String.eqb_eq in Ht. apply negb_true_iff, hasId_false in Hn.
      now elim Hn; rewrite (Hown e x eq_refl Hx Ht). }
    unfold put_user. rewrite Hcheck.
    unfold findByIdAndUpdate. rewrite Hc, Hv, Hfind.
    rewrite emailTaken_false_when; [reflexivity|].
    intros x Hx Heq. f_equal.
    unfold applyUpdate, orKeep in Heq. cbn in Heq.
    destruct (f_email b) as [e|] eqn:Ee; cbn in Heq.
    + exact (Hown e x eq_refl Hx Heq).
    + apply (NoDup_map_eq email (users st)); assumption.
Qed.

Lemma update_succeeds_iff_witness :
  status (snd (put_user twoUsers 3000 id0 joUpper)) = 200%Z.
Proof.
  apply (update_succeeds_iff twoUsers 3000 id0 joUpper).
  - apply reachable_ok, twoUsers_reachable.
  - apply reachable_distinct, twoUsers_reachable.
  - exists joDoc. split; [now left|]. split; [vm_compute; reflexivity|].
    split; [vm_compute; reflexivity|].
    intros e x He Hx Heq. injection He as <-.
    destruct Hx as [<- | [<- | []]]; [reflexivity|].
    vm_compute in Heq. discriminate Heq.
Defined.

(** X7.  A write that is not answered with success changes nothing: a
    failed update or delete leaves the whole state as it was, a failed
    create leaves the collection as it was.  An update, failed or not,
    never adds, removes or reorders records and never draws an id. *)
Theorem failed_write_changes_nothing (st : State) :
  (forall now b, status (snd (post_users st now b)) <> 201%Z ->
                 users (fst (post_users st now b)) = users st) /\
  (forall now id b, status (snd (put_user st now id b)) <> 200%Z ->
                    fst (put_user st now id b) = st) /\
  (forall id, status (snd (delete_user st id)) <> 200%Z ->
              fst (delete_user st id) = st) /\
  (forall now id b,
     map _id (users (fst (put_user st now id b))) = map _id (users st) /\
     oidCounter (fst (put_user st now id b)) = oidCounter st).
Proof.
  split; [|split; [|split]].
  - intros now b Hs.
    destruct (post_users_cases st now b)
      as [(x & _ & E) | [(_ & err & _ & E) | (_ & u & st2 & _ & E)]];
      rewrite E in *; cbn [fst snd status users] in *; try reflexivity.
    now elim Hs.
  - intros now id b Hs.
    destruct (put_user_cases st now id b) as [[E _] | E]; [exact E | now elim Hs].
  - intros id Hs.
    destruct (delete_user_cases st id) as [[E _] | [E _]]; [exact E | now elim Hs].
  - intros now id b.
    destruct (put_user_cases st now id b) as [[-> _] | Hs]; [now split|].
    destruct (put_user st now id b) as [st' resp] eqn:E. cbn [fst snd] in *.
    destruct (put_user_200 _ _ _ _ _ _ E Hs) as (u & Hu & _).
    apply findByIdAndUpdate_Some in Hu as (oid & d & _ & _ & _ & _ & _ & ->).
    cbn [users oidCounter]. split; [apply replaceDoc_ids | reflexivity].
Qed.

(** X8.  A read addressed to a string that is no ObjectId is answered 500
    with the cast error; addressed to a well-formed id that no record
    has, 404; addressed to the id of a record, 200 with that record. *)
Theorem get_user_spec (st : State) (id : string) :
  store_ok st ->
  (castObjectId id = None ->
   get_user st id = mkResponse 500 (ErrorBody (MessageOf (CastError id "_id")))) /\
  (forall oid, castObjectId id = Some oid ->
   (forall d, In d (users st) -> _id d <> oid) ->
   get_user st id = mkResponse 404 (ErrorBody (Text "User not found"))) /\
  (forall d, In d (users st) -> castObjectId id = Some (_id d) ->
   get_user st id = mkResponse 200 (UserBody d)).
Proof.
  intros Hok. unfold get_user, findById. split; [|split].
  - now intros ->.
  - intros oid -> Hmissing.
    now rewrite (proj2 (find_hasId_None oid (users st)) Hmissing).
  - intros d Hd ->.
    now rewrite (find_hasId_Some (_id d) (users st) d (ok_ids_distinct st Hok) Hd).
Qed.

Lemma get_user_spec_witness :
  get_user twoUsers "abc" =
    mkResponse 500 (ErrorBody (MessageOf (CastError "abc" "_id"))) /\
  get_user twoUsers id9 = mkResponse 404 (ErrorBody (Text "User not found")) /\
  get_user twoUsers id1 = mkResponse 200 (UserBody bobDoc).
Proof.
  assert (Hok : store_ok twoUsers) by apply reachable_ok, twoUsers_reachable.
  destruct (get_user_spec twoUsers "abc" Hok) as (H1 & _).
  destruct (get_user_spec twoUsers id9 Hok) as (_ & H2 & _).
  destruct (get_user_spec twoUsers id1 Hok) as (_ & _ & H3).
  split; [apply H1; vm_compute; reflexivity|].
  split.
  - apply (H2 9%N); [vm_compute; reflexivity|].
    intros d [<- | [<- | []]]; vm_compute; discriminate.
  - apply H3; [right; now left | vm_compute; reflexivity].
Defined.

(** X9.  Email uniqueness: in every state that the routes produce from the
    empty collection, two records whose emails are equal up to letter
    case are the same record, and every stored email is trimmed and in
    lower case. *)
Theorem emails_unique (st : State) :
  reachable st ->
  (forall d1 d2, In d1 (users st) -> In d2 (users st) ->
                 toLowerCase (email d1) = toLowerCase (email d2) -> d1 = d2) /\
  (forall d, In d (users st) ->
             toLowerCase (email d) = email d /\ trim (email d) = email d).
Proof.
  intros Hr. pose proof (reachable_ok st Hr) as Hok.
  pose proof (reachable_distinct st Hr) as Hd.
  assert (Hlow : forall d, In d (users st) -> toLowerCase (email d) = email d).
  { intros d Hin. apply stored_lower. now apply (ok_email_stored st Hok). }
  split.
  - intros d1 d2 H1 H2 Heq. rewrite (Hlow d1 H1), (Hlow d2 H2) in Heq.
    now apply (NoDup_map_eq email (users st)).
  - intros d Hin. split; [now apply Hlow|].
    pose proof (ok_email_stored st Hok d Hin) as Hs. unfold setEmail in Hs.
    rewrite (Hlow d Hin) in Hs. exact Hs.
Qed.

Lemma emails_unique_witness :
  toLowerCase (email bobDoc) = email bobDoc /\ trim (email bobDoc) = email bobDoc.
Proof.
  destruct (emails_unique twoUsers twoUsers_reachable) as [_ H].
  apply H. right. now left.
Defined.

End UsersMoreSpec.

(** ** The schema *)

Module ModelFacts.
Import Js JsFacts Regex UserModel Mongoose Notions MoreNotions RegexFacts ValidityFacts.

Lemma AllChars_app (P : ascii -> Prop) (s t : string) :
  AllChars P (s ++ t) <-> AllChars P s /\ AllChars P t.
Proof. induction s as [|c s IH]; simpl; [tauto | rewrite IH; tauto]. Qed.

Lemma AllChars_impl (P Q : ascii -> Prop) (s : string) :
  (forall c, P c -> Q c) -> AllChars P s -> AllChars Q s.
Proof. intros H. induction s as [|c s IH]; simpl; [trivial | intuition]. Qed.

Lemma Lang_alphabet (P : ascii -> Prop) (r : re) (w : string) :
  alphabet P r -> Lang r w -> AllChars P w.
Proof.
  intros Ha H. induction H; cbn [alphabet] in Ha; try exact I.
  - split; [now apply Ha | exact I].
  - apply AllChars_app. split; [apply IHLang1 | apply IHLang2]; apply Ha.
  - apply IHLang, Ha.
  - apply IHLang, Ha.
  - apply AllChars_app. split; [now apply IHLang1 | now apply IHLang2].
Qed.

Lemma trimEnd_no_space (s : string) :
  AllChars (fun c => isSpace c = false) s -> trimEnd s = s.
Proof.
  induction s as [|c s IH]; simpl; [reflexivity|].
  intros [Hc Hs]. rewrite (IH Hs), Hc. now destruct s.
Qed.

Lemma trim_no_space (s : string) :
  AllChars (fun c => isSpace c = false) s -> trim s = s.
Proof.
  intros H. unfold trim. rewrite trimStart_of_clean.
  - now apply trimEnd_no_space.
  - destruct s as [|c s]; [exact I | exact (proj1 H)].
Qed.

Lemma isOneOf_In (l : list N) (c : ascii) :
  isOneOf l c = true -> exists n, In n l /\ c = ascii_of_N n.
Proof.
  unfold isOneOf. intros H. apply existsb_exists in H as (n & Hn & Heq).
  apply N.eqb_eq in Heq. exists n. split; [exact Hn|].
  unfold code in Heq. now rewrite <- Heq, ascii_N_embedding.
Qed.

Lemma emailChar_plain (c : ascii) :
  emailChar c -> c <> "@"%char /\ isSpace c = false.
Proof.
  intros [H | [-> | ->]]; [|split; [discriminate | reflexivity]..].
  destruct c as [[] [] [] [] [] [] [] []]; vm_compute in H; try discriminate H;
    split; (discriminate || reflexivity).
Qed.

Lemma wordsRe_alphabet : alphabet emailChar wordsRe.
Proof.
  unfold wordsRe, plus, opt. cbn [alphabet].
  assert (Hw : forall c, isWord c = true -> emailChar c) by (intros c H; now left).
  assert (Hd : forall c, isOneOf [46; 45]%N c = true -> emailChar c).
  { intros c H. apply isOneOf_In in H as (n & [<- | [<- | []]] & ->);
      right; [now left | now right]. }
  repeat split; assumption.
Qed.

Lemma tail_alphabet :
  alphabet emailChar
    (Seq wordsRe
         (plus (Seq (Chr (isOneOf [46]%N))
                    (Seq (Chr isWord) (Seq (Chr isWord) (opt (Chr isWord))))))).
Proof.
  assert (Hw : forall c, isWord c = true -> emailChar c) by (intros c H; now left).
  assert (Hd : forall c, isOneOf [46]%N c = true -> emailChar c).
  { intros c H. apply isOneOf_In in H as (n & [<- | []] & ->). right. now left. }
  split; [exact wordsRe_alphabet|].
  unfold plus, opt. cbn [alphabet]. repeat split; assumption.
Qed.

(** A word of an expression that starts by reading a character is not
    empty. *)
Lemma Lang_starts_with_Chr (p : ascii -> bool) (a b : re) (w : string) :
  Lang (Seq (Seq (Chr p) a) b) w -> w <> EmptyString.
Proof.
  intros H. inversion H as [| |? ? u v Hu Hv| | | |]; subst.
  inversion Hu as [| |? ? u1 u2 Hu1 Hu2| | | |]; subst.
  inversion Hu1; subst. discriminate.
Qed.

Lemma Lang_plus_Chr (p : ascii -> bool) (s : string) :
  AllChars (fun c => p c = true) s -> s <> EmptyString -> Lang (plus (Chr p)) s.
Proof.
  unfold plus. destruct s as [|c s]; [now intros _ H|]. intros [Hc Hs] _.
  change (String c s) with (String c EmptyString ++ s).
  constructor; [now constructor|].
  clear c Hc. induction s as [|c s IH]; [constructor|].
  change (String c s) with (String c EmptyString ++ s).
  constructor; [constructor; apply Hs | apply IH, Hs].
Qed.

Lemma valid_facts (d : User) :
  valid d ->
  2 <= String.length (name d) <= 50 /\
  email d <> EmptyString /\ matches emailRe (email d) = true /\
  (forall a, age d = Some a -> (1 <= a <= 150)%Z) /\
  (forall c, city d = Some c -> String.length c <= 100) /\
  (forall p, phone d = Some p -> p = EmptyString \/ matches phoneRe p = true).
Proof.
  unfold valid. rewrite validateDoc_iff. cbn [fieldsOf f_name f_email f_age f_city f_phone].
  intros (Hn & He & Ha & Hc & Hp).
  split; [|split; [|split; [|split; [|split]]]].
  - unfold validateName in Hn.
    destruct (truthy (name d)); [|discriminate Hn]. cbn [negb] in Hn.
    destruct (Nat.ltb (String.length (name d)) 2) eqn:E1; [discriminate Hn|].
    destruct (Nat.ltb 50 (String.length (name d))) eqn:E2; [discriminate Hn|].
    apply Nat.ltb_ge in E1, E2. lia.
  - intros E. rewrite E in He. discriminate He.
  - unfold validateEmail, matchValidator in He.
    destruct (truthy (email d)); [|discriminate He]. cbn [negb] in He.
    destruct (matches emailRe (email d)); [reflexivity | discriminate He].
  - intros a Ea. rewrite Ea in Ha. unfold validateAge in Ha.
    destruct (a <? 1)%Z eqn:E1; [discriminate Ha|].
    destruct (150 <? a)%Z eqn:E2; [discriminate Ha|].
    apply Z.ltb_ge in E1, E2. lia.
  - intros c Ec. rewrite Ec in Hc. unfold validateCity in Hc.
    destruct (Nat.ltb 100 (String.length c)) eqn:E; [discriminate Hc|].
    now apply Nat.ltb_ge in E.
  - intros p Ep. rewrite Ep in Hp. unfold validatePhone, matchValidator in Hp.
    destruct p as [|c p]; [now left|]. right. cbn [truthy] in Hp.
    destruct (matches phoneRe (String c p)); [reflexivity | discriminate Hp].
Qed.

End ModelFacts.

Module ModelSpec.
Import Js JsFacts Regex UserModel Mongoose Users Notions MoreNotions RegexFacts
       StoreFacts UsersFacts UsersMoreFacts ValidityFacts ModelFacts Sample.

(** X10.  The schema holds of what is stored: in every state that the
    routes produce from the empty collection, every record has a name of
    2 to 50 characters, a non-empty email that matches the email pattern,
    an age, if any, from 1 to 150, a city, if any, of at most 100
    characters, and a phone, if any, that is empty or matches the phone
    pattern. *)
Theorem reachable_valid (st : State) (d : User) :
  reachable st -> In d (users st) ->
  validateDoc (fieldsOf d) = [] /\
  2 <= String.length (name d) <= 50 /\
  email d <> EmptyString /\ matches emailRe (email d) = true /\
  (forall a, age d = Some a -> (1 <= a <= 150)%Z) /\
  (forall c, city d = Some c -> String.length c <= 100) /\
  (forall p, phone d = Some p -> p = EmptyString \/ matches phoneRe p = true).
Proof.
  intros Hr Hd.
  assert (Hv : valid d).
  { revert d Hd. induction Hr as [|st now b _ IH|st now id b _ IH|st id _ IH].
    - intros d [].
    - now apply post_users_valid.
    - now apply put_user_valid.
    - now apply delete_user_valid. }
  split; [exact Hv | now apply valid_facts].
Qed.

Lemma reachable_valid_witness :
  matches emailRe (email bobDoc) = true /\
  (forall a, age bobDoc = Some a -> (1 <= a <= 150)%Z).
Proof.
  assert (Hr : reachable twoUsers).
  { assert (E1 : fst (post_users emptyState 1000 jo) = oneUser)
      by (vm_compute; reflexivity).
    assert (E2 : fst (post_users oneUser 2000 bob) = twoUsers)
      by (vm_compute; reflexivity).
    rewrite <- E2, <- E1. apply reach_post, reach_post, reach_empty. }
  destruct (reachable_valid twoUsers bobDoc Hr) as (_ & _ & _ & Hm & Ha & _).
  - right. now left.
  - split; [exact Hm | exact Ha].
Defined.

(** X11.  An email that the validator accepts is made of a non-empty part
    before and a non-empty part after one [@], both of word characters,
    dots and dashes only; it has no other [@] and no white space, and
    trimming leaves it as it is. *)
Theorem accepted_email_shape (s : string) :
  validateEmail (Some s) = None ->
  exists u v,
    s = u ++ "@" ++ v /\ u <> EmptyString /\ v <> EmptyString /\
    AllChars emailChar u /\ AllChars emailChar v /\
    AllChars (fun c => c <> "@"%char /\ isSpace c = false) u /\
    AllChars (fun c => c <> "@"%char /\ isSpace c = false) v /\
    trim s = s.
Proof.
  intros Hv. unfold validateEmail, matchValidator in Hv.
  destruct (truthy s); [|discriminate Hv]. cbn [negb] in Hv.
  destruct (matches emailRe s) eqn:Em; [|discriminate Hv].
  apply matches_words in Em. unfold emailRe in Em.
  inversion Em as [| |? ? u w Hu Hw| | | |]; subst.
  inversion Hw as [| |? ? x v Hx Hrest| | | |]; subst.
  inversion Hx as [|? c Hc| | | | |]; subst.
  apply isOneOf_In in Hc as (n & [<- | []] & ->).
  pose proof (Lang_alphabet emailChar _ _ wordsRe_alphabet Hu) as Au.
  pose proof (Lang_alphabet emailChar _ _ tail_alphabet Hrest) as Av.
  exists u, v. split; [reflexivity|].
  split; [exact (Lang_starts_with_Chr _ _ _ _ Hu)|].
  split.
  { inversion Hrest as [| |? ? v1 v2 Hv1 Hv2| | | |]; subst.
    pose proof (Lang_starts_with_Chr _ _ _ _ Hv1) as Hne.
    destruct v1; [now elim Hne | discriminate]. }
  split; [exact Au|]. split; [exact Av|].
  assert (Pu := AllChars_impl _ _ u emailChar_plain Au).
  assert (Pv := AllChars_impl _ _ v emailChar_plain Av).
  split; [exact Pu|]. split; [exact Pv|].
  apply trim_no_space. apply AllChars_app. split.
  - apply (AllChars_impl _ _ u (fun c H => proj2 H) Pu).
  - split; [reflexivity|]. apply (AllChars_impl _ _ v (fun c H => proj2 H) Pv).
Qed.

Lemma accepted_email_shape_witness :
  exists u v, "bob@y.org" = u ++ "@" ++ v /\ u <> EmptyString /\ v <> EmptyString.
Proof.
  destruct (accepted_email_shape "bob@y.org") as (u & v & H1 & H2 & H3 & _).
  - vm_compute; reflexivity.
  - now exists u, v.
Defined.

(** X12.  The phone validator accepts exactly the strings made of digits,
    the characters [- + ( )] and white space; the empty string is one of
    them. *)
Theorem accepted_phone_chars (s : string) :
  validatePhone (Some s) = None <-> AllChars phoneChar s.
Proof.
  unfold validatePhone, matchValidator.
  destruct s as [|c s]; [cbn; tauto|]. cbn [truthy].
  split.
  - destruct (matches phoneRe (String c s)) eqn:Em; [|discriminate]. intros _.
    apply matches_words in Em. apply (Lang_alphabet phoneChar _ _) in Em; [exact Em|].
    unfold phoneRe, plus. cbn [alphabet]. split; intros x Hx; exact Hx.
  - intros H.
    assert (Em : matches phoneRe (String c s) = true).
    { apply matches_words. unfold phoneRe. apply Lang_plus_Chr; [exact H | discriminate]. }
    now rewrite Em.
Qed.

(** X13.  The setters are idempotent: fields that went through the setters
    are left as they are by the setters, so that what is stored is stored
    again unchanged. *)
Theorem applySetters_idem (f : Fields) :
  applySetters (applySetters f) = applySetters f.
Proof.
  unfold applySetters. cbn [f_name f_email f_age f_city f_phone].
  f_equal.
  - destruct (f_name f); cbn [option_map]; [|reflexivity].
    unfold setName. now rewrite trim_idem.
  - destruct (f_email f); cbn [option_map]; [|reflexivity].
    now rewrite setEmail_idem.
  - destruct (f_city f); cbn [option_map]; [|reflexivity].
    unfold setCity. now rewrite trim_idem.
  - destruct (f_phone f); cbn [option_map]; [|reflexivity].
    unfold setPhone. now rewrite trim_idem.
Qed.

End ModelSpec.

(** ** Pages, on the server and in the client *)

Module PagesSpec.
Import Js UserModel Mongoose Users Client Notions PagingFacts Sample.
Local Open Scope list_scope.

(** X14.  For page [p >= 1] and limit [size >= 1], and whatever the scan
    of the query, the page holds
    [min(size, max(0, total - (p - 1) * size))] records: it is full
    before the last page, not empty up to the last page, and empty
    beyond it. *)
Theorem page_sizes (st : State) (order : Scan) (p size : Z) :
  (1 <= p)%Z -> (1 <= size)%Z ->
  let total := Z.of_nat (List.length (users st)) in
  Z.of_nat (List.length (usersOnPage (list_users st order p size))) =
    Z.min size (Z.max 0 (total - (p - 1) * size)) /\
  ((p <= ceilDiv total size)%Z -> usersOnPage (list_users st order p size) <> []) /\
  ((ceilDiv total size < p)%Z -> usersOnPage (list_users st order p size) = []).
Proof.
  intros Hp Hs total.
  assert (Htotal : (0 <= total)%Z) by (unfold total; lia).
  pose proof (ceilDiv_spec total size Htotal Hs) as Hceil.
  assert (Hlen : Z.of_nat (List.length (usersOnPage (list_users st order p size))) =
                 Z.min size (Z.max 0 (total - (p - 1) * size))).
  { unfold list_users. rewrite find_page by assumption.
    unfold usersOnPage. cbn [body].
    rewrite length_firstn, length_skipn.
    rewrite (Permutation_length (sortDesc_perm _)),
      (Permutation_length (scanned_perm order (users st))).
    fold (Z.to_nat total). unfold total. nia. }
  split; [exact Hlen|]. split.
  - intros Hle E. rewrite E in Hlen. cbn [List.length] in Hlen. nia.
  - intros Hlt. apply length_zero_iff_nil. nia.
Qed.

Lemma page_sizes_witness :
  Z.of_nat (List.length (usersOnPage (list_users twoUsers [] 2 1))) = 1%Z /\
  usersOnPage (list_users twoUsers [1%nat] 3 1) = [].
Proof.
  destruct (page_sizes twoUsers [] 2 1 ltac:(lia) ltac:(lia)) as (H1 & _).
  destruct (page_sizes twoUsers [1%nat] 3 1 ltac:(lia) ltac:(lia)) as (_ & _ & H2).
  split; [exact H1 | apply H2; vm_compute; reflexivity].
Defined.

Lemma In_pagesFrom (startPage endPage page : Z) :
  In page (pagesFrom startPage endPage) <-> (startPage <= page <= endPage)%Z.
Proof.
  unfold pagesFrom. rewrite in_map_iff. split.
  - intros (i & <- & Hi). apply in_seq in Hi. lia.
  - intros H. exists (Z.to_nat (page - startPage)). split; [lia|].
    apply in_seq. lia.
Qed.

(** X15.  With at least two pages, a current page among them and no search
    term, the pagination bar shows a window of [min(5, totalPages)]
    consecutive page numbers within [1 .. totalPages] that contains the
    current page, between a Previous item, disabled on page 1, and a Next
    item, disabled on the last page; with one page at most, or with a
    search term, there is no bar. *)
Theorem pagination_window (totalPages currentPage : Z) :
  (2 <= totalPages)%Z -> (1 <= currentPage <= totalPages)%Z ->
  exists startPage endPage,
    pageWindow totalPages currentPage = (startPage, endPage) /\
    (1 <= startPage <= currentPage)%Z /\ (currentPage <= endPage <= totalPages)%Z /\
    (endPage - startPage + 1 = Z.min 5 totalPages)%Z /\
    (forall page, In page (pagesFrom startPage endPage) <->
                  (startPage <= page <= endPage)%Z) /\
    List.length (pagesFrom startPage endPage) = Z.to_nat (Z.min 5 totalPages) /\
    renderPagination totalPages currentPage EmptyString =
      Some (Prev (currentPage =? 1)%Z (currentPage - 1)%Z
            :: map (fun page => PageItem page (page =? currentPage)%Z)
                   (pagesFrom startPage endPage)
            ++ [Next (currentPage =? totalPages)%Z (currentPage + 1)%Z]) /\
    (forall term, term <> EmptyString ->
                  renderPagination totalPages currentPage term = None).
Proof.
  intros Ht Hc.
  destruct (pageWindow totalPages currentPage) as [startPage endPage] eqn:E.
  exists startPage, endPage.
  assert (Hw : (1 <= startPage <= currentPage)%Z /\
               (currentPage <= endPage <= totalPages)%Z /\
               (endPage - startPage + 1 = Z.min 5 totalPages)%Z).
  { unfold pageWindow, maxVisiblePages in E. change (5 / 2)%Z with 2%Z in E.
    destruct (Z.min totalPages (Z.max 1 (currentPage - 2) + 5 - 1)
              - Z.max 1 (currentPage - 2) <? 5 - 1)%Z eqn:L;
      injection E as <- <-; [apply Z.ltb_lt in L | apply Z.ltb_ge in L]; lia. }
  destruct Hw as (H1 & H2 & H3).
  split; [reflexivity|]. split; [exact H1|]. split; [exact H2|]. split; [exact H3|].
  split; [intros page; apply In_pagesFrom|].
  split; [unfold pagesFrom; rewrite length_map, length_seq; lia|].
  split.
  - unfold renderPagination. rewrite E.
    destruct (totalPages <=? 1)%Z eqn:L; [apply Z.leb_le in L; lia | reflexivity].
  - intros term Hterm. unfold renderPagination.
    destruct term; [now elim Hterm|]. cbn [truthy]. now rewrite orb_true_r.
Qed.

Lemma pagination_window_witness :
  exists startPage endPage,
    pageWindow 9 8 = (startPage, endPage) /\
    (endPage - startPage + 1 = Z.min 5 9)%Z /\
    (startPage <= 8 <= endPage)%Z.
Proof.
  destruct (pagination_window 9 8 ltac:(lia) ltac:(lia))
    as (s & e & Hw & H1 & H2 & H3 & _).
  exists s, e. split; [exact Hw|]. split; [exact H3 | lia].
Defined.

End PagesSpec.

(** ** More on the health views *)

Module HealthMoreFacts.
Import Js HealthCheck Express Server Notions MoreNotions HealthFacts.

Lemma getSystemMetrics_returns (p : Process) (k : Counters) :
  (exists m, getSystemMetrics p k = Returns m) <->
  (exists mem, memoryUsage p = Returns mem) /\ (exists t, cpuUsage p = Returns t).
Proof.
  unfold getSystemMetrics.
  destruct (memoryUsage p) as [mem|e1], (cpuUsage p) as [t|e2]; split;
    try (intros [m H]; discriminate H);
    try (intros [[mem' H1] [t' H2]]; discriminate);
    eauto.
Qed.

Lemma detailed_route (k : Counters) (c : Connection) (p : Process) :
  serve k c p (mkRequest GET "/health/detailed") =
  (incrementHealthCheckCount p k,
   health_detailed c p (incrementHealthCheckCount p k)).
Proof. reflexivity. Qed.

Lemma database_route (k : Counters) (c : Connection) (p : Process) :
  serve k c p (mkRequest GET "/health/database") =
  (incrementHealthCheckCount p k, health_database c p).
Proof. reflexivity. Qed.

Lemma metrics_route (k : Counters) (c : Connection) (p : Process) :
  serve k c p (mkRequest GET "/metrics") = (k, metrics p k).
Proof. reflexivity. Qed.

Lemma health_route (k : Counters) (c : Connection) (p : Process) :
  serve k c p (mkRequest GET "/health") = (incrementHealthCheckCount p k, health p).
Proof. reflexivity. Qed.

Lemma checkDatabase_status (c : Connection) :
  db_status (checkDatabase c) = "OK" <-> storeUp c.
Proof.
  split; [|apply checkDatabase_up].
  intros H. destruct (storeUp_dec c) as [Hup | Hdown]; [exact Hup|].
  rewrite (proj1 (checkDatabase_down c Hdown)) in H. discriminate H.
Qed.

Lemma serveAll_last (k : Counters) (events : list Event) :
  lastHealthCheck (fst (serveAll k events)) =
    match lastUnderHealth events with
    | Some t => Some t
    | None => lastHealthCheck k
    end /\
  startTime (fst (serveAll k events)) = startTime k.
Proof.
  revert k. induction events as [|[[c p] r] events IH]; intros k;
    cbn [serveAll lastUnderHealth]; [now split|].
  assert (Hk : fst (serve k c p r) =
               if passedOn r && mountMatches "/health" (path r)
               then incrementHealthCheckCount p k else k).
  { destruct (passedOn r) eqn:E.
    - rewrite (serve_passed k c p r E). reflexivity.
    - apply (serve_not_passed k c p r E). }
  destruct (serve k c p r) as [k1 resp] eqn:E1.
  destruct (IH k1) as [IH1 IH2].
  destruct (serveAll k1 events) as [k2 resps] eqn:E2. cbn [fst] in *.
  subst k1. rewrite IH1, IH2.
  destruct (lastUnderHealth events), (passedOn r && mountMatches "/health" (path r));
    now split.
Qed.

End HealthMoreFacts.

Module HealthMoreSpec.
Import Js HealthCheck Express Server Healthcheck Notions MoreNotions HealthFacts
       HealthMoreFacts Sample.

(** X16.  The database view is OK exactly when the connection state is
    "connected" and the ping returns, and [GET /health/database] is then
    answered 200, otherwise 503.  When the state is another one the view
    names that state and says that the database is not connected; when
    the ping fails it carries the message of the failure. *)
Theorem database_view (k : Counters) (c : Connection) (p : Process) :
  (db_status (checkDatabase c) = "OK" <-> storeUp c) /\
  (status (snd (serve k c p (mkRequest GET "/health/database"))) = 200%Z <->
   storeUp c) /\
  (~ storeUp c ->
   status (snd (serve k c p (mkRequest GET "/health/database"))) = 503%Z) /\
  (readyState c <> 1%Z ->
   db_state (checkDatabase c) = states (readyState c) /\
   db_error (checkDatabase c) = Some "Database is not connected") /\
  (forall m, readyState c = 1%Z -> ping c = Raises m ->
             db_error (checkDatabase c) = Some m) /\
  (forall t, readyState c = 1%Z -> ping c = Returns t ->
             db_state (checkDatabase c) = Some "connected" /\
             db_info (checkDatabase c) =
               Some (mkDbInfo (conn_name c) (conn_host c) (conn_port c) t)).
Proof.
  rewrite database_route. cbn [snd]. unfold health_database. cbn [status].
  split; [apply checkDatabase_status|].
  split; [|split; [|split; [|split]]].
  - rewrite <- checkDatabase_status.
    destruct (String.eqb_spec (db_status (checkDatabase c)) "OK"); split;
      congruence.
  - intros Hdown.
    destruct (String.eqb_spec (db_status (checkDatabase c)) "OK") as [E | E];
      [|reflexivity].
    now apply checkDatabase_status in E.
  - intros Hr. unfold checkDatabase.
    destruct (readyState c =? 1)%Z eqn:E; [apply Z.eqb_eq in E; now elim Hr|].
    now split.
  - intros m Hr Hp. unfold checkDatabase. now rewrite Hr, Hp.
  - intros t Hr Hp. unfold checkDatabase. now rewrite Hr, Hp.
Qed.

Lemma database_view_witness :
  db_state (checkDatabase disconnected) = Some "disconnected" /\
  db_error (checkDatabase pingFails) = Some "connection timed out" /\
  status (snd (serve (initial 0) disconnected process0
                     (mkRequest GET "/health/database"))) = 503%Z.
Proof.
  destruct (database_view (initial 0) disconnected process0)
    as (_ & _ & H503 & Hstate & _).
  destruct (database_view (initial 0) pingFails process0)
    as (_ & _ & _ & _ & Hfail & _).
  split; [apply Hstate; discriminate|].
  split; [apply Hfail; reflexivity|].
  apply H503. intros [Hr _]. discriminate Hr.
Defined.

(** X17.  [GET /health/detailed] is answered 200 exactly when the store
    answers and the process figures can be read, and 503 otherwise.  The
    view that it returns counts the request itself: its counter is one
    more than before the request and its last-check time is the time of
    the request. *)
Theorem detailed_view (k : Counters) (c : Connection) (p : Process) :
  (status (snd (serve k c p (mkRequest GET "/health/detailed"))) = 200%Z <->
   storeUp c /\
   (exists mem, memoryUsage p = Returns mem) /\ (exists t, cpuUsage p = Returns t)) /\
  (status (snd (serve k c p (mkRequest GET "/health/detailed"))) = 200%Z \/
   status (snd (serve k c p (mkRequest GET "/health/detailed"))) = 503%Z) /\
  (forall h, body (snd (serve k c p (mkRequest GET "/health/detailed"))) =
             DetailedBody h ->
             det_healthCheckCount h = (healthCheckCount k + 1)%N /\
             det_lastHealthCheck h = Some (now p) /\
             det_database h = checkDatabase c /\
             (det_status h = "OK" <-> storeUp c)) /\
  (forall e, memoryUsage p = Raises e ->
             snd (serve k c p (mkRequest GET "/health/detailed")) =
             mkResponse 503 (DetailedFailedBody e (now p))).
Proof.
  rewrite detailed_route. cbn [snd].
  unfold health_detailed, getDetailedHealth, getSystemMetrics.
  pose proof (checkDatabase_status c) as Hdb.
  rewrite <- String.eqb_eq in Hdb.
  destruct (memoryUsage p) as [mem|e1] eqn:Em;
    [destruct (cpuUsage p) as [t|e2] eqn:Ec|];
    cbn [status body det_status det_healthCheckCount det_lastHealthCheck
         det_database memory system].
  - destruct (String.eqb (db_status (checkDatabase c)) "OK") eqn:Eb;
      cbn [String.eqb Ascii.eqb Bool.eqb andb].
    + assert (Hup : storeUp c) by now apply Hdb.
      split; [split; [intros _; split; [exact Hup | split; eauto] | reflexivity]|].
      split; [now left|]. split; [|intros e He; discriminate He].
      intros h Hh. injection Hh as <-. cbn.
      split; [reflexivity|]. split; [reflexivity|]. split; [reflexivity|].
      split; [intros _; exact Hup | reflexivity].
    + assert (Hdown : ~ storeUp c) by (intros Hup; apply Hdb in Hup; discriminate Hup).
      split; [split; [discriminate | intros [Hup _]; now elim Hdown]|].
      split; [now right|]. split; [|intros e He; discriminate He].
      intros h Hh. injection Hh as <-. cbn.
      split; [reflexivity|]. split; [reflexivity|]. split; [reflexivity|].
      split; [discriminate | intros Hup; now elim Hdown].
  - split; [split; [discriminate | intros (_ & _ & [t H]); discriminate H]|].
    split; [now right|]. split; [discriminate | intros e He; discriminate He].
  - split; [split; [discriminate | intros (_ & [mem H] & _); discriminate H]|].
    split; [now right|]. split; [discriminate|].
    intros e He. now injection He as <-.
Qed.

Lemma detailed_view_witness :
  status (snd (serve (initial 0) connected process0
                     (mkRequest GET "/health/detailed"))) = 200%Z /\
  snd (serve (initial 0) connected processNoMemory
             (mkRequest GET "/health/detailed")) =
    mkResponse 503 (DetailedFailedBody "uv_resident_set_memory" 5000).
Proof.
  destruct (detailed_view (initial 0) connected process0) as (H200 & _).
  destruct (detailed_view (initial 0) connected processNoMemory)
    as (_ & _ & _ & Hfail).
  split; [|apply Hfail; reflexivity].
  apply H200. split; [split; [reflexivity | eexists; reflexivity]|].
  split; eexists; reflexivity.
Defined.

(** X18.  [GET /metrics] is answered 200 with the figures exactly when
    reading the memory and the processor figures both return; when one of
    them throws, the error-handling middleware answers 500.  The request
    leaves the health counter as it is. *)
Theorem metrics_view (k : Counters) (c : Connection) (p : Process) :
  (status (snd (serve k c p (mkRequest GET "/metrics"))) = 200%Z <->
   (exists mem, memoryUsage p = Returns mem) /\ (exists t, cpuUsage p = Returns t)) /\
  (forall mem t, memoryUsage p = Returns mem -> cpuUsage p = Returns t ->
   exists m,
     snd (serve k c p (mkRequest GET "/metrics")) =
       mkResponse 200 (MetricsBody m (now p)) /\
     memory m = mem /\ cpu m = t /\ sys_startTime (system m) = startTime k) /\
  (status (snd (serve k c p (mkRequest GET "/metrics"))) <> 200%Z ->
   snd (serve k c p (mkRequest GET "/metrics")) = mkResponse 500 InternalServerError) /\
  fst (serve k c p (mkRequest GET "/metrics")) = k.
Proof.
  rewrite metrics_route. cbn [fst snd]. unfold metrics.
  rewrite <- (getSystemMetrics_returns p k).
  split; [|split; [|split; [|reflexivity]]].
  - destruct (getSystemMetrics p k) as [m|e]; cbn [status].
    + split; [intros _; exists m; reflexivity | reflexivity].
    + split; [discriminate | intros [m H]; discriminate H].
  - intros mem t Hmem Ht. unfold getSystemMetrics. rewrite Hmem, Ht.
    eexists. split; [reflexivity|]. repeat split.
  - destruct (getSystemMetrics p k) as [m|e]; cbn [status]; [now intros H | reflexivity].
Qed.

(** X19.  The health counter and its time stamp over a run: after any
    sequence of requests, the last-check time is the time of the last
    request that went through the [/health] mount, or what it was when
    there was none; the start time is never changed; from the state of a
    fresh process the last-check time is unset exactly when the counter
    is zero. *)
Theorem last_health_check (k : Counters) (events : list Event) :
  lastHealthCheck (fst (serveAll k events)) =
    match lastUnderHealth events with
    | Some t => Some t
    | None => lastHealthCheck k
    end /\
  startTime (fst (serveAll k events)) = startTime k /\
  (forall t, k = initial t ->
     (lastHealthCheck (fst (serveAll k events)) = None <->
      healthCheckCount (fst (serveAll k events)) = 0%N)).
Proof.
  destruct (serveAll_last k events) as [Hl Hs].
  split; [exact Hl|]. split; [exact Hs|].
  intros t ->. rewrite Hl, serveAll_count. cbn [initial lastHealthCheck healthCheckCount].
  clear Hl Hs. induction events as [|[[c p] r] events IH]; cbn [lastUnderHealth filter].
  - split; reflexivity.
  - change (underHealth (c, p, r))
      with (passedOn r && mountMatches "/health" (path r)).
    destruct (lastUnderHealth events) as [t'|].
    + split; [discriminate|]. intros H. exfalso.
      assert (Hz : List.length (filter underHealth events) = 0%nat).
      { destruct (passedOn r && mountMatches "/health" (path r));
          cbn [List.length] in H; lia. }
      rewrite Hz in IH. cbn in IH. destruct IH as [_ IH]. discriminate (IH eq_refl).
    + destruct (passedOn r && mountMatches "/health" (path r)); cbn [List.length].
      * split; [discriminate | lia].
      * exact IH.
Qed.

Lemma last_health_check_witness :
  lastHealthCheck
    (fst (serveAll (initial 0)
            [(connected, process0, mkRequest GET "/health");
             (connected, process0, mkRequest GET "/ready")])) = Some 5000%Z /\
  (lastHealthCheck
     (fst (serveAll (initial 0) [(connected, process0, mkRequest GET "/ready")]))
   = None <->
   healthCheckCount
     (fst (serveAll (initial 0) [(connected, process0, mkRequest GET "/ready")]))
   = 0%N).
Proof.
  destruct (last_health_check (initial 0)
              [(connected, process0, mkRequest GET "/health");
               (connected, process0, mkRequest GET "/ready")]) as (H1 & _).
  destruct (last_health_check (initial 0)
              [(connected, process0, mkRequest GET "/ready")]) as (_ & _ & H2).
  split; [exact H1 | exact (H2 0%Z eq_refl)].
Defined.

(** X20.  Of the requests whose path is not under [/api/users], only
    those of the [GET] kind find a route.  An [OPTIONS] request is
    answered 204 by [cors()] whatever its path; a request with another
    method is answered 500 when the parsers refuse its body and 404
    otherwise.  Only in the last case did it get as far as the [/health]
    mount, where it is counted when its path is under the mount. *)
Theorem other_methods_not_served (k : Counters) (c : Connection) (p : Process)
        (r : Request) :
  isGet (method r) = false -> mountMatches "/api/users" (path r) = false ->
  (method r = OPTIONS -> serve k c p r = (k, mkResponse 204 NoContent)) /\
  (method r <> OPTIONS -> payload r = Unparsable ->
   serve k c p r = (k, mkResponse 500 InternalServerError)) /\
  (method r <> OPTIONS -> payload r <> Unparsable ->
   snd (serve k c p r) = mkResponse 404 CannotRoute /\
   healthCheckCount (fst (serve k c p r)) =
     (healthCheckCount k + if mountMatches "/health" (path r) then 1 else 0)%N).
Proof.
  intros Hm Hu. split; [|split].
  - intros H. unfold serve, answeredByCors. now rewrite H.
  - intros Ho H. unfold serve, answeredByCors, refusedByParsers.
    rewrite H. destruct (method r); try reflexivity. now elim Ho.
  - intros Ho Hb.
    pose proof (proj2 (passedOn_true r) (conj Ho Hb)) as Hp.
    split.
    + rewrite (serve_passed k c p r Hp). unfold route. cbn [snd].
      now rewrite Hm, Hu.
    + now rewrite serve_count, Hp.
Qed.

Lemma other_methods_not_served_witness :
  snd (serve (initial 0) connected process0 (mkRequest POST "/health")) =
    mkResponse 404 CannotRoute /\
  healthCheckCount
    (fst (serve (initial 0) connected process0 (mkRequest POST "/health"))) = 1%N /\
  serve (initial 0) connected process0 (mkRequest OPTIONS "/ping") =
    (initial 0, mkResponse 204 NoContent) /\
  serve (initial 0) connected process0 (mkRequestWith PUT "/health" Unparsable) =
    (initial 0, mkResponse 500 InternalServerError).
Proof.
  destruct (other_methods_not_served (initial 0) connected process0
              (mkRequest POST "/health") eq_refl eq_refl) as (_ & _ & H404).
  destruct (other_methods_not_served (initial 0) connected process0
              (mkRequest OPTIONS "/ping") eq_refl eq_refl) as (H204 & _).
  destruct (other_methods_not_served (initial 0) connected process0
              (mkRequestWith PUT "/health" Unparsable) eq_refl eq_refl)
    as (_ & H500 & _).
  destruct H404 as [Ha Hb]; [discriminate | discriminate |].
  split; [exact Ha|]. split; [exact Hb|].
  split; [apply H204; reflexivity | apply H500; [discriminate | reflexivity]].
Defined.

(** X21.  The container health check passes whenever the process answers
    [GET /health], whatever the state of the store and even when the
    process figures cannot be read, and fails when there is no answer;
    each run adds one to the health counter. *)
Theorem container_healthcheck (k : Counters) (c : Connection) (p : Process) :
  exitStatus (Some (snd (serve k c p (mkRequest GET "/health")))) = 0%Z /\
  basic_status (getBasicHealth p) = "OK" /\
  exitStatus None = 1%Z /\
  (forall answer, exitStatus answer = 0%Z <->
                  exists r, answer = Some r /\ status r = 200%Z) /\
  healthCheckCount (fst (serve k c p (mkRequest GET "/health"))) =
    (healthCheckCount k + 1)%N.
Proof.
  rewrite health_route. cbn [fst snd].
  split; [reflexivity|]. split; [reflexivity|]. split; [reflexivity|].
  split; [|reflexivity].
  intros answer. unfold exitStatus, httpCode. destruct answer as [r|].
  - destruct (status r =? 200)%Z eqn:E.
    + apply Z.eqb_eq in E. split; [intros _; now exists r | reflexivity].
    + apply Z.eqb_neq in E. split; [discriminate|].
      intros (r' & Hr & Hs). injection Hr as <-. now elim E.
  - cbn. split; [discriminate | intros (r & Hr & _); discriminate Hr].
Qed.

End HealthMoreSpec.
